(** * SkPaintParamsKey: the paint-parameters key builder and its decoders

    A shallow embedding of [src/core/SkPaintParamsKey.cpp] and, further
    down, of the mock render pass [src/gpu/mock/GrMockOpsRenderPass.h].  A key is a
    byte sequence of back-to-back blocks; each block is a two-byte header
    (code-snippet ID, total block size) followed by its child blocks and
    then its data payload.

    Conventions of the embedding:
    - a [uint8_t] is a [Z] in [0, 256); conversions to [uint8_t] are
      written out as [Z.modulo _ 256];
    - an [int] offset or size is a [Z]; buffers are far below 2^31 bytes,
      so [int] arithmetic on offsets is not wrapped;
    - [fData] (an SkTDArray / SkSpan of bytes) is a [list Z], read and
      written by index through stdpp's lookup and insert, with the
      out-of-range case made explicit;
    - [fStack] (an SkTArray used as a stack) is a list whose head is
      [fStack.back()];
    - a [void] method of the builder is a function from the builder state
      to a result: [Ok] of the new state, or a [Fault];
    - [SkASSERT] is active exactly when [SK_DEBUG] is; code under
      [#ifdef SK_DEBUG] is guarded by the same flag. *)

From Stdlib Require Import ZArith List Bool String Lia.
From stdpp Require Import base list.

Local Open Scope Z_scope.
Set Warnings "-register-all".

(** ** Results of running code that may go wrong *)

Inductive fault : Type :=
| AssertFailed   (* an SkASSERT failed in a debug build *)
| NullDeref      (* a null dictionary entry was dereferenced *)
| OutOfBounds    (* a read or write past the end of a buffer *)
| OutOfFuel.     (* the recursion or loop budget of the model ran out *)

Inductive Res (A : Type) : Type :=
| Ok (a : A)
| Fault (f : fault).
Arguments Ok {A} a.
Arguments Fault {A} f.

#[global] Instance Res_ret : MRet Res := fun A a => Ok a.
#[global] Instance Res_bind : MBind Res := fun A B k m =>
  match m with
  | Ok a => k a
  | Fault f => Fault f
  end.

(** ** Format constants *)

(** Modelled from the spec: [SkPaintParamsKey::kBlockHeaderSizeInBytes],
    declared in SkPaintParamsKey.h; the header is two bytes. *)
Definition kBlockHeaderSizeInBytes : Z := 2.

(** Modelled from the spec: [SkPaintParamsKey::kBlockSizeOffsetInBytes],
    declared in SkPaintParamsKey.h; the size byte is the second header byte. *)
Definition kBlockSizeOffsetInBytes : Z := 1.

(** Modelled from the spec: [SkPaintParamsKey::kMaxBlockSize], declared in
    SkPaintParamsKey.h; the largest value of the one-byte size field. *)
Definition kMaxBlockSize : Z := 255.

(** ** The dictionary contract *)

Inductive DataPayloadType : Type := kByte.

Definition DataPayloadType_eqb (a b : DataPayloadType) : bool :=
  match a, b with kByte, kByte => true end.

Record DataPayloadField : Type := {
  fName : string;
  fType : DataPayloadType;
  fCount : Z   (* uint32_t *)
}.

Record SkShaderSnippet : Type := {
  fStaticFunctionName : string;
  fNumChildren : Z;
  fDataPayloadExpectations : list DataPayloadField
}.

(** Modelled from the spec: the dictionary (SkShaderCodeDictionary.h) is an
    external collaborator with two operations, the largest valid ID and
    the lookup of an entry, which may be absent. *)
Record SkShaderCodeDictionary : Type := {
  maxCodeSnippetID : Z;
  getEntry : Z -> option SkShaderSnippet
}.

(** Modelled from the spec: [dataPayloadExpectations(id)] is the payload
    shape declared by the dictionary entry of [id]; the entry is
    dereferenced. *)
Definition dataPayloadExpectations (dict : SkShaderCodeDictionary) (id : Z)
  : Res (list DataPayloadField) :=
  match getEntry dict id with
  | Some e => Ok (fDataPayloadExpectations e)
  | None => Fault NullDeref
  end.

(** ** Builder state *)

Module Frame.
Record t : Type := mk {
  fCodeSnippetID : Z;
  fHeaderOffset : Z;
  (* the next two fields exist in debug builds only *)
  fDataPayloadExpectations : list DataPayloadField;
  fCurDataPayloadEntry : Z
}.
End Frame.

Record SkPaintParamsKeyBuilder : Type := MkBuilder {
  fDict : SkShaderCodeDictionary;
  fData : list Z;
  fStack : list Frame.t;
  fIsValid : bool;
  (* Modelled from the spec: the outstanding-lock count, kept by lock() and
     unlock() in SkPaintParamsKey.h *)
  fLockCount : nat
}.

Definition set_fData (d : list Z) (b : SkPaintParamsKeyBuilder) :=
  MkBuilder (fDict b) d (fStack b) (fIsValid b) (fLockCount b).
Definition set_fStack (s : list Frame.t) (b : SkPaintParamsKeyBuilder) :=
  MkBuilder (fDict b) (fData b) s (fIsValid b) (fLockCount b).
Definition set_fIsValid (v : bool) (b : SkPaintParamsKeyBuilder) :=
  MkBuilder (fDict b) (fData b) (fStack b) v (fLockCount b).
Definition set_fLockCount (n : nat) (b : SkPaintParamsKeyBuilder) :=
  MkBuilder (fDict b) (fData b) (fStack b) (fIsValid b) n.

(** The constructor: an empty, valid, unlocked builder over [dict]. *)
Definition SkPaintParamsKeyBuilder_new (dict : SkShaderCodeDictionary)
  : SkPaintParamsKeyBuilder :=
  MkBuilder dict [] [] true 0%nat.

(** Modelled from the spec: the accessors [isValid] and [sizeInBytes] of
    SkPaintParamsKey.h read the validity flag and the buffer length. *)
Definition isValid (b : SkPaintParamsKeyBuilder) : bool := fIsValid b.
Definition sizeInBytes (b : SkPaintParamsKeyBuilder) : Z :=
  Z.of_nat (length (fData b)).

(** Modelled from the spec: [isLocked] and [lock] of SkPaintParamsKey.h. *)
Definition isLocked (b : SkPaintParamsKeyBuilder) : bool :=
  negb (Nat.eqb (fLockCount b) 0).
Definition lock (b : SkPaintParamsKeyBuilder) : SkPaintParamsKeyBuilder :=
  set_fLockCount (S (fLockCount b)) b.

(** Indexing an array with an [int]. *)
Definition index_at {A : Type} (l : list A) (i : Z) : option A :=
  if i <? 0 then None else l !! Z.to_nat i.

Definition byte_at (d : list Z) (i : Z) : option Z := index_at d i.

Definition write_byte (d : list Z) (i : Z) (v : Z) : Res (list Z) :=
  if (0 <=? i) && (i <? Z.of_nat (length d))
  then Ok (<[Z.to_nat i := v mod 256]> d)
  else Fault OutOfBounds.

(** ** The key *)

Module Key.
Record t : Type := mk {
  fData : list Z;
  (* whether the key views (and locks) a builder's buffer *)
  fOriginatingBuilder : bool
}.
End Key.
Abbreviation SkPaintParamsKey := Key.t.

(** The shader-info sink.
    Modelled from the spec: SkShaderInfo is an external collaborator;
    [add] appends one entry, [setWritesColor] sets a flag. *)
Record SkShaderInfo : Type := MkShaderInfo {
  fEntries : list SkShaderSnippet;
  fWritesColor : bool
}.
Definition add (e : SkShaderSnippet) (r : SkShaderInfo) : SkShaderInfo :=
  MkShaderInfo (fEntries r ++ [e]) (fWritesColor r).
Definition setWritesColor (r : SkShaderInfo) : SkShaderInfo :=
  MkShaderInfo (fEntries r) true.

(** ** Debug output

    A call [SkDebugf(fmt, args...)] is recorded as its format string and
    arguments; the dump code runs in a monad that threads the output so
    far and may fault, keeping what was printed before the fault. *)

Inductive SkDebugf_arg : Type :=
| ArgInt (z : Z)
| ArgStr (s : string).

Definition DebugOutput : Type := list (string * list SkDebugf_arg).

Definition Dump (A : Type) : Type := DebugOutput -> DebugOutput * Res A.

#[global] Instance Dump_ret : MRet Dump := fun A a out => (out, Ok a).
#[global] Instance Dump_bind : MBind Dump := fun A B k m out =>
  match m out with
  | (out', Ok a) => k a out'
  | (out', Fault f) => (out', Fault f)
  end.

Definition SkDebugf (fmt : string) (args : list SkDebugf_arg) : Dump unit :=
  fun out => (out ++ [(fmt, args)], Ok tt).

Definition liftRes {A : Type} (r : Res A) : Dump A := fun out => (out, r).

Section Model.

(** Build configuration and the two reserved snippet IDs of
    [SkBuiltInCodeSnippetID] this file names; their numeric values are
    declared outside this file. *)
Variable SK_DEBUG : bool.
Variable kError : Z.
Variable kDepthStencilOnlyDraw : Z.

Definition SkASSERT (c : bool) : Res unit :=
  if SK_DEBUG && negb c then Fault AssertFailed else Ok tt.

(** [SkTo<uint8_t>]: asserts that the value fits, then converts. *)
Definition SkTo_uint8 (x : Z) : Res Z :=
  SkASSERT ((0 <=? x) && (x <? 256));; Ok (x mod 256).

(** The header fields expected first on every new frame (debug builds). *)
Definition kHeader : list DataPayloadField :=
  [ Build_DataPayloadField "snippetID" kByte 1;
    Build_DataPayloadField "blockSize" kByte 1 ].

(** Assignment through [fStack.back()]. *)
Definition update_back (f : Frame.t -> Frame.t) (b : SkPaintParamsKeyBuilder)
  : SkPaintParamsKeyBuilder :=
  match fStack b with
  | [] => b
  | back :: rest => set_fStack (f back :: rest) b
  end.

Section Bodies.

(** [beginBlock], [endBlock] and [addBytes] call [makeInvalid], which calls
    [beginBlock] and [endBlock] back; the bodies take the callee as an
    argument and the knot is tied by [makeInvalid] below. *)
Variable makeInvalid : SkPaintParamsKeyBuilder -> Res SkPaintParamsKeyBuilder.

Definition addBytes_body (numBytes : Z) (data : list Z)
           (b : SkPaintParamsKeyBuilder) : Res SkPaintParamsKeyBuilder :=
  if negb (isValid b) then Ok b else
  match fStack b with
  | [] => makeInvalid b
  | frame :: _ =>
      b ← (if SK_DEBUG then
             let expectations := Frame.fDataPayloadExpectations frame in
             let cur := Frame.fCurDataPayloadEntry frame in
             SkASSERT ((cur <? Z.of_nat (length expectations)) &&
                       match index_at expectations cur with
                       | Some e => DataPayloadType_eqb (fType e) kByte
                                   && (fCount e =? numBytes)
                       | None => false
                       end);;
             Ok (update_back
                   (fun fr => Frame.mk (Frame.fCodeSnippetID fr)
                                       (Frame.fHeaderOffset fr)
                                       (Frame.fDataPayloadExpectations fr)
                                       (Frame.fCurDataPayloadEntry fr + 1)) b)
           else Ok b);
      SkASSERT (negb (isLocked b));;
      (* fData.push_back_n(numBytes, data) *)
      if (0 <=? numBytes) && (numBytes <=? Z.of_nat (length data))
      then Ok (set_fData (fData b ++ take (Z.to_nat numBytes) data) b)
      else Fault OutOfBounds
  end.

(** Modelled from the spec: [addByte(uint8_t data)] (SkPaintParamsKey.h)
    appends one byte; it is the one-byte case of [addBytes], which is why
    [beginBlock] first installs the two [kHeader] expectations on the new
    frame. *)
Definition addByte_body (data : Z) (b : SkPaintParamsKeyBuilder)
  : Res SkPaintParamsKeyBuilder :=
  addBytes_body 1 [data] b.

Definition beginBlock_body (codeSnippetID : Z) (b : SkPaintParamsKeyBuilder)
  : Res SkPaintParamsKeyBuilder :=
  if negb (isValid b) then Ok b else
  if (codeSnippetID <? 0) || (codeSnippetID >? maxCodeSnippetID (fDict b))
  then makeInvalid b else
  (if SK_DEBUG then
     match fStack b with
     | [] => Ok tt
     | back :: _ => SkASSERT (Frame.fCurDataPayloadEntry back =? 0)
     end
   else Ok tt);;
  SkASSERT (negb (isLocked b));;
  let b := set_fStack
             (Frame.mk codeSnippetID (sizeInBytes b)
                       (if SK_DEBUG then kHeader else []) 0 :: fStack b) b in
  id8 ← SkTo_uint8 codeSnippetID;
  b ← addByte_body id8 b;
  b ← addByte_body 0 b;   (* patched up by endBlock *)
  if SK_DEBUG then
    expectations ← dataPayloadExpectations (fDict b) codeSnippetID;
    Ok (update_back
          (fun fr => Frame.mk (Frame.fCodeSnippetID fr) (Frame.fHeaderOffset fr)
                              expectations 0) b)
  else Ok b.

Definition endBlock_body (b : SkPaintParamsKeyBuilder)
  : Res SkPaintParamsKeyBuilder :=
  if negb (isValid b) then Ok b else
  match fStack b with
  | [] => makeInvalid b
  | back :: rest =>
      SkASSERT (Frame.fCurDataPayloadEntry back =?
                Z.of_nat (length (Frame.fDataPayloadExpectations back)));;
      SkASSERT (negb (isLocked b));;
      let headerOffset := Frame.fHeaderOffset back in
      SkASSERT (match byte_at (fData b) headerOffset with
                | Some x => x =? Frame.fCodeSnippetID back
                | None => false
                end);;
      SkASSERT (match byte_at (fData b) (headerOffset + kBlockSizeOffsetInBytes) with
                | Some x => x =? 0
                | None => false
                end);;
      let blockSize := sizeInBytes b - headerOffset in
      if blockSize >? kMaxBlockSize then makeInvalid b else
      d ← write_byte (fData b) (headerOffset + kBlockSizeOffsetInBytes) blockSize;
      let b := set_fStack rest (set_fData d b) in
      (if SK_DEBUG then
         match fStack b with
         | [] => Ok tt
         | back' :: _ => SkASSERT (Frame.fCurDataPayloadEntry back' =? 0)
         end
       else Ok tt);;
      Ok b
  end.

End Bodies.

(** [makeInvalid] resets the builder to the single error block and latches
    the validity flag.  [fuel] bounds the mutual recursion with
    [beginBlock]: were [kError] outside the dictionary's ID range, the C++
    would recurse forever. *)
Fixpoint makeInvalid (fuel : nat) (b : SkPaintParamsKeyBuilder)
  : Res SkPaintParamsKeyBuilder :=
  match fuel with
  | O => Fault OutOfFuel
  | S fuel' =>
      SkASSERT (fIsValid b);;
      SkASSERT (negb (isLocked b));;
      let b := set_fStack [] b in
      let b := set_fData [] b in
      b ← beginBlock_body (makeInvalid fuel') kError b;
      b ← endBlock_body (makeInvalid fuel') b;
      SkASSERT (fIsValid b);;
      Ok (set_fIsValid false b)
  end.

Definition beginBlock (fuel : nat) := beginBlock_body (makeInvalid fuel).
Definition endBlock (fuel : nat) := endBlock_body (makeInvalid fuel).
Definition addBytes (fuel : nat) := addBytes_body (makeInvalid fuel).

(** [lockAsKey] returns the key together with the builder it leaves
    behind; the key's constructor takes the lock. *)
Definition lockAsKey (fuel : nat) (b : SkPaintParamsKeyBuilder)
  : Res (SkPaintParamsKey * SkPaintParamsKeyBuilder) :=
  b ← (match fStack b with
       | [] => Ok b
       | _ :: _ => makeInvalid fuel b   (* fall through *)
       end);
  SkASSERT (negb (isLocked b));;
  let b := set_fIsValid true b in
  let b := set_fStack [] b in
  Ok (Key.mk (fData b) true, lock b).

(** Debug-only [checkReset]. *)
Definition checkReset (b : SkPaintParamsKeyBuilder) : Res unit :=
  SkASSERT (negb (isLocked b));;
  SkASSERT (sizeInBytes b =? 0);;
  SkASSERT (fIsValid b);;
  SkASSERT (match fStack b with [] => true | _ => false end).

(** A caller's sequence of building calls. *)
Inductive BuildOp : Type :=
| OpBegin (codeSnippetID : Z)
| OpAdd (numBytes : Z) (data : list Z)
| OpEnd.

Definition run_op (fuel : nat) (op : BuildOp) (b : SkPaintParamsKeyBuilder)
  : Res SkPaintParamsKeyBuilder :=
  match op with
  | OpBegin codeSnippetID => beginBlock fuel codeSnippetID b
  | OpAdd numBytes data => addBytes fuel numBytes data b
  | OpEnd => endBlock fuel b
  end.

Fixpoint run_ops (fuel : nat) (ops : list BuildOp) (b : SkPaintParamsKeyBuilder)
  : Res SkPaintParamsKeyBuilder :=
  match ops with
  | [] => Ok b
  | op :: ops' => b' ← run_op fuel op b; run_ops fuel ops' b'
  end.

(** *** Key: equality *)

(** [memcmp]: the sign of the first difference among the first [n] bytes. *)
Fixpoint memcmp (a b : list Z) (n : nat) : Z :=
  match n with
  | O => 0
  | S n' =>
      match a, b with
      | x :: a', y :: b' =>
          if x <? y then -1 else if y <? x then 1 else memcmp a' b' n'
      | _, _ => 0
      end
  end.

(** Modelled from the spec: [key.sizeInBytes()] (SkPaintParamsKey.h). *)
Definition Key_sizeInBytes (k : SkPaintParamsKey) : Z :=
  Z.of_nat (length (Key.fData k)).

Definition operator_eq (this that : SkPaintParamsKey) : bool :=
  (Z.of_nat (length (Key.fData this)) =? Z.of_nat (length (Key.fData that)))
  && (memcmp (Key.fData this) (Key.fData that) (length (Key.fData this)) =? 0).

(** The raw-bytes constructor: no originating builder. *)
Definition SkPaintParamsKey_raw (rawData : list Z) : SkPaintParamsKey :=
  Key.mk rawData false.

(** Modelled from the spec: [key.byte(offset)] (SkPaintParamsKey.h) reads
    one byte of the key; a read past the end is a fault. *)
Definition Key_byte (k : SkPaintParamsKey) (offset : Z) : Res Z :=
  match byte_at (Key.fData k) offset with
  | Some x => Ok x
  | None => Fault OutOfBounds
  end.

(** Modelled from the spec: [readCodeSnippetID] (SkPaintParamsKey.h) reads
    the pair (id, size) of the header at [headerOffset]. *)
Definition readCodeSnippetID (k : SkPaintParamsKey) (headerOffset : Z)
  : Res (Z * Z) :=
  id ← Key_byte k headerOffset;
  blockSize ← Key_byte k (headerOffset + kBlockSizeOffsetInBytes);
  Ok (id, blockSize).

(** *** Key: shader-info extraction *)

(** [for (int i = 0; i < n; ++i) body], threading the loop-carried state. *)
Fixpoint for_loop {M : Type -> Type} `{MBind M, MRet M} {St : Type}
         (n : nat) (i : Z) (body : Z -> St -> M St) (s : St) : M St :=
  match n with
  | O => mret s
  | S n' => s' ← body i s; for_loop n' (i + 1) body s'
  end.

(** [for (auto e : l) body], threading the loop-carried state. *)
Fixpoint for_each {M : Type -> Type} `{MBind M, MRet M} {A St : Type}
         (l : list A) (body : A -> St -> M St) (s : St) : M St :=
  match l with
  | [] => mret s
  | e :: l' => s' ← body e s; for_each l' body s'
  end.

Fixpoint AddBlockToShaderInfo (fuel : nat) (dict : SkShaderCodeDictionary)
         (key : SkPaintParamsKey) (headerOffset : Z) (result : SkShaderInfo)
  : Res (Z * SkShaderInfo) :=
  match fuel with
  | O => Fault OutOfFuel
  | S fuel' =>
      hdr ← readCodeSnippetID key headerOffset;
      let codeSnippetID := hdr.1 in
      let blockSize := hdr.2 in
      match getEntry dict codeSnippetID with
      | None => Fault NullDeref          (* [*entry] in result->add *)
      | Some entry =>
          let result := add entry result in
          let childOffset := headerOffset + kBlockHeaderSizeInBytes in
          st ← for_loop (Z.to_nat (fNumChildren entry)) 0
                 (fun _ (st : Z * SkShaderInfo) =>
                    SkASSERT (st.1 <? headerOffset + blockSize);;
                    r ← AddBlockToShaderInfo fuel' dict key st.1 st.2;
                    Ok (st.1 + r.1, r.2))
                 (childOffset, result);
          let result := st.2 in
          let result :=
            if negb (codeSnippetID =? kDepthStencilOnlyDraw)
            then setWritesColor result else result in
          Ok (blockSize, result)
      end
  end.

(** The top-level [while] loop of [toShaderInfo]; [fuel] bounds the number
    of iterations and [depth] the recursion of each block visit. *)
Fixpoint toShaderInfo_loop (fuel depth : nat) (dict : SkShaderCodeDictionary)
         (key : SkPaintParamsKey) (curHeaderOffset : Z) (result : SkShaderInfo)
  : Res SkShaderInfo :=
  if curHeaderOffset <? Key_sizeInBytes key then
    match fuel with
    | O => Fault OutOfFuel
    | S fuel' =>
        r ← AddBlockToShaderInfo depth dict key curHeaderOffset result;
        toShaderInfo_loop fuel' depth dict key (curHeaderOffset + r.1) r.2
    end
  else Ok result.

Definition toShaderInfo (fuel : nat) (dict : SkShaderCodeDictionary)
           (key : SkPaintParamsKey) (result : SkShaderInfo) : Res SkShaderInfo :=
  toShaderInfo_loop fuel fuel dict key 0 result.

(** *** Key: diagnostic dump (compiled under [SK_DEBUG] only, so its
    assertions are always active) *)

Definition output_indent (indent : Z) : Dump unit :=
  for_loop (Z.to_nat indent) 0 (fun _ _ => SkDebugf "    " []) tt.

Definition dump_assert (c : bool) : Dump unit :=
  liftRes (if c then Ok tt else Fault AssertFailed).

Fixpoint dump_block (fuel : nat) (dict : SkShaderCodeDictionary)
         (key : SkPaintParamsKey) (headerOffset : Z) (indent : Z) : Dump Z :=
  match fuel with
  | O => liftRes (Fault OutOfFuel)
  | S fuel' =>
      id ← liftRes (Key_byte key headerOffset);
      blockSize ← liftRes (Key_byte key (headerOffset + 1));
      dump_assert ((2 <=? blockSize)
                   && (headerOffset + blockSize <=? Key_sizeInBytes key));;
      let entry := getEntry dict id in
      (match entry with
       | None =>
           output_indent indent;;
           SkDebugf "unknown block! (%dB)\n" [ArgInt blockSize]
       | Some _ => mret tt
       end);;
      output_indent indent;;
      (* entry->fStaticFunctionName: the entry is dereferenced whether or
         not it was found *)
      entry ← liftRes (match entry with
                       | Some e => Ok e
                       | None => Fault NullDeref
                       end);
      SkDebugf "%s block (%dB)\n"
               [ArgStr (fStaticFunctionName entry); ArgInt blockSize];;
      let curOffset := headerOffset + kBlockHeaderSizeInBytes in
      curOffset ← for_loop (Z.to_nat (fNumChildren entry)) 0
                    (fun i (curOffset : Z) =>
                       output_indent indent;;
                       SkDebugf "child %d:\n" [ArgInt i];;
                       childSize ← dump_block fuel' dict key curOffset (indent + 1);
                       mret (curOffset + childSize))
                    curOffset;
      _ ← for_each (fDataPayloadExpectations entry)
            (fun (e : DataPayloadField) (curOffset : Z) =>
               output_indent indent;;
               SkDebugf "%s[%d]: " [ArgStr (fName e); ArgInt (fCount e)];;
               dump_assert (DataPayloadType_eqb (fType e) kByte);;
               curOffset ← for_loop (Z.to_nat (fCount e)) 0
                             (fun _ (curOffset : Z) =>
                                output_indent indent;;
                                v ← liftRes (Key_byte key curOffset);
                                SkDebugf "%d," [ArgInt v];;
                                mret (curOffset + 1))
                             curOffset;
               SkDebugf "\n" [];;
               mret curOffset)
            curOffset;
      mret blockSize
  end.

Fixpoint dump_loop (fuel depth : nat) (dict : SkShaderCodeDictionary)
         (key : SkPaintParamsKey) (curHeaderOffset : Z) : Dump unit :=
  if curHeaderOffset <? Key_sizeInBytes key then
    match fuel with
    | O => liftRes (Fault OutOfFuel)
    | S fuel' =>
        blockSize ← dump_block depth dict key curHeaderOffset 0;
        dump_loop fuel' depth dict key (curHeaderOffset + blockSize)
    end
  else mret tt.

(** This just iterates over the top-level blocks. *)
Definition dump (fuel : nat) (dict : SkShaderCodeDictionary)
           (key : SkPaintParamsKey) : Dump unit :=
  SkDebugf "--------------------------------------\n" [];;
  SkDebugf "SkPaintParamsKey (%dB):\n" [ArgInt (Key_sizeInBytes key)];;
  dump_loop fuel fuel dict key 0.

Definition isErrorKey (key : SkPaintParamsKey) : bool :=
  (Key_sizeInBytes key =? kBlockHeaderSizeInBytes)
  && match byte_at (Key.fData key) 0, byte_at (Key.fData key) 1 with
     | Some b0, Some b1 => (b0 =? kError) && (b1 =? kBlockHeaderSizeInBytes)
     | _, _ => false
     end.

End Model.

(** ** Blocks as trees

    What a caller builds, seen as a forest: a block has a snippet ID, child
    blocks, and payload fields (one [addBytes] call per field). *)

Inductive Block : Type :=
| MkBlock (id : Z) (children : list Block) (payload : list (list Z)).

Definition block_id (blk : Block) : Z :=
  match blk with MkBlock id _ _ => id end.
Definition block_children (blk : Block) : list Block :=
  match blk with MkBlock _ ch _ => ch end.
Definition block_payload (blk : Block) : list (list Z) :=
  match blk with MkBlock _ _ pl => pl end.

Definition sumZ (l : list Z) : Z := foldr Z.add 0 l.

Definition field_sizes (pl : list (list Z)) : list Z :=
  map (fun d => Z.of_nat (length d)) pl.

(** The size the spec gives a block: header, children, payload. *)
Fixpoint Block_size (blk : Block) : Z :=
  match blk with
  | MkBlock _ ch pl => 2 + sumZ (map Block_size ch) + sumZ (field_sizes pl)
  end.

(** The byte layout the spec gives a block. *)
Fixpoint encode (blk : Block) : list Z :=
  match blk with
  | MkBlock id ch pl =>
      [id; Block_size blk] ++ concat (map encode ch) ++ concat pl
  end.

Definition encode_forest (f : list Block) : list Z := concat (map encode f).

(** The calls that build a block: begin, the children, one [addBytes] per
    payload field, end. *)
Fixpoint build_ops (blk : Block) : list BuildOp :=
  match blk with
  | MkBlock id ch pl =>
      OpBegin id :: concat (map build_ops ch)
        ++ map (fun d => OpAdd (Z.of_nat (length d)) d) pl ++ [OpEnd]
  end.

Definition build_forest_ops (f : list Block) : list BuildOp :=
  concat (map build_ops f).

(** Blocks in pre-order: a block, then each child subtree in order. *)
Fixpoint preorder (blk : Block) : list Block :=
  match blk with
  | MkBlock _ ch _ => blk :: concat (map preorder ch)
  end.

Definition preorder_forest (f : list Block) : list Block :=
  concat (map preorder f).

Definition entries_of (dict : SkShaderCodeDictionary) (ids : list Z)
  : list SkShaderSnippet :=
  omap (getEntry dict) ids.

Fixpoint Block_depth (blk : Block) : nat :=
  match blk with
  | MkBlock _ ch _ => S (foldr Nat.max 0%nat (map Block_depth ch))
  end.

(** A block matches the dictionary's declared schema. *)
Inductive conforms (dict : SkShaderCodeDictionary) : Block -> Prop :=
| conforms_block id ch pl e :
    0 <= id <= maxCodeSnippetID dict ->
    id < 256 ->
    getEntry dict id = Some e ->
    fNumChildren e = Z.of_nat (length ch) ->
    map fCount (fDataPayloadExpectations e) = field_sizes pl ->
    Block_size (MkBlock id ch pl) <= kMaxBlockSize ->
    Forall (conforms dict) ch ->
    conforms dict (MkBlock id ch pl).

(** The reserved error snippet is a valid one-byte ID and, where the
    debug checks look at it, is declared with no payload. *)
Definition error_snippet_ok (SK_DEBUG : bool) (kError : Z)
           (dict : SkShaderCodeDictionary) : Prop :=
  0 <= kError <= maxCodeSnippetID dict /\ kError < 256 /\
  (SK_DEBUG = true ->
   exists e, getEntry dict kError = Some e /\ fDataPayloadExpectations e = []).

(** The debug assertions of [endBlock] on the open frame, as a check:
    every declared field was written, the header bytes are in place, and
    the enclosing frame has no field written yet. *)
Definition endBlock_checks (b : SkPaintParamsKeyBuilder) : bool :=
  match fStack b with
  | [] => true
  | back :: rest =>
      let headerOffset := Frame.fHeaderOffset back in
      (Frame.fCurDataPayloadEntry back =?
       Z.of_nat (length (Frame.fDataPayloadExpectations back)))
      && match byte_at (fData b) headerOffset with
         | Some x => x =? Frame.fCodeSnippetID back
         | None => false
         end
      && match byte_at (fData b) (headerOffset + kBlockSizeOffsetInBytes) with
         | Some x => x =? 0
         | None => false
         end
      && match rest with
         | [] => true
         | back' :: _ => Frame.fCurDataPayloadEntry back' =? 0
         end
  end.

(** A frame as it looks in either build: the debug-only fields carry
    information in debug builds only. *)
Definition frame_of (SK_DEBUG : bool) (id h : Z)
           (exps : list DataPayloadField) (cur : Z) : Frame.t :=
  Frame.mk id h (if SK_DEBUG then exps else []) (if SK_DEBUG then cur else 0).

(** Two builder states agree on everything but buffer and stack. *)
Definition same_mode (b b' : SkPaintParamsKeyBuilder) : Prop :=
  fIsValid b' = fIsValid b /\ fLockCount b' = fLockCount b /\ fDict b' = fDict b.

(** In debug builds, the innermost open frame has no field written yet. *)
Definition top_clear (SK_DEBUG : bool) (st : list Frame.t) : Prop :=
  SK_DEBUG = true ->
  match st with [] => True | back :: _ => Frame.fCurDataPayloadEntry back = 0 end.

(** The snippet IDs of a forest in pre-order. *)
Definition preorder_ids (f : list Block) : list Z :=
  map block_id (preorder_forest f).

(** What visiting blocks with the given IDs, in order, does to the sink:
    one entry appended per block, and the colour flag set as soon as one
    ID is not the depth/stencil-only marker. *)
Definition visit_result (dict : SkShaderCodeDictionary)
           (kDepthStencilOnlyDraw : Z) (ids : list Z) (r : SkShaderInfo)
  : SkShaderInfo :=
  MkShaderInfo (fEntries r ++ entries_of dict ids)
               (fWritesColor r
                || existsb (fun id => negb (id =? kDepthStencilOnlyDraw)) ids).

(** The stored sizes of the top-level blocks partition the buffer from
    [off] on: each is at least 2 and the last block ends with the buffer. *)
Inductive tiles (data : list Z) : Z -> Prop :=
| tiles_end off :
    off = Z.of_nat (length data) -> tiles data off
| tiles_block off size :
    byte_at data (off + 1) = Some size ->
    2 <= size ->
    off + size <= Z.of_nat (length data) ->
    tiles data (off + size) ->
    tiles data off.

(** Every byte of a buffer is a [uint8_t]. *)
Definition is_bytes (data : list Z) : Prop :=
  Forall (fun x => 0 <= x < 256) data.

(** A block visit of [blk], wherever its bytes sit in a key, returns the
    block's size and records its subtree in pre-order. *)
Definition decodes (SK_DEBUG : bool) (kDepthStencilOnlyDraw : Z)
           (dict : SkShaderCodeDictionary) (fuel : nat) (blk : Block) : Prop :=
  forall flag pre post r,
    AddBlockToShaderInfo SK_DEBUG kDepthStencilOnlyDraw fuel dict
      (Key.mk (pre ++ encode blk ++ post) flag) (Z.of_nat (length pre)) r
    = Ok (Block_size blk,
          visit_result dict kDepthStencilOnlyDraw (preorder_ids [blk]) r).

(** A postcondition on a dump computation: [I] of its value, or [P] of
    its fault. *)
Definition dump_post {A : Type} (I : A -> Prop) (P : fault -> Prop)
           (x : DebugOutput * Res A) : Prop :=
  match x.2 with Ok a => I a | Fault f => P f end.

(** The header offsets the decode walks read a snippet ID from.

    The top-level loop starts at 0 and steps by the stored size byte while
    it stays inside the buffer. *)
Inductive top_offset (key : SkPaintParamsKey) : Z -> Prop :=
| top_first :
    0 < Key_sizeInBytes key -> top_offset key 0
| top_next off size :
    top_offset key off ->
    byte_at (Key.fData key) (off + 1) = Some size ->
    off + size < Key_sizeInBytes key ->
    top_offset key (off + size).

(** The [i]-th child of the block at [off] starts right after the header
    and after the stored sizes of the children before it. *)
Inductive child_offset (key : SkPaintParamsKey) (off : Z) : nat -> Z -> Prop :=
| child_first :
    child_offset key off 0 (off + kBlockHeaderSizeInBytes)
| child_next i co size :
    child_offset key off i co ->
    byte_at (Key.fData key) (co + 1) = Some size ->
    child_offset key off (S i) (co + size).

(** A block header is read at a top-level offset, and at each of the
    declared children of a block whose header is read. *)
Inductive reads (dict : SkShaderCodeDictionary) (key : SkPaintParamsKey)
  : Z -> Prop :=
| reads_top off :
    top_offset key off -> reads dict key off
| reads_child off id e i co :
    reads dict key off ->
    byte_at (Key.fData key) off = Some id ->
    getEntry dict id = Some e ->
    (Z.of_nat i < fNumChildren e) ->
    child_offset key off i co ->
    reads dict key co.

(** The same offsets seen from a starting point: the top-level offsets
    the loop reaches from [off], and the headers read in the subtree of
    the block at [off]. *)
Inductive top_from (key : SkPaintParamsKey) : Z -> Z -> Prop :=
| top_from_here off :
    off < Key_sizeInBytes key -> top_from key off off
| top_from_step off size t :
    off < Key_sizeInBytes key ->
    byte_at (Key.fData key) (off + 1) = Some size ->
    top_from key (off + size) t ->
    top_from key off t.

Inductive under (dict : SkShaderCodeDictionary) (key : SkPaintParamsKey)
  : Z -> Z -> Prop :=
| under_self off : under dict key off off
| under_child off id e i c co :
    byte_at (Key.fData key) off = Some id ->
    getEntry dict id = Some e ->
    (Z.of_nat i < fNumChildren e) ->
    child_offset key off i c ->
    under dict key c co ->
    under dict key off co.

(** Some block header the walk reads carries an ID other than the
    depth/stencil-only marker. *)
Definition reads_non_marker (dict : SkShaderCodeDictionary)
           (kDepthStencilOnlyDraw : Z) (key : SkPaintParamsKey) : Prop :=
  exists off id,
    reads dict key off /\ byte_at (Key.fData key) off = Some id
    /\ id <> kDepthStencilOnlyDraw.

(** Every snippet ID the walk reads from the key has a dictionary entry. *)
Definition ids_have_entries (dict : SkShaderCodeDictionary)
           (key : SkPaintParamsKey) : Prop :=
  forall off id,
    reads dict key off -> byte_at (Key.fData key) off = Some id ->
    getEntry dict id <> None.

(** The state [makeInvalid] leaves behind. *)
Definition poisoned (kError : Z) (b : SkPaintParamsKeyBuilder)
  : SkPaintParamsKeyBuilder :=
  MkBuilder (fDict b) [kError; 2] [] false (fLockCount b).

(** The canonical error key. *)
Definition error_key (kError : Z) : SkPaintParamsKey :=
  Key.mk [kError; kBlockHeaderSizeInBytes] true.

(** What holds of every builder between calls. *)
Definition builder_inv (kError : Z) (b : SkPaintParamsKeyBuilder) : Prop :=
  fLockCount b = 0%nat /\
  (fIsValid b = false -> fData b = [kError; 2] /\ fStack b = []).

(** ** A small dictionary, for concrete runs

    ID 0 is the error snippet and ID 2 the depth/stencil-only marker. *)
Definition example_entries (id : Z) : option SkShaderSnippet :=
  if id =? 0 then Some (Build_SkShaderSnippet "error" 0 [])
  else if id =? 1 then
    Some (Build_SkShaderSnippet "blend" 1 [Build_DataPayloadField "mode" kByte 1])
  else if id =? 2 then Some (Build_SkShaderSnippet "depth_stencil_only" 0 [])
  else if id =? 3 then
    Some (Build_SkShaderSnippet "table" 0 [Build_DataPayloadField "data" kByte 253])
  else if id =? 4 then
    Some (Build_SkShaderSnippet "big_table" 0 [Build_DataPayloadField "data" kByte 254])
  else if id =? 5 then
    Some (Build_SkShaderSnippet "solid" 0 [Build_DataPayloadField "color" kByte 2])
  else None.

Definition example_dict : SkShaderCodeDictionary :=
  Build_SkShaderCodeDictionary 5 example_entries.

(** Block 1 with block 5 as its only child. *)
Definition example_leaf : Block := MkBlock 5 [] [[1; 2]].
Definition example_tree : Block := MkBlock 1 [example_leaf] [[9]].

(** A builder with block [id] open and its one field of [n] payload bytes
    written. *)
Definition example_open (SK_DEBUG : bool) (id : Z) (n : nat)
  : SkPaintParamsKeyBuilder :=
  MkBuilder example_dict (id :: 0 :: replicate n 7)
            [frame_of SK_DEBUG id 0
                      [Build_DataPayloadField "data" kByte (Z.of_nat n)] 1]
            true 0%nat.

(** ** Invariants of the builder *)

(** The open frames, innermost first: every header lies below [bound], its
    two bytes are in place (the ID as stored, the size still 0), and the
    enclosing frames lie below it. *)
Fixpoint frames_below (d : list Z) (bound : Z) (st : list Frame.t) : Prop :=
  match st with
  | [] => True
  | fr :: rest =>
      0 <= Frame.fHeaderOffset fr
      /\ Frame.fHeaderOffset fr + 2 <= bound
      /\ byte_at d (Frame.fHeaderOffset fr) = Some (Frame.fCodeSnippetID fr mod 256)
      /\ byte_at d (Frame.fHeaderOffset fr + 1) = Some 0
      /\ frames_below d (Frame.fHeaderOffset fr) rest
  end.

(** The stored sizes partition the bytes from [off] up to [stop]. *)
Inductive tiles_to (d : list Z) (stop : Z) : Z -> Prop :=
| tiles_to_end : tiles_to d stop stop
| tiles_to_block off size :
    byte_at d (off + 1) = Some size ->
    2 <= size ->
    off + size <= stop ->
    tiles_to d stop (off + size) ->
    tiles_to d stop off.

(** Where the outermost open block starts; the end of the buffer when no
    block is open. *)
Definition bottom_offset (d : list Z) (st : list Frame.t) : Z :=
  match last st with
  | Some fr => Frame.fHeaderOffset fr
  | None => Z.of_nat (length d)
  end.

(** What holds of the builder between building calls: it is unlocked; while
    valid, its open frames are in place and everything before the
    outermost open block is a sequence of closed blocks; once invalid, it
    holds the error block only. *)
Definition builder_ok (kError : Z) (b : SkPaintParamsKeyBuilder) : Prop :=
  fLockCount b = 0%nat /\
  if fIsValid b then
    frames_below (fData b) (Z.of_nat (length (fData b))) (fStack b)
    /\ tiles_to (fData b) (bottom_offset (fData b) (fStack b)) 0
  else fData b = [kError; 2] /\ fStack b = [].

(** The arguments of a building call are usable: [addBytes] is given at
    least [numBytes] bytes. *)
Definition op_args_ok (op : BuildOp) : Prop :=
  match op with
  | OpAdd numBytes data => 0 <= numBytes <= Z.of_nat (length data)
  | _ => True
  end.

(** The bytes handed to [addBytes] are [uint8_t] values. *)
Definition op_bytes (op : BuildOp) : Prop :=
  match op with
  | OpAdd _ data => is_bytes data
  | _ => True
  end.

(** The bytes of a conforming block, followed by anything, determine the
    block and what follows it. *)
Definition parses_uniquely (dict : SkShaderCodeDictionary) (b1 : Block) : Prop :=
  forall b2 r1 r2,
    conforms dict b1 -> conforms dict b2 ->
    encode b1 ++ r1 = encode b2 ++ r2 -> b1 = b2 /\ r1 = r2.


(** ** What the dump prints *)

(** The values printed by the payload format ["%d,"], in order. *)
Definition printed_bytes (out : DebugOutput) : list Z :=
  flat_map (fun call : string * list SkDebugf_arg =>
              if String.eqb call.1 "%d," then
                match call.2 with
                | [ArgInt v] => [v]
                | _ => []
                end
              else []) out.

(** The payload bytes of a block in the order the dump reaches them: the
    children's first, then the block's own. *)
Fixpoint payload_order (blk : Block) : list Z :=
  match blk with
  | MkBlock _ ch pl => concat (map payload_order ch) ++ concat pl
  end.

(** A dump computation started on [out] completes, and its value and
    output satisfy [R]. *)
Definition dump_ok {A : Type} (m : Dump A) (out : DebugOutput)
           (R : A -> DebugOutput -> Prop) : Prop :=
  match m out with
  | (out', Ok a) => R a out'
  | (_, Fault _) => False
  end.

(** Dumping [blk], wherever its bytes sit in a key, completes, returns
    the block's size and prints its payload bytes. *)
Definition dumps (dict : SkShaderCodeDictionary) (fuel : nat) (blk : Block)
  : Prop :=
  forall flag pre post indent out,
    dump_ok (dump_block fuel dict (Key.mk (pre ++ encode blk ++ post) flag)
                        (Z.of_nat (length pre)) indent)
            out
            (fun bs out' =>
               bs = Block_size blk
               /\ printed_bytes out' = printed_bytes out ++ payload_order blk).

(** ** What the shader-info walk records *)

(** [e] is the dictionary entry of a header ID read in the subtree of the
    block at [off]. *)
Definition entry_under (dict : SkShaderCodeDictionary) (key : SkPaintParamsKey)
           (off : Z) (e : SkShaderSnippet) : Prop :=
  exists co id,
    under dict key off co /\ byte_at (Key.fData key) co = Some id
    /\ getEntry dict id = Some e.

(** [e] is the dictionary entry of a header ID read by the top-level loop
    from [off] on. *)
Definition entry_from (dict : SkShaderCodeDictionary) (key : SkPaintParamsKey)
           (off : Z) (e : SkShaderSnippet) : Prop :=
  exists t, top_from key off t /\ entry_under dict key t e.

(** [e] is the dictionary entry of a header ID the walk reads. *)
Definition entry_read (dict : SkShaderCodeDictionary) (key : SkPaintParamsKey)
           (e : SkShaderSnippet) : Prop :=
  exists off id,
    reads dict key off /\ byte_at (Key.fData key) off = Some id
    /\ getEntry dict id = Some e.

(** ** Further examples *)

(** Blocks 1 and 5 opened on a fresh builder and neither closed (debug
    build). *)
Definition example_two_open : SkPaintParamsKeyBuilder :=
  MkBuilder example_dict [1; 0; 5; 0]
            [Frame.mk 5 2 [Build_DataPayloadField "color" kByte 2] 0;
             Frame.mk 1 0 [Build_DataPayloadField "mode" kByte 1] 0]
            true 0%nat.

(** Block 5 with its payload, then the empty block 2; the key and the
    builder [lockAsKey] then gives. *)
Definition example_flat_ops : list BuildOp :=
  [OpBegin 5; OpAdd 2 [1; 2]; OpEnd; OpBegin 2; OpEnd].
Definition example_flat_key : SkPaintParamsKey :=
  Key.mk [5; 4; 1; 2; 2; 2] true.
Definition example_flat_builder : SkPaintParamsKeyBuilder :=
  MkBuilder example_dict [5; 4; 1; 2; 2; 2] [] true 1%nat.

(** ** The mock render pass

    A shallow embedding of [src/gpu/mock/GrMockOpsRenderPass.h].  The
    overrides ignore all their arguments, so a call is modelled by its
    name alone.  The render target is kept as the texture it is, if it is
    one ([fRenderTarget->asTexture()]); [fGpu] is only handed back by
    [gpu()] and is left out.  [fNumDraws] is an [int] kept as a [Z]: a
    pass never comes near 2^31 draws. *)

(** [GrLoadOp] is declared outside this file; the pass only asks whether
    the colour load op is [kClear]. *)
Inductive GrLoadOp : Type := kLoad | kClear | kDiscard.

Definition GrLoadOp_eqb (a b : GrLoadOp) : bool :=
  match a, b with
  | kLoad, kLoad | kClear, kClear | kDiscard, kDiscard => true
  | _, _ => false
  end.

(** The calls a render pass receives. *)
Inductive MockCall : Type :=
| CallBegin
| CallInlineUpload
| CallBindPipeline
| CallSetScissorRect
| CallBindTextures
| CallBindBuffers
| CallDraw
| CallDrawIndexed
| CallDrawInstanced
| CallDrawIndexedInstanced
| CallDrawIndirect
| CallDrawIndexedIndirect
| CallClear
| CallClearStencilClip.

Definition is_draw (c : MockCall) : bool :=
  match c with
  | CallDraw | CallDrawIndexed | CallDrawInstanced | CallDrawIndexedInstanced
  | CallDrawIndirect | CallDrawIndexedIndirect => true
  | _ => false
  end.

Section MockPass.

(** The texture type and [GrTexture::markMipmapsDirty] are declared
    outside this file. *)
Variable GrTexture : Type.
Variable markMipmapsDirty : GrTexture -> GrTexture.

Record GrMockOpsRenderPass : Type := MkMockPass {
  fRenderTarget_asTexture : option GrTexture;
  fColorLoadOp : GrLoadOp;
  fNumDraws : Z
}.

(** The constructor: no draw seen yet. *)
Definition GrMockOpsRenderPass_new (rt : option GrTexture) (colorLoadOp : GrLoadOp)
  : GrMockOpsRenderPass :=
  MkMockPass rt colorLoadOp 0.

Definition numDraws (p : GrMockOpsRenderPass) : Z := fNumDraws p.

Definition markRenderTargetDirty (p : GrMockOpsRenderPass) : GrMockOpsRenderPass :=
  match fRenderTarget_asTexture p with
  | Some tex => MkMockPass (Some (markMipmapsDirty tex)) (fColorLoadOp p) (fNumDraws p)
  | None => p
  end.

Definition dummyDraw (p : GrMockOpsRenderPass) : GrMockOpsRenderPass :=
  let p := markRenderTargetDirty p in
  MkMockPass (fRenderTarget_asTexture p) (fColorLoadOp p) (fNumDraws p + 1).

Definition onBegin (p : GrMockOpsRenderPass) : GrMockOpsRenderPass :=
  if GrLoadOp_eqb kClear (fColorLoadOp p) then markRenderTargetDirty p else p.

Definition onBindPipeline (p : GrMockOpsRenderPass) : bool * GrMockOpsRenderPass :=
  (true, p).
Definition onBindTextures (p : GrMockOpsRenderPass) : bool * GrMockOpsRenderPass :=
  (true, p).
Definition onSetScissorRect (p : GrMockOpsRenderPass) : GrMockOpsRenderPass := p.
Definition onBindBuffers (p : GrMockOpsRenderPass) : GrMockOpsRenderPass := p.
Definition inlineUpload (p : GrMockOpsRenderPass) : GrMockOpsRenderPass := p.
Definition onClearStencilClip (p : GrMockOpsRenderPass) : GrMockOpsRenderPass := p.

Definition onDraw := dummyDraw.
Definition onDrawIndexed := dummyDraw.
Definition onDrawInstanced := dummyDraw.
Definition onDrawIndexedInstanced := dummyDraw.
Definition onDrawIndirect := dummyDraw.
Definition onDrawIndexedIndirect := dummyDraw.

Definition onClear (p : GrMockOpsRenderPass) : GrMockOpsRenderPass :=
  markRenderTargetDirty p.

Definition mock_call (c : MockCall) (p : GrMockOpsRenderPass) : GrMockOpsRenderPass :=
  match c with
  | CallBegin => onBegin p
  | CallInlineUpload => inlineUpload p
  | CallBindPipeline => (onBindPipeline p).2
  | CallSetScissorRect => onSetScissorRect p
  | CallBindTextures => (onBindTextures p).2
  | CallBindBuffers => onBindBuffers p
  | CallDraw => onDraw p
  | CallDrawIndexed => onDrawIndexed p
  | CallDrawInstanced => onDrawInstanced p
  | CallDrawIndexedInstanced => onDrawIndexedInstanced p
  | CallDrawIndirect => onDrawIndirect p
  | CallDrawIndexedIndirect => onDrawIndexedIndirect p
  | CallClear => onClear p
  | CallClearStencilClip => onClearStencilClip p
  end.

Definition mock_calls (cs : list MockCall) (p : GrMockOpsRenderPass)
  : GrMockOpsRenderPass :=
  foldl (fun p c => mock_call c p) p cs.

(** Whether a call marks the render target dirty. *)
Definition dirties (colorLoadOp : GrLoadOp) (c : MockCall) : bool :=
  match c with
  | CallBegin => GrLoadOp_eqb kClear colorLoadOp
  | CallClear => true
  | _ => is_draw c
  end.

End MockPass.

(** ** Walks that step by the stored size bytes

    The header offsets a decode walk reaches, in the order it reaches
    them, when the next sibling of a block is found solely by adding the
    block's stored size byte to the block's offset: the first child
    starts right after the parent's header, the first top-level block at
    offset 0, and the top-level walk goes on while it is inside the
    buffer. *)

(** [subtree_walk dict data off tr]: visiting the block at [off] reaches
    the headers [tr], the block's own first.
    [siblings_walk dict data start n off tr]: [n] siblings, the first at
    [start], were visited reaching [tr], and the next one starts at [off]. *)
Inductive subtree_walk (dict : SkShaderCodeDictionary) (data : list Z)
  : Z -> list Z -> Prop :=
| subtree_walk_block off id e stop tr :
    byte_at data off = Some id ->
    getEntry dict id = Some e ->
    siblings_walk dict data (off + kBlockHeaderSizeInBytes)
                  (Z.to_nat (fNumChildren e)) stop tr ->
    subtree_walk dict data off (off :: tr)
with siblings_walk (dict : SkShaderCodeDictionary) (data : list Z)
  : Z -> nat -> Z -> list Z -> Prop :=
| siblings_walk_start start :
    siblings_walk dict data start 0 start []
| siblings_walk_next start n off size tr tr1 :
    siblings_walk dict data start n off tr ->
    subtree_walk dict data off tr1 ->
    byte_at data (off + 1) = Some size ->
    siblings_walk dict data start (S n) (off + size) (tr ++ tr1).

(** [top_walk dict data n off tr]: the top-level walk has visited [n]
    blocks, each starting inside the buffer, reaching the headers [tr],
    and its next block starts at [off]. *)
Inductive top_walk (dict : SkShaderCodeDictionary) (data : list Z)
  : nat -> Z -> list Z -> Prop :=
| top_walk_start :
    top_walk dict data 0 0 []
| top_walk_next n off size tr tr1 :
    top_walk dict data n off tr ->
    off < Z.of_nat (length data) ->
    subtree_walk dict data off tr1 ->
    byte_at data (off + 1) = Some size ->
    top_walk dict data (S n) (off + size) (tr ++ tr1).

(** The walk over the whole buffer: it goes on until it has left the
    buffer. *)
Definition walk_by_stored_size (dict : SkShaderCodeDictionary) (data : list Z)
           (tr : list Z) : Prop :=
  exists n stop, top_walk dict data n stop tr /\ Z.of_nat (length data) <= stop.

(** [e] is the dictionary entry of the header at [off]. *)
Definition header_entry (dict : SkShaderCodeDictionary) (data : list Z)
           (off : Z) (e : SkShaderSnippet) : Prop :=
  exists id, byte_at data off = Some id /\ getEntry dict id = Some e.

(** The block lines of a dump: name and size printed with the format
    ["%s block (%dB)\n"], in order. *)
Definition block_lines (out : DebugOutput) : list (string * Z) :=
  flat_map (fun call : string * list SkDebugf_arg =>
              if String.eqb call.1 "%s block (%dB)\n" then
                match call.2 with
                | [ArgStr name; ArgInt size] => [(name, size)]
                | _ => []
                end
              else []) out.

(** [line] names the dictionary entry of the header at [off] and gives
    the header's stored size byte. *)
Definition header_line (dict : SkShaderCodeDictionary) (data : list Z)
           (off : Z) (line : string * Z) : Prop :=
  exists e, header_entry dict data off e
            /\ line.1 = fStaticFunctionName e
            /\ byte_at data (off + 1) = Some line.2.

(** If a dump computation started on [out] completes, its value and
    output satisfy [R]. *)
Definition dump_partial {A : Type} (m : Dump A) (out : DebugOutput)
           (R : A -> DebugOutput -> Prop) : Prop :=
  forall out' a, m out = (out', Ok a) -> R a out'.

(** * Proofs

    ** The builder *)

Ltac zbool :=
  repeat match goal with
  | |- context [?a >? ?b] => rewrite (Z.gtb_ltb a b)
  | |- context [?a <? ?b] => destruct (Z.ltb_spec a b); try lia
  | |- context [?a <=? ?b] => destruct (Z.leb_spec a b); try lia
  | |- context [?a =? ?b] => destruct (Z.eqb_spec a b); try lia
  end.

Lemma bind_Ok {A B} (x : A) (f : A -> Res B) : Ok x ≫= f = f x.
Proof. reflexivity. Qed.

Ltac monad_ok :=
  repeat (progress (change (Ok ?x ≫= ?f) with (f x); cbv beta));
  rewrite ?bind_Ok.

Section BuilderFacts.
Variable SK_DEBUG : bool.
Variable kError : Z.


Lemma SkASSERT_true : SkASSERT SK_DEBUG true = Ok tt.
Proof. unfold SkASSERT. by rewrite andb_false_r. Qed.

Lemma SkASSERT_holds c : (SK_DEBUG = true -> c = true) -> SkASSERT SK_DEBUG c = Ok tt.
Proof. unfold SkASSERT. destruct SK_DEBUG; simpl; [|done]. intros ->; done. Qed.

Lemma index_at_lookup {A} (l : list A) (i : nat) : index_at l (Z.of_nat i) = l !! i.
Proof. unfold index_at. zbool. by rewrite Nat2Z.id. Qed.

Lemma addBytes_body_ok mk dict d fr rest n data :
  0 <= n <= Z.of_nat (length data) ->
  (SK_DEBUG = true ->
   exists e, index_at (Frame.fDataPayloadExpectations fr) (Frame.fCurDataPayloadEntry fr) = Some e
             /\ fCount e = n) ->
  addBytes_body SK_DEBUG mk n data (MkBuilder dict d (fr :: rest) true 0%nat)
  = Ok (MkBuilder dict (d ++ take (Z.to_nat n) data)
          ((if SK_DEBUG then
              Frame.mk (Frame.fCodeSnippetID fr) (Frame.fHeaderOffset fr)
                       (Frame.fDataPayloadExpectations fr)
                       (Frame.fCurDataPayloadEntry fr + 1)
            else fr) :: rest) true 0%nat).
Proof.
  intros Hn Hd. unfold addBytes_body. simpl.
  destruct SK_DEBUG; simpl.
  - destruct Hd as (e & He & Hc); [done|].
    rewrite He. unfold SkASSERT. simpl.
    assert (Hlt : (Frame.fCurDataPayloadEntry fr <? Z.of_nat (length (Frame.fDataPayloadExpectations fr))) = true).
    { unfold index_at in He. apply Z.ltb_lt.
      destruct (Frame.fCurDataPayloadEntry fr <? 0) eqn:E; [done|].
      apply lookup_lt_Some in He. apply Z.ltb_ge in E. lia. }
    rewrite Hlt. destruct (fType e). simpl. rewrite Hc, Z.eqb_refl. simpl.
    zbool. done.
  - zbool. done.
Qed.

Lemma beginBlock_body_ok mk dict d st id exps :
  0 <= id <= maxCodeSnippetID dict ->
  (SK_DEBUG = true ->
     0 <= id < 256 /\
     (exists e, getEntry dict id = Some e /\ fDataPayloadExpectations e = exps) /\
     match st with [] => True | back :: _ => Frame.fCurDataPayloadEntry back = 0 end) ->
  beginBlock_body SK_DEBUG mk id (MkBuilder dict d st true 0%nat)
  = Ok (MkBuilder dict (d ++ [id mod 256; 0])
          (frame_of SK_DEBUG id (Z.of_nat (length d)) exps 0 :: st) true 0%nat).
Proof.
  intros Hr Hd. unfold beginBlock_body, frame_of. simpl.
  zbool. simpl.
  destruct SK_DEBUG; simpl.
  - destruct Hd as (H8 & (e & He & Hx) & Hb); [done|].
    assert (E1 : (match st with [] => Ok tt | back :: _ => SkASSERT true (Frame.fCurDataPayloadEntry back =? 0) end) = Ok tt).
    { destruct st; [done|]. rewrite Hb. done. }
    rewrite E1. simpl. unfold SkTo_uint8, SkASSERT. simpl. zbool. simpl.
    unfold addByte_body, addBytes_body. simpl.
    unfold dataPayloadExpectations. simpl. rewrite He. simpl.
    rewrite Hx. rewrite <- app_assoc. done.
  - unfold addByte_body, addBytes_body. simpl. rewrite <- app_assoc. done.
Qed.


Lemma endBlock_body_ok mk dict d fr rest :
  let h := Frame.fHeaderOffset fr in
  0 <= h -> h + 1 < Z.of_nat (length d) ->
  Z.of_nat (length d) - h <= kMaxBlockSize ->
  (SK_DEBUG = true -> endBlock_checks (MkBuilder dict d (fr :: rest) true 0%nat) = true) ->
  endBlock_body SK_DEBUG mk (MkBuilder dict d (fr :: rest) true 0%nat)
  = Ok (MkBuilder dict (<[Z.to_nat (h + 1) := Z.of_nat (length d) - h]> d) rest true 0%nat).
Proof.
  intros h H0 H1 H2 Hd. unfold endBlock_body, write_byte, sizeInBytes, kBlockSizeOffsetInBytes in *.
  simpl. fold h. unfold kMaxBlockSize in *.
  destruct SK_DEBUG; simpl.
  - specialize (Hd eq_refl). unfold endBlock_checks in Hd. simpl in Hd. fold h in Hd.
    unfold kBlockSizeOffsetInBytes in Hd.
    apply andb_prop in Hd as [Hd Hd4]. apply andb_prop in Hd as [Hd Hd3].
    apply andb_prop in Hd as [Hd1 Hd2].
    unfold SkASSERT. simpl. rewrite Hd1, Hd2, Hd3. simpl.
    zbool. simpl. rewrite Z.mod_small by lia.
    destruct rest; [done|]. rewrite Hd4. done.
  - zbool. simpl. rewrite Z.mod_small by lia. done.
Qed.

Lemma endBlock_body_too_large mk dict d fr rest :
  let h := Frame.fHeaderOffset fr in
  kMaxBlockSize < Z.of_nat (length d) - h ->
  (SK_DEBUG = true -> endBlock_checks (MkBuilder dict d (fr :: rest) true 0%nat) = true) ->
  endBlock_body SK_DEBUG mk (MkBuilder dict d (fr :: rest) true 0%nat)
  = mk (MkBuilder dict d (fr :: rest) true 0%nat).
Proof.
  intros h H2 Hd. unfold endBlock_body, sizeInBytes, kBlockSizeOffsetInBytes in *.
  simpl. fold h. unfold kMaxBlockSize in *.
  destruct SK_DEBUG; simpl.
  - specialize (Hd eq_refl). unfold endBlock_checks in Hd. simpl in Hd. fold h in Hd.
    unfold kBlockSizeOffsetInBytes in Hd.
    apply andb_prop in Hd as [Hd Hd4]. apply andb_prop in Hd as [Hd Hd3].
    apply andb_prop in Hd as [Hd1 Hd2].
    unfold SkASSERT. simpl. rewrite Hd1, Hd2, Hd3. simpl.
    zbool. done.
  - zbool. done.
Qed.

Lemma makeInvalid_poisons fuel b :
  error_snippet_ok SK_DEBUG kError (fDict b) ->
  fIsValid b = true -> fLockCount b = 0%nat ->
  makeInvalid SK_DEBUG kError (S fuel) b = Ok (poisoned kError b).
Proof.
  intros (Hr & H8 & Hd) Hv Hl. destruct b as [dict d st v lk]. simpl in *. subst.
  rewrite SkASSERT_true. simpl. rewrite SkASSERT_true. simpl.
  unfold set_fData, set_fStack. simpl.
  rewrite (beginBlock_body_ok _ _ _ _ _ []); [|done|].
  2:{ intros Hdbg. destruct (Hd Hdbg) as (e & He & Hx). split; [lia|]. split; [eauto|done]. }
  simpl. rewrite endBlock_body_ok; simpl; unfold kMaxBlockSize; try lia.
  2:{ intros Hdbg. unfold endBlock_checks, frame_of. simpl. rewrite Hdbg. simpl.
      rewrite Z.mod_small by lia. rewrite Z.eqb_refl. done. }
  simpl. rewrite SkASSERT_true. simpl. unfold poisoned, set_fIsValid. simpl.
  rewrite Z.mod_small by lia. done.
Qed.

Lemma invalid_noop fuel op b :
  fIsValid b = false -> run_op SK_DEBUG kError fuel op b = Ok b.
Proof.
  intros Hv. destruct op; simpl;
    unfold beginBlock, beginBlock_body, addBytes, addBytes_body, endBlock, endBlock_body, isValid;
    rewrite Hv; done.
Qed.

Lemma invalid_noop_ops fuel ops b :
  fIsValid b = false -> run_ops SK_DEBUG kError fuel ops b = Ok b.
Proof.
  intros Hv. induction ops as [|op ops IH]; simpl; [done|].
  rewrite invalid_noop by done. simpl. done.
Qed.



Lemma addBytes_body_same mk n data b b' :
  addBytes_body SK_DEBUG mk n data b = Ok b' ->
  fStack b <> [] -> same_mode b b' /\ fStack b' <> [].
Proof.
  intros H Hs. unfold addBytes_body, isValid, SkASSERT, update_back in H.
  destruct b as [dict d st v lk]. simpl in *.
  destruct st as [|fr rest]; [done|].
  unfold mbind, Res_bind, same_mode in *.
  destruct SK_DEBUG, v; simpl in *; repeat case_match; simplify_eq/=; done.
Qed.

Lemma bind_Ok_inv {A B} (m : Res A) (k : A -> Res B) y :
  m ≫= k = Ok y -> exists x, m = Ok x /\ k x = Ok y.
Proof. destruct m as [x|f]; simpl; [eauto | done]. Qed.

Lemma update_back_same f b : same_mode b (update_back f b).
Proof. unfold update_back, same_mode. destruct (fStack b); done. Qed.

Lemma same_mode_trans b1 b2 b3 :
  same_mode b1 b2 -> same_mode b2 b3 -> same_mode b1 b3.
Proof. unfold same_mode. intuition congruence. Qed.

Lemma beginBlock_body_cases mk id b b' :
  beginBlock_body SK_DEBUG mk id b = Ok b' ->
  b' = b \/ mk b = Ok b' \/ same_mode b b'.
Proof.
  intros H. unfold beginBlock_body, isValid in H.
  destruct (fIsValid b) eqn:Hv; simpl in H; [|left; congruence].
  destruct (_ || _); [by right; left|]. right; right.
  apply bind_Ok_inv in H as (_ & _ & H).
  apply bind_Ok_inv in H as (_ & _ & H).
  apply bind_Ok_inv in H as (id8 & _ & H).
  apply bind_Ok_inv in H as (b1 & H1 & H).
  apply bind_Ok_inv in H as (b2 & H2 & H).
  apply addBytes_body_same in H1 as [S1 N1]; [|done].
  apply addBytes_body_same in H2 as [S2 N2]; [|done].
  assert (S0 : same_mode b b2).
  { eapply same_mode_trans; [|exact S2]. eapply same_mode_trans; [|exact S1].
    unfold same_mode. done. }
  destruct SK_DEBUG.
  - apply bind_Ok_inv in H as (exps & _ & H). injection H as <-.
    eapply same_mode_trans; [exact S0 | apply update_back_same].
  - by injection H as <-.
Qed.

Lemma endBlock_body_cases mk b b' :
  endBlock_body SK_DEBUG mk b = Ok b' ->
  b' = b \/ mk b = Ok b' \/ same_mode b b'.
Proof.
  intros H. unfold endBlock_body, isValid in H.
  destruct (fIsValid b) eqn:Hv; simpl in H; [|left; congruence].
  destruct (fStack b) as [|fr rest] eqn:Hs; [by right; left|].
  apply bind_Ok_inv in H as (_ & _ & H).
  apply bind_Ok_inv in H as (_ & _ & H).
  apply bind_Ok_inv in H as (_ & _ & H).
  apply bind_Ok_inv in H as (_ & _ & H).
  destruct (_ >? _); [by right; left|]. right; right.
  apply bind_Ok_inv in H as (d & _ & H).
  apply bind_Ok_inv in H as (_ & _ & H).
  injection H as <-. unfold same_mode. done.
Qed.

Lemma addBytes_body_cases mk n data b b' :
  addBytes_body SK_DEBUG mk n data b = Ok b' ->
  b' = b \/ mk b = Ok b' \/ same_mode b b'.
Proof.
  intros H. destruct (fIsValid b) eqn:Hv.
  - destruct (fStack b) eqn:Hs.
    + unfold addBytes_body, isValid in H. rewrite Hv, Hs in H. simpl in H. by right; left.
    + apply addBytes_body_same in H as [? ?]; [|congruence]. by right; right.
  - unfold addBytes_body, isValid in H. rewrite Hv in H. simpl in H. left; congruence.
Qed.

Lemma run_op_cases fuel op b b' :
  run_op SK_DEBUG kError fuel op b = Ok b' ->
  b' = b \/ makeInvalid SK_DEBUG kError fuel b = Ok b' \/ same_mode b b'.
Proof.
  destruct op; simpl; intros H.
  - by apply beginBlock_body_cases in H.
  - by apply addBytes_body_cases in H.
  - by apply endBlock_body_cases in H.
Qed.

Lemma makeInvalid_inv fuel b b' :
  error_snippet_ok SK_DEBUG kError (fDict b) ->
  fIsValid b = true -> fLockCount b = 0%nat ->
  makeInvalid SK_DEBUG kError fuel b = Ok b' -> b' = poisoned kError b.
Proof.
  intros He Hv Hl H. destruct fuel; [done|].
  rewrite makeInvalid_poisons in H by done. congruence.
Qed.

Lemma run_op_inv fuel op b b' :
  error_snippet_ok SK_DEBUG kError (fDict b) ->
  builder_inv kError b ->
  run_op SK_DEBUG kError fuel op b = Ok b' ->
  builder_inv kError b' /\ fDict b' = fDict b.
Proof.
  intros He [Hl Hi] H.
  destruct (fIsValid b) eqn:Hv.
  2:{ rewrite invalid_noop in H by done. injection H as <-. unfold builder_inv. auto. }
  apply run_op_cases in H as [-> | [H | (H1 & H2 & H3)]].
  - split; [split; [done|]; rewrite Hv; done | done].
  - apply makeInvalid_inv in H; [|done..]. subst b'. unfold builder_inv, poisoned. simpl. auto.
  - split; [|done]. split; [congruence|]. rewrite H1, Hv. done.
Qed.

Lemma run_ops_inv fuel ops b b' :
  error_snippet_ok SK_DEBUG kError (fDict b) ->
  builder_inv kError b ->
  run_ops SK_DEBUG kError fuel ops b = Ok b' ->
  builder_inv kError b' /\ fDict b' = fDict b.
Proof.
  revert b. induction ops as [|op ops IH]; simpl; intros b He Hi H.
  - injection H as <-. auto.
  - destruct (run_op _ _ _ _ _) as [b1|] eqn:E; [|done]. simpl in H.
    apply run_op_inv in E as [Hi1 Hd1]; [|done..].
    apply IH in H as [? ?]; [|by rewrite Hd1|done]. split; [done|congruence].
Qed.

Lemma builder_inv_new dict : builder_inv kError (SkPaintParamsKeyBuilder_new dict).
Proof. split; [done|]. simpl. done. Qed.

Lemma lockAsKey_invalid fuel b :
  builder_inv kError b -> fIsValid b = false ->
  lockAsKey SK_DEBUG kError fuel b
  = Ok (error_key kError, MkBuilder (fDict b) [kError; 2] [] true 1%nat).
Proof.
  intros [Hl Hi] Hv. destruct (Hi Hv) as [Hd Hs].
  unfold lockAsKey. rewrite Hs. simpl.
  unfold isLocked. rewrite Hl. simpl. rewrite SkASSERT_true. simpl.
  unfold lock, set_fLockCount, error_key. simpl. rewrite Hd, Hl. done.
Qed.

Lemma lockAsKey_open fuel b :
  error_snippet_ok SK_DEBUG kError (fDict b) ->
  fIsValid b = true -> fLockCount b = 0%nat -> fStack b <> [] ->
  lockAsKey SK_DEBUG kError (S fuel) b
  = Ok (error_key kError, MkBuilder (fDict b) [kError; 2] [] true 1%nat).
Proof.
  intros He Hv Hl Hs. unfold lockAsKey.
  destruct (fStack b) eqn:E; [done|].
  rewrite makeInvalid_poisons by done. simpl.
  unfold isLocked. simpl. rewrite Hl. simpl. rewrite SkASSERT_true. simpl.
  unfold lock, set_fLockCount, error_key. simpl. rewrite Hl. done.
Qed.

End BuilderFacts.

(** ** Building a conforming forest *)

Lemma Block_ind' (P : Block -> Prop) :
  (forall id ch pl, Forall P ch -> P (MkBlock id ch pl)) -> forall blk, P blk.
Proof.
  intros H. fix IH 1. intros [id ch pl]. apply H.
  induction ch as [|c ch IHch]; constructor; [apply IH | exact IHch].
Qed.

Lemma sumZ_app l1 l2 : sumZ (l1 ++ l2) = sumZ l1 + sumZ l2.
Proof. unfold sumZ. induction l1; simpl; lia. Qed.

Lemma length_concat_Z {A} (ls : list (list A)) :
  Z.of_nat (length (concat ls)) = sumZ (map (fun l => Z.of_nat (length l)) ls).
Proof.
  induction ls as [|l ls IH]; simpl; [done|].
  rewrite length_app. unfold sumZ in *. simpl. lia.
Qed.

Lemma encode_length blk : Z.of_nat (length (encode blk)) = Block_size blk.
Proof.
  induction blk as [id ch pl IH] using Block_ind'.
  cbn [encode Block_size]. cbn [app length].
  rewrite length_app, !Nat2Z.inj_succ, Nat2Z.inj_add, !length_concat_Z.
  rewrite map_map. fold (field_sizes pl).
  assert (E : map (fun x => Z.of_nat (length (encode x))) ch = map Block_size ch).
  { induction IH as [|c ch Hc _ IHch]; simpl; [done|]. by rewrite Hc, IHch. }
  rewrite E. simpl. lia.
Qed.

Lemma sumZ_nonneg_sizes pl : 0 <= sumZ (field_sizes pl).
Proof. unfold sumZ, field_sizes. induction pl; simpl; lia. Qed.

Lemma Block_size_ge_2 blk : 2 <= Block_size blk.
Proof.
  induction blk as [id ch pl IH] using Block_ind'. cbn [Block_size].
  pose proof (sumZ_nonneg_sizes pl).
  assert (0 <= sumZ (map Block_size ch)).
  { induction IH as [|c ch Hc _ IHch]; unfold sumZ in *; simpl; lia. }
  lia.
Qed.

Section Build.
Variable SK_DEBUG : bool.
Variable kError : Z.

Lemma run_ops_app fuel o1 o2 b :
  run_ops SK_DEBUG kError fuel (o1 ++ o2) b
  = run_ops SK_DEBUG kError fuel o1 b ≫= run_ops SK_DEBUG kError fuel o2.
Proof.
  revert b. induction o1 as [|op o1 IH]; intros b; simpl; [done|].
  destruct (run_op _ _ _ _ _); simpl; [apply IH | done].
Qed.


Lemma payload_ok fuel dict id h E rest pl : forall d c,
  0 <= c ->
  (SK_DEBUG = true -> map fCount (drop (Z.to_nat c) E) = field_sizes pl) ->
  run_ops SK_DEBUG kError fuel (map (fun p => OpAdd (Z.of_nat (length p)) p) pl)
          (MkBuilder dict d (frame_of SK_DEBUG id h E c :: rest) true 0%nat)
  = Ok (MkBuilder dict (d ++ concat pl)
          (frame_of SK_DEBUG id h E (c + Z.of_nat (length pl)) :: rest) true 0%nat).
Proof.
  induction pl as [|p pl IH]; intros d c Hc Hd; simpl.
  - rewrite app_nil_r, Z.add_0_r. done.
  - unfold addBytes. rewrite addBytes_body_ok; [|lia|].
    2:{ intros Hdbg. specialize (Hd Hdbg). unfold frame_of. rewrite Hdbg. simpl.
        destruct (drop (Z.to_nat c) E) as [|e E'] eqn:HE; [done|].
        simpl in Hd. injection Hd as Hd1 Hd2. exists e. split; [|done].
        unfold index_at. destruct (Z.ltb_spec c 0); [lia|].
        rewrite <- (Nat.add_0_r (Z.to_nat c)), <- lookup_drop, HE. done. }
    assert (Hfr : (if SK_DEBUG
        then Frame.mk (Frame.fCodeSnippetID (frame_of SK_DEBUG id h E c))
               (Frame.fHeaderOffset (frame_of SK_DEBUG id h E c))
               (Frame.fDataPayloadExpectations (frame_of SK_DEBUG id h E c))
               (Frame.fCurDataPayloadEntry (frame_of SK_DEBUG id h E c) + 1)
        else frame_of SK_DEBUG id h E c) = frame_of SK_DEBUG id h E (c + 1)).
    { unfold frame_of. destruct SK_DEBUG; done. }
    rewrite Hfr. change (Ok ?x ≫= ?f) with (f x). rewrite Nat2Z.id, firstn_all.
    rewrite IH; [|lia|].
    + rewrite <- app_assoc.
      replace (c + 1 + Z.of_nat (length pl)) with (c + Z.of_nat (S (length pl))) by lia.
      done.
    + intros Hdbg. specialize (Hd Hdbg).
      replace (Z.to_nat (c + 1)) with (Z.to_nat c + 1)%nat by lia.
      rewrite <- drop_drop.
      destruct (drop (Z.to_nat c) E) as [|e E'] eqn:HE; [done|].
      simpl in Hd. injection Hd as Hd1 Hd2.
      rewrite <- Hd2. done.
Qed.


Lemma insert_size_byte (d : list Z) (id z size : Z) (X : list Z) :
  <[Z.to_nat (Z.of_nat (length d) + 1) := size]> (d ++ [id; z] ++ X)
  = d ++ [id; size] ++ X.
Proof.
  replace (Z.to_nat (Z.of_nat (length d) + 1)) with (length d + 1)%nat by lia.
  rewrite insert_app_r. done.
Qed.

Lemma build_block_ok fuel dict blk :
  conforms dict blk ->
  forall d st, top_clear SK_DEBUG st ->
  run_ops SK_DEBUG kError fuel (build_ops blk) (MkBuilder dict d st true 0%nat)
  = Ok (MkBuilder dict (d ++ encode blk) st true 0%nat).
Proof.
  induction blk as [id ch pl IH] using Block_ind'.
  intros Hc d st Htop. inversion Hc as [id' ch' pl' e Hr H8 He Hn Hp Hsz Hch]; subst.
  cbn [build_ops run_ops run_op]. unfold beginBlock.
  rewrite (beginBlock_body_ok _ _ _ _ _ _ (fDataPayloadExpectations e)); [|done|].
  2:{ intros Hdbg. split; [lia|]. split; [eauto|]. by apply Htop. }
  change (Ok ?x ≫= ?f) with (f x).
  rewrite Z.mod_small by lia.
  rewrite run_ops_app.
  assert (Hkids : forall d0 fr,
            (SK_DEBUG = true -> Frame.fCurDataPayloadEntry fr = 0) ->
            run_ops SK_DEBUG kError fuel (concat (map build_ops ch))
                    (MkBuilder dict d0 (fr :: st) true 0%nat)
            = Ok (MkBuilder dict (d0 ++ concat (map encode ch)) (fr :: st) true 0%nat)).
  { clear - IH Hch. intros d0 fr Hfr. revert d0.
    induction Hch as [|c ch Hc Hch IHch]; intros d0; simpl.
    - by rewrite app_nil_r.
    - apply Forall_cons in IH as [IHc IH].
      rewrite run_ops_app, IHc; [|done|done].
      change (Ok ?x ≫= ?f) with (f x). rewrite IHch by done.
      by rewrite <- app_assoc. }
  rewrite Hkids.
  2:{ unfold frame_of. intros ->. done. }
  change (Ok ?x ≫= ?f) with (f x).
  rewrite run_ops_app, payload_ok; [|lia|].
  2:{ intros _. simpl. done. }
  change (Ok ?x ≫= ?f) with (f x). cbn [run_ops run_op]. unfold endBlock.
  pose proof (encode_length (MkBlock id ch pl)) as HL.
  cbn [encode] in HL. rewrite length_app in HL.
  set (X := concat (map encode ch) ++ concat pl) in *.
  assert (HD : ((d ++ [id; 0]) ++ concat (map encode ch)) ++ concat pl
               = d ++ [id; 0] ++ X).
  { unfold X. by rewrite <- !app_assoc. }
  rewrite HD.
  assert (HLen : Z.of_nat (length (d ++ [id; 0] ++ X))
                 = Z.of_nat (length d) + Block_size (MkBlock id ch pl)).
  { rewrite !length_app. simpl in *. lia. }
  pose proof (Block_size_ge_2 (MkBlock id ch pl)) as Hge.
  rewrite endBlock_body_ok.
  - change (Ok ?x ≫= ?f) with (f x). cbn [run_ops].
    replace (Frame.fHeaderOffset (frame_of SK_DEBUG id (Z.of_nat (length d))
               (fDataPayloadExpectations e) (0 + Z.of_nat (length pl))))
      with (Z.of_nat (length d)) by done.
    rewrite HLen.
    replace (Z.of_nat (length d) + Block_size (MkBlock id ch pl) - Z.of_nat (length d))
      with (Block_size (MkBlock id ch pl)) by lia.
    rewrite insert_size_byte. cbn [encode]. done.
  - cbn [Frame.fHeaderOffset frame_of]. lia.
  - cbn [Frame.fHeaderOffset frame_of]. rewrite HLen. lia.
  - cbn [Frame.fHeaderOffset frame_of]. rewrite HLen. lia.
  - intros Hdbg. unfold endBlock_checks, frame_of. rewrite Hdbg. cbn -[Z.of_nat X].
    apply (f_equal (@length _)) in Hp. rewrite !length_map in Hp. unfold field_sizes in Hp.
    rewrite length_map in Hp. rewrite Hp, Z.eqb_refl.
    unfold byte_at, kBlockSizeOffsetInBytes. rewrite index_at_lookup.
    rewrite lookup_app_r by lia. rewrite Nat.sub_diag. cbn -[Z.of_nat X].
    rewrite Z.eqb_refl.
    replace (Z.of_nat (length d) + 1) with (Z.of_nat (length d + 1)) by lia.
    rewrite index_at_lookup, lookup_app_r by lia.
    replace (length d + 1 - length d)%nat with 1%nat by lia. cbn -[Z.of_nat X].
    specialize (Htop Hdbg). destruct st; [done|]. rewrite Htop. done.
Qed.

Lemma build_forest_ok fuel dict f :
  Forall (conforms dict) f ->
  forall d, run_ops SK_DEBUG kError fuel (build_forest_ops f) (MkBuilder dict d [] true 0%nat)
  = Ok (MkBuilder dict (d ++ encode_forest f) [] true 0%nat).
Proof.
  unfold build_forest_ops, encode_forest.
  induction 1 as [|blk f Hb Hf IH]; intros d; simpl.
  - by rewrite app_nil_r.
  - rewrite run_ops_app, build_block_ok; [|done|done].
    change (Ok ?x ≫= ?f) with (f x). rewrite IH. by rewrite <- app_assoc.
Qed.

Lemma lockAsKey_closed fuel dict d :
  lockAsKey SK_DEBUG kError fuel (MkBuilder dict d [] true 0%nat)
  = Ok (Key.mk d true, MkBuilder dict d [] true 1%nat).
Proof.
  unfold lockAsKey. simpl. unfold isLocked. simpl. rewrite SkASSERT_true. done.
Qed.

End Build.

(** ** Decoding a conforming forest *)

Lemma visit_result_app dict kd ids1 ids2 r :
  visit_result dict kd (ids1 ++ ids2) r
  = visit_result dict kd ids2 (visit_result dict kd ids1 r).
Proof.
  unfold visit_result, entries_of. simpl.
  rewrite omap_app, existsb_app, app_assoc, orb_assoc. done.
Qed.

Lemma visit_result_nil dict kd r : visit_result dict kd [] r = r.
Proof.
  unfold visit_result, entries_of. destruct r. simpl.
  by rewrite app_nil_r, orb_false_r.
Qed.

Lemma preorder_ids_cons blk f :
  preorder_ids (blk :: f) = preorder_ids [blk] ++ preorder_ids f.
Proof.
  unfold preorder_ids, preorder_forest. simpl. rewrite app_nil_r, map_app. done.
Qed.

Lemma preorder_ids_block id ch pl :
  preorder_ids [MkBlock id ch pl] = id :: preorder_ids ch.
Proof.
  unfold preorder_ids, preorder_forest. simpl. rewrite app_nil_r. done.
Qed.

Lemma Key_byte_at flag pre x post :
  Key_byte (Key.mk (pre ++ x :: post) flag) (Z.of_nat (length pre)) = Ok x.
Proof.
  unfold Key_byte, byte_at. rewrite index_at_lookup. simpl.
  rewrite lookup_app_r by lia. rewrite Nat.sub_diag. done.
Qed.

Section Decode.
Variable SK_DEBUG : bool.
Variable kDepthStencilOnlyDraw : Z.


Lemma children_loop dict fuel hend flag cs :
  Forall (decodes SK_DEBUG kDepthStencilOnlyDraw dict fuel) cs ->
  forall P Q r i,
  Z.of_nat (length P) + sumZ (map Block_size cs) <= hend ->
  for_loop (length cs) i
    (fun _ (st : Z * SkShaderInfo) =>
       SkASSERT SK_DEBUG (st.1 <? hend);;
       r ← AddBlockToShaderInfo SK_DEBUG kDepthStencilOnlyDraw fuel dict (Key.mk (P ++ concat (map encode cs) ++ Q) flag) st.1 st.2;
       Ok (st.1 + r.1, r.2))
    (Z.of_nat (length P), r)
  = Ok (Z.of_nat (length P) + sumZ (map Block_size cs),
        visit_result dict kDepthStencilOnlyDraw (preorder_ids cs) r).
Proof.
  induction 1 as [|c cs Hc Hcs IH]; intros P Q r i Hend.
  - simpl. rewrite visit_result_nil, Z.add_0_r. done.
  - cbn [length for_loop map concat]. cbn [fst snd].
    unfold sumZ in Hend. cbn [map foldr] in Hend. fold (sumZ (map Block_size cs)) in Hend.
    pose proof (Block_size_ge_2 c) as Hge.
    assert (0 <= sumZ (map Block_size cs)).
    { clear. induction cs as [|x cs IH]; unfold sumZ in *; simpl; [lia|].
      pose proof (Block_size_ge_2 x). lia. }
    rewrite SkASSERT_holds.
    2:{ intros _. apply Z.ltb_lt. lia. }
    change (Ok ?x ≫= ?f) with (f x). cbv beta.
    rewrite <- (app_assoc (encode c)).
    rewrite Hc. change (Ok ?x ≫= ?f) with (f x). cbn [fst snd].
    pose proof (encode_length c) as HL.
    replace (Z.of_nat (length P) + Block_size c) with (Z.of_nat (length (P ++ encode c)))
      by (rewrite length_app; lia).
    specialize (IH (P ++ encode c) Q (visit_result dict kDepthStencilOnlyDraw (preorder_ids [c]) r) (i + 1)).
    rewrite <- !app_assoc in IH. change (Ok ?x ≫= ?f) with (f x). cbv beta. rewrite IH.
    + rewrite length_app, (preorder_ids_cons c cs), visit_result_app.
      unfold sumZ. cbn [map foldr]. f_equal. f_equal. lia.
    + rewrite length_app. lia.
Qed.

Lemma decode_block dict blk :
  conforms dict blk ->
  forall fuel, (Block_depth blk <= fuel)%nat -> decodes SK_DEBUG kDepthStencilOnlyDraw dict fuel blk.
Proof.
  induction blk as [id ch pl IH] using Block_ind'.
  intros Hc fuel Hfuel flag pre post r.
  inversion Hc as [id' ch' pl' e Hr H8 He Hn Hp Hsz Hch]; subst.
  cbn [Block_depth] in Hfuel. destruct fuel as [|fuel]; [lia|].
  cbn [AddBlockToShaderInfo]. unfold readCodeSnippetID.
  cbn [encode]. rewrite <- !app_assoc. cbn [app].
  rewrite Key_byte_at. change (Ok ?x ≫= ?f) with (f x). cbv beta.
  unfold kBlockSizeOffsetInBytes.
  replace (Z.of_nat (length pre) + 1) with (Z.of_nat (length (pre ++ [id]))) 
    by (rewrite length_app; simpl; lia).
  replace (pre ++ id :: Block_size (MkBlock id ch pl) :: concat (map encode ch) ++ concat pl ++ post)
    with ((pre ++ [id]) ++ Block_size (MkBlock id ch pl) :: concat (map encode ch) ++ concat pl ++ post)
    by (rewrite <- app_assoc; done).
  rewrite Key_byte_at. change (Ok ?x ≫= ?f) with (f x). cbv beta. cbn [fst snd].
  change (Ok ?x ≫= ?f) with (f x). cbv beta. cbn [fst snd].
  rewrite He. rewrite Hn, Nat2Z.id.
  unfold kBlockHeaderSizeInBytes.
  replace (Z.of_nat (length (pre ++ [id]))) with (Z.of_nat (length pre) + 1)
    by (rewrite length_app; simpl; lia).
  replace ((pre ++ [id]) ++ Block_size (MkBlock id ch pl) :: concat (map encode ch) ++ concat pl ++ post)
    with ((pre ++ [id; Block_size (MkBlock id ch pl)]) ++ concat (map encode ch) ++ (concat pl ++ post))
    by (rewrite <- !app_assoc; done).
  replace (Z.of_nat (length pre) + 2) with (Z.of_nat (length (pre ++ [id; Block_size (MkBlock id ch pl)])))
    by (rewrite length_app; simpl; lia).
  rewrite (children_loop dict fuel).
  - change (Ok ?x ≫= ?f) with (f x). cbv beta. cbn [fst snd].
    rewrite preorder_ids_block. f_equal. f_equal.
    unfold visit_result, add, setWritesColor, entries_of. cbn [omap fEntries fWritesColor existsb].
    change (list_omap Z SkShaderSnippet (getEntry dict) (id :: preorder_ids ch))
      with (match getEntry dict id with
            | Some y => y :: omap (getEntry dict) (preorder_ids ch)
            | None => omap (getEntry dict) (preorder_ids ch)
            end).
    rewrite He, <- app_assoc. cbn [app].
    destruct (id =? kDepthStencilOnlyDraw); cbn [negb orb]; [done|].
    by rewrite orb_true_r.
  - clear - IH Hch Hfuel.
    induction Hch as [|c cs Hc Hcs IHcs]; constructor.
    + apply Forall_cons in IH as [IHc _]. apply IHc; [done|]. simpl in Hfuel. lia.
    + apply IHcs; [by apply Forall_cons in IH as [_ ?]|]. simpl in Hfuel. lia.
  - rewrite length_app. cbn [length Block_size] in *.
    pose proof (sumZ_nonneg_sizes pl). lia.
Qed.


Lemma toShaderInfo_loop_forest dict depth flag f :
  Forall (conforms dict) f ->
  Forall (fun blk => (Block_depth blk <= depth)%nat) f ->
  forall fuel pre r, (length f <= fuel)%nat ->
  toShaderInfo_loop SK_DEBUG kDepthStencilOnlyDraw fuel depth dict
                    (Key.mk (pre ++ encode_forest f) flag) (Z.of_nat (length pre)) r
  = Ok (visit_result dict kDepthStencilOnlyDraw (preorder_ids f) r).
Proof.
  induction 1 as [|blk f Hb Hf IH]; intros Hd fuel pre r Hfuel.
  - unfold encode_forest. simpl. rewrite app_nil_r.
    destruct fuel; simpl; unfold Key_sizeInBytes; simpl;
      rewrite Z.ltb_irrefl, visit_result_nil; done.
  - apply Forall_cons in Hd as [Hd1 Hd2].
    destruct fuel as [|fuel]; [simpl in Hfuel; lia|].
    cbn [toShaderInfo_loop]. unfold Key_sizeInBytes. cbn [Key.fData].
    unfold encode_forest. cbn [map concat]. fold (encode_forest f).
    pose proof (encode_length blk) as HL. pose proof (Block_size_ge_2 blk) as Hge.
    assert (Hlt : (Z.of_nat (length pre) <? Z.of_nat (length (pre ++ encode blk ++ encode_forest f))) = true).
    { apply Z.ltb_lt. rewrite !length_app. lia. }
    rewrite Hlt.
    rewrite (decode_block dict blk Hb depth Hd1).
    change (Ok ?x ≫= ?f) with (f x). cbv beta. cbn [fst snd].
    replace (Z.of_nat (length pre) + Block_size blk) with (Z.of_nat (length (pre ++ encode blk)))
      by (rewrite length_app; lia).
    specialize (IH Hd2 fuel (pre ++ encode blk)). rewrite <- app_assoc in IH.
    rewrite IH by (simpl in Hfuel; lia).
    rewrite (preorder_ids_cons blk f), visit_result_app. done.
Qed.

End Decode.

Lemma foldr_max_le (l : list nat) (n : nat) :
  Forall (fun x => (x <= n)%nat) l -> (foldr Nat.max 0 l <= n)%nat.
Proof. induction 1; simpl; lia. Qed.

Lemma Block_depth_le_encode blk : (Block_depth blk <= length (encode blk))%nat.
Proof.
  induction blk as [id ch pl IH] using Block_ind'.
  cbn [Block_depth encode]. rewrite length_app. cbn [length].
  rewrite length_app.
  assert (foldr Nat.max 0 (map Block_depth ch) <= length (concat (map encode ch)))%nat; [|lia].
  induction IH as [|c cs Hc Hcs IHcs]; simpl; [lia|].
  rewrite length_app. lia.
Qed.

Lemma forest_depth_le f :
  Forall (fun blk => (Block_depth blk <= length (encode_forest f))%nat) f.
Proof.
  unfold encode_forest. induction f as [|blk f IH]; constructor.
  - simpl. rewrite length_app. pose proof (Block_depth_le_encode blk). lia.
  - simpl. rewrite length_app. eapply Forall_impl; [exact IH|]. simpl. intros; lia.
Qed.

Lemma forest_length_le f : (length f <= length (encode_forest f))%nat.
Proof.
  unfold encode_forest. induction f as [|blk f IH]; simpl; [lia|].
  rewrite length_app. pose proof (encode_length blk). pose proof (Block_size_ge_2 blk). lia.
Qed.

Lemma decode_forest SK_DEBUG kd dict f flag fuel r :
  Forall (conforms dict) f ->
  (length (encode_forest f) <= fuel)%nat ->
  toShaderInfo SK_DEBUG kd fuel dict (Key.mk (encode_forest f) flag) r
  = Ok (visit_result dict kd (preorder_ids f) r).
Proof.
  intros Hc Hfuel. unfold toShaderInfo.
  apply (toShaderInfo_loop_forest SK_DEBUG kd dict fuel flag f Hc) with (pre := []).
  - eapply Forall_impl; [apply forest_depth_le|]. simpl. intros; lia.
  - pose proof (forest_length_le f). lia.
Qed.

(** ** Termination of the walks *)

(** Loops in the [Res] monad: an invariant on the state and a property of
    the fault, if any. *)
Lemma for_loop_res {St} (I : St -> Prop) (P : fault -> Prop)
      (body : Z -> St -> Res St) n :
  (forall i s, I s -> match body i s with Ok s' => I s' | Fault f => P f end) ->
  forall i s, I s ->
  match for_loop n i body s with Ok s' => I s' | Fault f => P f end.
Proof.
  intros Hb. induction n as [|n IH]; intros i s Hs; simpl; [done|].
  specialize (Hb i s Hs). destruct (body i s) as [s'|f]; simpl; [|done].
  by apply IH.
Qed.

Lemma for_loop_res_idx {St} (I : nat -> St -> Prop) (P : fault -> Prop)
      (body : Z -> St -> Res St) n : forall (k : nat) i s,
  (forall j i s, (k <= j < k + n)%nat -> I j s ->
                 match body i s with Ok s' => I (S j) s' | Fault f => P f end) ->
  I k s ->
  match for_loop n i body s with Ok s' => I (k + n)%nat s' | Fault f => P f end.
Proof.
  induction n as [|n IH]; intros k i s Hb Hs; simpl.
  - by rewrite Nat.add_0_r.
  - pose proof (Hb k i s ltac:(lia) Hs) as H1.
    destruct (body i s) as [s'|f]; simpl; [|done].
    replace (k + S n)%nat with (S k + n)%nat by lia.
    apply IH; [|done]. intros j i' s0 Hj. apply Hb. lia.
Qed.

Lemma dump_bind_post {A B} (I : A -> Prop) (J : B -> Prop) (P : fault -> Prop)
      (m : Dump A) (k : A -> Dump B) out :
  dump_post I P (m out) ->
  (forall a out', I a -> dump_post J P (k a out')) ->
  dump_post J P ((m ≫= k) out).
Proof.
  unfold dump_post, mbind, Dump_bind. intros Hm Hk.
  destruct (m out) as [out' [a|f]]; simpl in *; [by apply Hk | done].
Qed.

Lemma for_loop_dump {St} (I : St -> Prop) (P : fault -> Prop)
      (body : Z -> St -> Dump St) n :
  (forall i s out, I s -> dump_post I P (body i s out)) ->
  forall i s out, I s -> dump_post I P (for_loop n i body s out).
Proof.
  intros Hb. induction n as [|n IH]; intros i s out Hs; simpl; [done|].
  eapply dump_bind_post; [by apply Hb|]. intros; by apply IH.
Qed.

Lemma for_each_dump {A St} (I : St -> Prop) (P : fault -> Prop)
      (body : A -> St -> Dump St) l :
  (forall e s out, I s -> dump_post I P (body e s out)) ->
  forall s out, I s -> dump_post I P (for_each l body s out).
Proof.
  intros Hb. induction l as [|e l IH]; intros s out Hs; simpl; [done|].
  eapply dump_bind_post; [by apply Hb|]. intros; by apply IH.
Qed.

Lemma SkDebugf_post (I : unit -> Prop) P fmt args out :
  I tt -> dump_post I P (SkDebugf fmt args out).
Proof. done. Qed.

Lemma output_indent_post P indent out :
  dump_post (fun _ => True) P (output_indent indent out).
Proof.
  unfold output_indent. apply for_loop_dump; [|done]. intros; by apply SkDebugf_post.
Qed.

Lemma byte_at_range data off x :
  byte_at data off = Some x -> 0 <= off < Z.of_nat (length data).
Proof.
  unfold byte_at, index_at. destruct (Z.ltb_spec off 0); [done|].
  intros Hx. apply lookup_lt_Some in Hx. lia.
Qed.

Lemma byte_at_is_byte data off x :
  is_bytes data -> byte_at data off = Some x -> 0 <= x < 256.
Proof.
  unfold byte_at, index_at, is_bytes. destruct (Z.ltb_spec off 0); [done|].
  intros Hall Hx. rewrite Forall_lookup in Hall. by apply Hall in Hx.
Qed.

Section Walks.
Variable SK_DEBUG : bool.
Variable kDepthStencilOnlyDraw : Z.

(** A block visit returns the size byte stored in the header it read. *)
Lemma AddBlock_returns_stored fuel dict key off r bs r' :
  AddBlockToShaderInfo SK_DEBUG kDepthStencilOnlyDraw fuel dict key off r = Ok (bs, r') ->
  byte_at (Key.fData key) (off + 1) = Some bs.
Proof.
  destruct fuel as [|fuel]; [done|]. cbn [AddBlockToShaderInfo].
  unfold readCodeSnippetID, Key_byte, kBlockSizeOffsetInBytes.
  destruct (byte_at (Key.fData key) off) as [id|]; [|done].
  destruct (byte_at (Key.fData key) (off + 1)) as [sz|]; [|done].
  monad_ok. cbn [fst snd].
  destruct (getEntry dict id) as [e|]; [|done].
  destruct (for_loop _ _ _ _) as [st|]; [|by simpl].
  monad_ok. intros [= <- <-]. done.
Qed.

Lemma AddBlock_never_out_of_fuel dict key :
  is_bytes (Key.fData key) ->
  forall fuel off r,
  0 <= off -> Z.max 0 (Key_sizeInBytes key - off) < Z.of_nat fuel ->
  AddBlockToShaderInfo SK_DEBUG kDepthStencilOnlyDraw fuel dict key off r <> Fault OutOfFuel.
Proof.
  intros Hbytes. unfold Key_sizeInBytes.
  induction fuel as [|fuel IH]; intros off r Hoff Hfuel; [lia|].
  cbn [AddBlockToShaderInfo].
  unfold readCodeSnippetID, Key_byte, kBlockSizeOffsetInBytes, kBlockHeaderSizeInBytes.
  destruct (byte_at (Key.fData key) off) as [id|] eqn:E0; [|done].
  destruct (byte_at (Key.fData key) (off + 1)) as [sz|] eqn:E1; [|done].
  monad_ok. cbn [fst snd].
  destruct (getEntry dict id) as [e|]; [|done].
  apply byte_at_range in E1.
  match goal with |- context [for_loop ?n ?i ?body ?s] =>
    pose proof (for_loop_res (fun st : Z * SkShaderInfo => off + 2 <= st.1)
                             (fun f => f <> OutOfFuel) body n) as HL;
    specialize (fun H => HL H i s)
  end.
  cbv beta in HL. cbn [fst snd] in HL.
  destruct (for_loop _ _ _ _) as [st|f].
  - done.
  - simpl. intros [= ->]. revert HL. intros HL. apply HL; [|lia|done].
    intros i [co r0] Hco. cbn [fst snd] in *.
    unfold SkASSERT. destruct (SK_DEBUG && _); [done|].
    monad_ok.
    destruct (AddBlockToShaderInfo SK_DEBUG kDepthStencilOnlyDraw fuel dict key co r0) as [[bs r1]|f] eqn:EA.
    + monad_ok. cbn [fst snd].
      apply AddBlock_returns_stored in EA.
      apply (byte_at_is_byte _ _ _ Hbytes) in EA. lia.
    + simpl. intros ->. revert EA. apply IH; lia.
Qed.

Lemma toShaderInfo_loop_terminates dict key off :
  is_bytes (Key.fData key) ->
  tiles (Key.fData key) off ->
  forall fuel depth r,
  0 <= off ->
  Key_sizeInBytes key - off < Z.of_nat fuel ->
  Key_sizeInBytes key < Z.of_nat depth ->
  toShaderInfo_loop SK_DEBUG kDepthStencilOnlyDraw fuel depth dict key off r
  <> Fault OutOfFuel.
Proof.
  intros Hbytes Ht. unfold Key_sizeInBytes.
  induction Ht as [off Hend | off size Hsz Hge Hfit Ht IH];
    intros fuel depth r Hoff Hfuel Hdepth.
  - destruct fuel; simpl; unfold Key_sizeInBytes; rewrite Hend, Z.ltb_irrefl; done.
  - destruct fuel as [|fuel]; [lia|].
    cbn [toShaderInfo_loop]. unfold Key_sizeInBytes.
    destruct (_ <? _); [|done].
    destruct (AddBlockToShaderInfo SK_DEBUG kDepthStencilOnlyDraw depth dict key off r) as [[bs r1]|f] eqn:EA.
    + monad_ok. cbn [fst snd].
      apply AddBlock_returns_stored in EA. rewrite Hsz in EA. injection EA as <-.
      apply IH; lia.
    + simpl. intros [= ->]. revert EA.
      apply AddBlock_never_out_of_fuel; [done|done|]. unfold Key_sizeInBytes. lia.
Qed.


Lemma liftRes_Key_byte_post (P : fault -> Prop) key off out :
  P OutOfBounds ->
  dump_post (fun x => byte_at (Key.fData key) off = Some x) P
            (liftRes (Key_byte key off) out).
Proof.
  intros HP. unfold dump_post, liftRes, Key_byte. simpl.
  destruct (byte_at _ _); done.
Qed.

Lemma dump_assert_post (P : fault -> Prop) c out :
  P AssertFailed ->
  dump_post (fun _ => c = true) P (dump_assert c out).
Proof. intros HP. unfold dump_post, dump_assert, liftRes. simpl. destruct c; done. Qed.

Lemma dump_post_weaken {A} (I J : A -> Prop) P x :
  dump_post I P x -> (forall a, I a -> J a) -> dump_post J P x.
Proof. unfold dump_post. destruct x.2; auto. Qed.

Lemma dump_block_post dict key :
  forall fuel off indent out,
  0 <= off -> Z.max 0 (Key_sizeInBytes key - off) < Z.of_nat fuel ->
  dump_post (fun bs => byte_at (Key.fData key) (off + 1) = Some bs /\ 2 <= bs)
            (fun f => f <> OutOfFuel)
            (dump_block fuel dict key off indent out).
Proof.
  unfold Key_sizeInBytes.
  induction fuel as [|fuel IH]; intros off indent out Hoff Hfuel; [lia|].
  cbn [dump_block].
  eapply dump_bind_post; [by apply liftRes_Key_byte_post|]. intros id out1 Hid.
  eapply dump_bind_post; [by apply liftRes_Key_byte_post|]. intros bs out2 Hbs.
  eapply dump_bind_post; [by apply dump_assert_post|]. intros [] out3 Hassert.
  apply andb_prop in Hassert as [Hge Hfit].
  apply Z.leb_le in Hge. apply Z.leb_le in Hfit. unfold Key_sizeInBytes in Hfit.
  eapply (dump_bind_post (fun _ => True)).
  { destruct (getEntry dict id); [done|].
    eapply dump_bind_post; [apply output_indent_post|]. intros; by apply SkDebugf_post. }
  intros [] out4 _.
  eapply dump_bind_post; [apply output_indent_post|]. intros [] out5 _.
  eapply (dump_bind_post (fun _ => True)).
  { unfold dump_post, liftRes. simpl. destruct (getEntry dict id); done. }
  intros entry out6 _.
  eapply (dump_bind_post (fun _ => True)); [by apply SkDebugf_post|]. intros [] out7 _.
  eapply (dump_bind_post (fun cur : Z => off + 2 <= cur)).
  { apply for_loop_dump; [|unfold kBlockHeaderSizeInBytes; lia].
    intros i cur out8 Hcur.
    eapply dump_bind_post; [apply output_indent_post|]. intros [] out9 _.
    eapply (dump_bind_post (fun _ => True)); [by apply SkDebugf_post|]. intros [] out10 _.
    eapply dump_bind_post; [apply (IH cur (indent + 1) out10); lia|].
    intros childSize out11 [_ Hch]. unfold dump_post. simpl. lia. }
  intros cur out8 Hcur.
  eapply (dump_bind_post (fun _ => True)).
  { apply for_each_dump; [|done]. intros e c0 out9 _.
    eapply dump_bind_post; [apply output_indent_post|]. intros [] out10 _.
    eapply (dump_bind_post (fun _ => True)); [by apply SkDebugf_post|]. intros [] out11 _.
    eapply (dump_bind_post (fun _ => True)).
    { eapply dump_post_weaken; [by apply dump_assert_post|done]. }
    intros [] out12 _.
    eapply (dump_bind_post (fun _ => True)).
    { apply for_loop_dump; [|done]. intros j c1 out13 _.
      eapply dump_bind_post; [apply output_indent_post|]. intros [] out14 _.
      eapply (dump_bind_post (fun _ => True)).
      { eapply dump_post_weaken; [by apply liftRes_Key_byte_post|done]. }
      intros v out15 _.
      eapply (dump_bind_post (fun _ => True)); [by apply SkDebugf_post|]. intros [] out16 _.
      done. }
    intros c2 out13 _.
    eapply (dump_bind_post (fun _ => True)); [by apply SkDebugf_post|]. intros [] out14 _.
    done. }
  intros c3 out9 _. unfold dump_post. simpl. done.
Qed.

Lemma dump_loop_terminates dict key :
  forall fuel depth off out,
  0 <= off ->
  Z.max 0 (Key_sizeInBytes key - off) < Z.of_nat fuel ->
  Key_sizeInBytes key < Z.of_nat depth ->
  (dump_loop fuel depth dict key off out).2 <> Fault OutOfFuel.
Proof.
  induction fuel as [|fuel IH]; intros depth off out Hoff Hfuel Hdepth; [lia|].
  cbn [dump_loop]. destruct (Z.ltb_spec off (Key_sizeInBytes key)); [|done].
  pose proof (dump_block_post dict key depth off 0 out Hoff) as HB.
  unfold mbind, Dump_bind. unfold dump_post in HB.
  destruct (dump_block depth dict key off 0 out) as [out1 [bs|f]]; simpl in *.
  - destruct HB as [_ Hbs]; [lia|]. apply IH; lia.
  - intros [= ->]. apply HB; [lia|done].
Qed.

Lemma dump_terminates dict key fuel out :
  Key_sizeInBytes key < Z.of_nat fuel ->
  (dump fuel dict key out).2 <> Fault OutOfFuel.
Proof.
  intros Hfuel. unfold dump. unfold mbind, Dump_bind, SkDebugf at 1 2. 
  apply dump_loop_terminates; unfold Key_sizeInBytes in *; lia.
Qed.

Lemma dump_block_returns_stored dict key fuel off indent out out' bs :
  dump_block fuel dict key off indent out = (out', Ok bs) ->
  byte_at (Key.fData key) (off + 1) = Some bs.
Proof.
  destruct fuel as [|fuel]; [done|]. cbn [dump_block].
  unfold mbind at 1. unfold Dump_bind at 1. unfold liftRes at 1. unfold Key_byte at 1.
  destruct (byte_at (Key.fData key) off) as [id|]; [|done].
  unfold mbind at 1. unfold Dump_bind at 1. unfold liftRes at 1. unfold Key_byte at 1.
  destruct (byte_at (Key.fData key) (off + 1)) as [sz|]; [|done].
  unfold mbind, Dump_bind.
  repeat match goal with
  | |- (let (_, _) := ?x in _) = _ -> _ => destruct x as [? [?|?]]; [|done]
  | |- (match ?x with (_, _) => _ end) = _ -> _ => destruct x as [? [?|?]]; [|done]
  end.
  unfold mret, Dump_ret. intros [= <- <-]. done.
Qed.

End Walks.

(** ** Key equality and absent entries *)

(** *** Key equality *)

Lemma memcmp_refl a : memcmp a a (length a) = 0.
Proof. induction a as [|x a IH]; simpl; [done|]. rewrite Z.ltb_irrefl. done. Qed.

Lemma memcmp_zero_eq a : forall b,
  length a = length b -> memcmp a b (length a) = 0 -> a = b.
Proof.
  induction a as [|x a IH]; intros [|y b] Hlen; simpl in *; try done.
  destruct (Z.ltb_spec x y); [done|]. destruct (Z.ltb_spec y x); [done|].
  intros H1. f_equal; [lia|]. apply IH; [lia|done].
Qed.

Lemma operator_eq_true_iff k1 k2 :
  operator_eq k1 k2 = true <-> Key.fData k1 = Key.fData k2.
Proof.
  unfold operator_eq. split.
  - intros [H1 H2]%andb_prop. apply Z.eqb_eq in H1, H2.
    apply memcmp_zero_eq; [lia|done].
  - intros ->. rewrite Z.eqb_refl, memcmp_refl. done.
Qed.

(** *** The shader-info walk and absent entries *)

Section Absent.
Variable SK_DEBUG : bool.
Variable kDepthStencilOnlyDraw : Z.

Lemma AddBlock_absent_entry fuel dict key off r id bs :
  readCodeSnippetID key off = Ok (id, bs) ->
  getEntry dict id = None ->
  AddBlockToShaderInfo SK_DEBUG kDepthStencilOnlyDraw (S fuel) dict key off r = Fault NullDeref.
Proof.
  intros Hh He. cbn [AddBlockToShaderInfo]. rewrite Hh. monad_ok. cbn [fst snd].
  by rewrite He.
Qed.

Lemma AddBlock_no_null_deref dict key :
  ids_have_entries dict key ->
  forall fuel off r,
  reads dict key off ->
  AddBlockToShaderInfo SK_DEBUG kDepthStencilOnlyDraw fuel dict key off r
  <> Fault NullDeref.
Proof.
  intros Hall. induction fuel as [|fuel IH]; intros off r Hoff; [done|].
  cbn [AddBlockToShaderInfo]. unfold readCodeSnippetID, Key_byte.
  destruct (byte_at (Key.fData key) off) as [id|] eqn:E0; [|done].
  destruct (byte_at (Key.fData key) (off + kBlockSizeOffsetInBytes)) as [sz|] eqn:E1; [|done].
  monad_ok. cbn [fst snd].
  destruct (getEntry dict id) as [e|] eqn:Ee; [|by destruct (Hall off id)].
  match goal with |- context [for_loop ?n ?i ?body ?s] =>
    pose proof (for_loop_res_idx
                  (fun j (st : Z * SkShaderInfo) => child_offset key off j st.1)
                  (fun f => f <> NullDeref) body n 0%nat) as HL;
    specialize (fun H => HL i s H)
  end.
  destruct (for_loop _ _ _ _) as [st|f]; [done|].
  simpl. intros [= ->]. apply HL; [| constructor | done].
  intros j i [co r0] Hj Hco. cbn [fst snd] in *.
  unfold SkASSERT. destruct (SK_DEBUG && _); [done|]. monad_ok.
  assert (Hread : reads dict key co).
  { eapply reads_child; [exact Hoff|exact E0|exact Ee| |exact Hco]. lia. }
  destruct (AddBlockToShaderInfo SK_DEBUG kDepthStencilOnlyDraw fuel dict key co r0)
    as [[bs r1]|f] eqn:EA.
  - monad_ok. cbn [fst snd]. apply AddBlock_returns_stored in EA.
    by eapply child_next.
  - simpl. intros ->. revert EA. by apply IH.
Qed.

Lemma toShaderInfo_loop_no_null_deref dict key depth :
  ids_have_entries dict key ->
  forall fuel off r,
  (off < Key_sizeInBytes key -> top_offset key off) ->
  toShaderInfo_loop SK_DEBUG kDepthStencilOnlyDraw fuel depth dict key off r
  <> Fault NullDeref.
Proof.
  intros Hall. induction fuel as [|fuel IH]; intros off r Hoff; cbn [toShaderInfo_loop];
    destruct (Z.ltb_spec off (Key_sizeInBytes key)); try done.
  destruct (AddBlockToShaderInfo SK_DEBUG kDepthStencilOnlyDraw depth dict key off r)
    as [[bs r1]|f] eqn:EA.
  - monad_ok. cbn [fst snd]. apply IH. intros Hlt.
    apply AddBlock_returns_stored in EA. eapply top_next; eauto.
  - simpl. intros [= ->]. revert EA.
    apply AddBlock_no_null_deref; [done|]. apply reads_top. auto.
Qed.

End Absent.

(** *** The dump and absent entries *)

Lemma output_indent_eq indent out :
  output_indent indent out
  = (out ++ replicate (Z.to_nat indent) ("    "%string, []), Ok tt).
Proof.
  unfold output_indent. generalize 0 as i. revert out.
  induction (Z.to_nat indent) as [|n IH]; intros out i; simpl.
  - by rewrite app_nil_r.
  - unfold mbind, Dump_bind, SkDebugf. rewrite IH. rewrite <- app_assoc. done.
Qed.

Lemma dump_block_absent_entry fuel dict key off indent out id bs :
  Key_byte key off = Ok id ->
  Key_byte key (off + 1) = Ok bs ->
  2 <= bs -> off + bs <= Key_sizeInBytes key ->
  getEntry dict id = None ->
  dump_block (S fuel) dict key off indent out
  = (out ++ replicate (Z.to_nat indent) ("    "%string, [])
         ++ [("unknown block! (%dB)\n"%string, [ArgInt bs])]
         ++ replicate (Z.to_nat indent) ("    "%string, []),
     Fault NullDeref).
Proof.
  intros H0 H1 Hge Hfit He. cbn [dump_block].
  unfold mbind at 1. unfold Dump_bind at 1. unfold liftRes at 1. rewrite H0.
  unfold mbind at 1. unfold Dump_bind at 1. unfold liftRes at 1. rewrite H1.
  unfold mbind at 1. unfold Dump_bind at 1. unfold dump_assert, liftRes at 1.
  assert (Hc : (2 <=? bs) && (off + bs <=? Key_sizeInBytes key) = true).
  { apply andb_true_intro. split; apply Z.leb_le; lia. }
  rewrite Hc, He.
  unfold mbind, Dump_bind. rewrite output_indent_eq. unfold SkDebugf.
  rewrite output_indent_eq. unfold liftRes.
  rewrite <- !app_assoc. done.
Qed.

(** *** Which blocks the walk visits, and the colour flag *)

Lemma child_offset_fun key off i : forall c1 c2,
  child_offset key off i c1 -> child_offset key off i c2 -> c1 = c2.
Proof.
  induction i as [|i IH]; intros c1 c2 H1 H2; inversion H1; inversion H2; subst; [done|].
  match goal with
  | Ha : child_offset key off i ?a, Hb : child_offset key off i ?b |- _ =>
      pose proof (IH _ _ Ha Hb); subst
  end.
  congruence.
Qed.

Lemma under_snoc dict key t off id e i co :
  under dict key t off ->
  byte_at (Key.fData key) off = Some id ->
  getEntry dict id = Some e ->
  Z.of_nat i < fNumChildren e ->
  child_offset key off i co ->
  under dict key t co.
Proof.
  intros Hu Hid He Hi Hco. induction Hu as [off | off id' e' i' c co' H1 H2 H3 H4 _ IH].
  - eapply under_child; eauto. apply under_self.
  - eapply under_child; eauto.
Qed.

Lemma top_from_snoc key a off size :
  top_from key a off ->
  byte_at (Key.fData key) (off + 1) = Some size ->
  off + size < Key_sizeInBytes key ->
  top_from key a (off + size).
Proof.
  intros Ht Hsz Hlt. induction Ht as [off Hoff | off size' t Hoff Hsz' _ IH].
  - eapply top_from_step; eauto. by apply top_from_here.
  - eapply top_from_step; eauto.
Qed.

Lemma top_offset_from key t : top_offset key t -> top_from key 0 t.
Proof.
  induction 1 as [H0 | off size _ IH Hsz Hlt].
  - by apply top_from_here.
  - by eapply top_from_snoc.
Qed.

Lemma reads_under dict key off :
  reads dict key off -> exists t, top_offset key t /\ under dict key t off.
Proof.
  induction 1 as [off Htop | off id e i co _ (t & Ht & Hu) Hid He Hi Hco].
  - exists off. split; [done | apply under_self].
  - exists t. split; [done|]. by eapply under_snoc.
Qed.

Lemma top_from_lt key a t : top_from key a t -> a < Key_sizeInBytes key.
Proof. by destruct 1. Qed.

Lemma top_from_offset key a t :
  top_from key a t -> top_offset key a -> top_offset key t.
Proof.
  induction 1 as [off Hoff | off size t Hoff Hsz Ht IH]; intros Ha; [done|].
  apply IH. eapply top_next; [exact Ha | exact Hsz |]. by eapply top_from_lt.
Qed.

Lemma under_reads dict key t co :
  under dict key t co -> reads dict key t -> reads dict key co.
Proof.
  induction 1 as [off | off id e i c co H1 H2 H3 H4 _ IH]; intros Hr; [done|].
  apply IH. by eapply reads_child.
Qed.

Section Colour.
Variable SK_DEBUG : bool.
Variable kDepthStencilOnlyDraw : Z.
Variable dict : SkShaderCodeDictionary.
Variable key : SkPaintParamsKey.

Lemma for_loop_Ok_inv {St} (I : nat -> St -> Prop)
      (body : Z -> St -> Res St) n i s s' :
  for_loop n i body s = Ok s' ->
  (forall j i s s1, (j < n)%nat -> I j s -> body i s = Ok s1 -> I (S j) s1) ->
  I 0%nat s -> I n s'.
Proof.
  intros Hloop Hb H0.
  pose proof (for_loop_res_idx I (fun _ => True) body n 0%nat i s) as HL.
  rewrite Hloop in HL. apply HL; [|done].
  intros j i0 s0 Hj Hs. destruct (body i0 s0) eqn:E; [|done].
  eapply Hb; eauto. lia.
Qed.

(** The pieces of a successful block visit. *)
Lemma AddBlock_Ok_inv fuel off ra bs rb :
  AddBlockToShaderInfo SK_DEBUG kDepthStencilOnlyDraw fuel dict key off ra = Ok (bs, rb) ->
  exists fuel' id e st,
    fuel = S fuel'
    /\ byte_at (Key.fData key) off = Some id
    /\ getEntry dict id = Some e
    /\ for_loop (Z.to_nat (fNumChildren e)) 0
         (fun _ (st : Z * SkShaderInfo) =>
            SkASSERT SK_DEBUG (st.1 <? off + bs);;
            r ← AddBlockToShaderInfo SK_DEBUG kDepthStencilOnlyDraw fuel' dict key st.1 st.2;
            Ok (st.1 + r.1, r.2))
         (off + kBlockHeaderSizeInBytes, add e ra) = Ok st
    /\ rb = (if negb (id =? kDepthStencilOnlyDraw) then setWritesColor st.2 else st.2).
Proof.
  destruct fuel as [|fuel]; [done|]. cbn [AddBlockToShaderInfo].
  unfold readCodeSnippetID, Key_byte.
  destruct (byte_at (Key.fData key) off) as [id|] eqn:E0; [|done].
  destruct (byte_at (Key.fData key) (off + kBlockSizeOffsetInBytes)) as [sz|] eqn:E1; [|done].
  monad_ok. cbn [fst snd].
  destruct (getEntry dict id) as [e|] eqn:Ee; [|done].
  destruct (for_loop _ _ _ _) as [st|] eqn:EL; [|done].
  monad_ok. intros [= <- <-]. exists fuel, id, e, st. done.
Qed.

Lemma body_Ok_inv fuel hend (st s1 : Z * SkShaderInfo) :
  (SkASSERT SK_DEBUG (st.1 <? hend);;
   r ← AddBlockToShaderInfo SK_DEBUG kDepthStencilOnlyDraw fuel dict key st.1 st.2;
   Ok (st.1 + r.1, r.2)) = Ok s1 ->
  exists bs,
    AddBlockToShaderInfo SK_DEBUG kDepthStencilOnlyDraw fuel dict key st.1 st.2
    = Ok (bs, s1.2) /\ s1.1 = st.1 + bs.
Proof.
  intros H. apply bind_Ok_inv in H as (_ & _ & H).
  apply bind_Ok_inv in H as ([bs r1] & HA & H). injection H as <-.
  exists bs. done.
Qed.

Lemma AddBlock_flag_mono : forall fuel off ra bs rb,
  AddBlockToShaderInfo SK_DEBUG kDepthStencilOnlyDraw fuel dict key off ra = Ok (bs, rb) ->
  fWritesColor ra = true -> fWritesColor rb = true.
Proof.
  induction fuel as [|fuel IH]; intros off ra bs rb H Hra; [done|].
  apply AddBlock_Ok_inv in H as (fuel' & id & e & st & [= <-] & _ & _ & HL & ->).
  assert (fWritesColor st.2 = true).
  { apply (for_loop_Ok_inv (fun _ (st : Z * SkShaderInfo) => fWritesColor st.2 = true))
      in HL; [done| |done].
    intros j i s s1 _ Hs Hb. apply body_Ok_inv in Hb as (bs' & HA & _).
    by eapply IH. }
  destruct (negb _); done.
Qed.

Lemma AddBlock_flag_complete : forall fuel off ra bs rb co id,
  AddBlockToShaderInfo SK_DEBUG kDepthStencilOnlyDraw fuel dict key off ra = Ok (bs, rb) ->
  under dict key off co ->
  byte_at (Key.fData key) co = Some id -> id <> kDepthStencilOnlyDraw ->
  fWritesColor rb = true.
Proof.
  induction fuel as [|fuel IH]; intros off ra bs rb co id H Hu Hid Hne; [done|].
  apply AddBlock_Ok_inv in H as (fuel' & id0 & e & st & [= <-] & Hid0 & He & HL & ->).
  inversion Hu as [|off' id1 e1 i c co' H1 H2 H3 H4 H5]; subst.
  - rewrite Hid in Hid0. injection Hid0 as <-.
    apply Z.eqb_neq in Hne. rewrite Hne. done.
  - rewrite H1 in Hid0. injection Hid0 as <-. rewrite H2 in He. injection He as <-.
    assert (Hst : fWritesColor st.2 = true).
    { apply (for_loop_Ok_inv
               (fun j (st : Z * SkShaderInfo) =>
                  child_offset key off j st.1
                  /\ ((i < j)%nat -> fWritesColor st.2 = true))) in HL.
      - destruct HL as [_ HL]. apply HL. lia.
      - intros j i0 s s1 Hj [Hc Hf] Hb. apply body_Ok_inv in Hb as (bs' & HA & Hs1).
        split.
        + rewrite Hs1. eapply child_next; [exact Hc|].
          by eapply AddBlock_returns_stored.
        + intros Hij. destruct (decide (j = i)) as [->|Hji].
          * pose proof (child_offset_fun _ _ _ _ _ Hc H4) as Hcc.
            rewrite Hcc in HA. by eapply (IH _ _ _ _ co id HA).
          * eapply AddBlock_flag_mono; [exact HA|]. apply Hf. lia.
      - split; [constructor | lia]. }
    destruct (negb _); done.
Qed.

Lemma AddBlock_flag_sound (Q : Prop) : forall fuel off ra bs rb,
  (forall co id, under dict key off co -> byte_at (Key.fData key) co = Some id ->
                 id <> kDepthStencilOnlyDraw -> Q) ->
  AddBlockToShaderInfo SK_DEBUG kDepthStencilOnlyDraw fuel dict key off ra = Ok (bs, rb) ->
  (fWritesColor ra = true -> Q) -> fWritesColor rb = true -> Q.
Proof.
  induction fuel as [|fuel IH]; intros off ra bs rb HQ H Hra Hrb; [done|].
  apply AddBlock_Ok_inv in H as (fuel' & id0 & e & st & [= <-] & Hid0 & He & HL & ->).
  destruct (Z.eqb_spec id0 kDepthStencilOnlyDraw) as [Heq|Hne]; cbn [negb] in Hrb.
  2:{ eapply HQ; [apply under_self | exact Hid0 | exact Hne]. }
  apply (for_loop_Ok_inv
           (fun j (st : Z * SkShaderInfo) =>
              child_offset key off j st.1 /\ (fWritesColor st.2 = true -> Q))) in HL.
  - destruct HL as [_ HL]. by apply HL.
  - intros j i0 s s1 Hj [Hc Hf] Hb. apply body_Ok_inv in Hb as (bs' & HA & Hs1).
    split.
    + rewrite Hs1. eapply child_next; [exact Hc|]. by eapply AddBlock_returns_stored.
    + eapply IH; [|exact HA|exact Hf].
      intros co id Hu Hid Hne. eapply HQ; [|exact Hid|exact Hne].
      eapply under_child; [exact Hid0|exact He| |exact Hc|exact Hu]. lia.
  - split; [constructor | done].
Qed.

Lemma loop_flag : forall fuel depth off ra rb,
  toShaderInfo_loop SK_DEBUG kDepthStencilOnlyDraw fuel depth dict key off ra = Ok rb ->
  (fWritesColor ra = true -> fWritesColor rb = true)
  /\ (forall t co id, top_from key off t -> under dict key t co ->
                      byte_at (Key.fData key) co = Some id ->
                      id <> kDepthStencilOnlyDraw -> fWritesColor rb = true)
  /\ (forall Q : Prop,
        (forall t co id, top_from key off t -> under dict key t co ->
                         byte_at (Key.fData key) co = Some id ->
                         id <> kDepthStencilOnlyDraw -> Q) ->
        (fWritesColor ra = true -> Q) -> fWritesColor rb = true -> Q).
Proof.
  induction fuel as [|fuel IH]; intros depth off ra rb; cbn [toShaderInfo_loop];
    destruct (Z.ltb_spec off (Key_sizeInBytes key)) as [Hlt|Hge]; try done.
  - intros [= <-]. split; [done|]. split; [|auto].
    intros t co id Ht. inversion Ht; lia.
  - intros H. apply bind_Ok_inv in H as ([bs r1] & HA & H). cbn [fst snd] in H.
    apply IH in H as (Hmono & Hcomp & Hsound).
    pose proof (AddBlock_returns_stored _ _ _ _ _ _ _ _ _ HA) as Hbs.
    split; [|split].
    + intros Hra. apply Hmono. by eapply AddBlock_flag_mono.
    + intros t co id Ht Hu Hid Hne. inversion Ht as [|off' size t' _ Hsz Ht']; subst.
      * apply Hmono. by eapply AddBlock_flag_complete.
      * rewrite Hbs in Hsz. injection Hsz as <-. by eapply Hcomp.
    + intros Q HQ Hra Hrb. eapply Hsound; [| |exact Hrb].
      * intros t co id Ht. apply HQ. by eapply top_from_step.
      * eapply AddBlock_flag_sound; [|exact HA|exact Hra].
        intros co id. apply HQ. by apply top_from_here.
  - intros [= <-]. split; [done|]. split; [|auto].
    intros t co id Ht. inversion Ht; lia.
Qed.

End Colour.

Lemma toShaderInfo_flag SK_DEBUG kd dict key fuel r0 r :
  toShaderInfo SK_DEBUG kd fuel dict key r0 = Ok r ->
  (fWritesColor r = true <->
   fWritesColor r0 = true \/ reads_non_marker dict kd key).
Proof.
  unfold toShaderInfo. intros H.
  apply loop_flag in H as (Hmono & Hcomp & Hsound). split.
  - apply Hsound; [|by left].
    intros t co id Ht Hu Hid Hne. right. exists co, id. split; [|done].
    eapply under_reads; [exact Hu|]. apply reads_top.
    eapply top_from_offset; [exact Ht|]. apply top_first. by eapply top_from_lt.
  - intros [H0 | (off & id & Hr & Hid & Hne)]; [by apply Hmono|].
    apply reads_under in Hr as (t & Ht & Hu).
    eapply Hcomp; [|exact Hu|exact Hid|exact Hne]. by apply top_offset_from.
Qed.

(** ** The walks step by the stored size bytes *)

Section Steps.
Variable SK_DEBUG : bool.
Variable kDepthStencilOnlyDraw : Z.
Variable dict : SkShaderCodeDictionary.
Variable key : SkPaintParamsKey.

Lemma AddBlock_walk : forall fuel off ra bs rb,
  AddBlockToShaderInfo SK_DEBUG kDepthStencilOnlyDraw fuel dict key off ra = Ok (bs, rb) ->
  exists tr new,
    subtree_walk dict (Key.fData key) off tr
    /\ fEntries rb = fEntries ra ++ new
    /\ Forall2 (header_entry dict (Key.fData key)) tr new.
Proof.
  induction fuel as [|fuel IH]; intros off ra bs rb H; [done|].
  apply AddBlock_Ok_inv in H as (fuel' & id0 & e & st & [= <-] & Hid0 & He & HL & ->).
  apply (for_loop_Ok_inv
           (fun j (st : Z * SkShaderInfo) =>
              exists tr new,
                siblings_walk dict (Key.fData key) (off + kBlockHeaderSizeInBytes)
                              j st.1 tr
                /\ fEntries st.2 = fEntries ra ++ e :: new
                /\ Forall2 (header_entry dict (Key.fData key)) tr new)) in HL.
  - destruct HL as (tr & new & Hw & Hn & Hf). exists (off :: tr), (e :: new).
    split; [by eapply subtree_walk_block|]. split; [by destruct (negb _)|].
    constructor; [|done]. by exists id0.
  - intros j i s s1 Hj (tr & new & Hw & Hn & Hf) Hb.
    apply body_Ok_inv in Hb as (bs' & HA & Hs1).
    pose proof (AddBlock_returns_stored _ _ _ _ _ _ _ _ _ HA) as Hst.
    apply IH in HA as (tr1 & new1 & Hw1 & Hn1 & Hf1).
    exists (tr ++ tr1), (new ++ new1). rewrite Hs1.
    split; [by eapply siblings_walk_next|].
    split; [rewrite Hn1, Hn, <- app_assoc; done|]. by apply Forall2_app.
  - exists [], []. split; [constructor|]. split; [done|constructor].
Qed.

Lemma toShaderInfo_loop_walk depth : forall fuel off ra rb n0 tr0,
  top_walk dict (Key.fData key) n0 off tr0 ->
  toShaderInfo_loop SK_DEBUG kDepthStencilOnlyDraw fuel depth dict key off ra = Ok rb ->
  exists n stop tr new,
    top_walk dict (Key.fData key) n stop (tr0 ++ tr)
    /\ Key_sizeInBytes key <= stop
    /\ fEntries rb = fEntries ra ++ new
    /\ Forall2 (header_entry dict (Key.fData key)) tr new.
Proof.
  induction fuel as [|fuel IH]; intros off ra rb n0 tr0 Htop; cbn [toShaderInfo_loop];
    destruct (Z.ltb_spec off (Key_sizeInBytes key)) as [Hlt|Hge]; try done.
  - intros [= <-]. exists n0, off, [], []. rewrite !app_nil_r.
    repeat split; [done..|constructor].
  - intros H. apply bind_Ok_inv in H as ([bs r1] & HA & H). cbn [fst snd] in H.
    pose proof (AddBlock_returns_stored _ _ _ _ _ _ _ _ _ HA) as Hbs.
    apply AddBlock_walk in HA as (tr1 & new1 & Hw1 & Hn1 & Hf1).
    apply (IH _ _ _ (S n0) (tr0 ++ tr1)) in H
      as (n & stop & tr2 & new2 & Ht2 & Hstop & Hn2 & Hf2);
      [|by eapply top_walk_next].
    exists n, stop, (tr1 ++ tr2), (new1 ++ new2). rewrite app_assoc.
    split; [done|]. split; [done|].
    split; [rewrite Hn2, Hn1, <- app_assoc; done|]. by apply Forall2_app.
  - intros [= <-]. exists n0, off, [], []. rewrite !app_nil_r.
    repeat split; [done..|constructor].
Qed.

(** *** The dump *)

Lemma block_lines_app o1 o2 :
  block_lines (o1 ++ o2) = block_lines o1 ++ block_lines o2.
Proof. unfold block_lines. apply flat_map_app. Qed.

Lemma dump_partial_bind {A B} (m : Dump A) (k : A -> Dump B) out
      (R1 : A -> DebugOutput -> Prop) (R2 : B -> DebugOutput -> Prop) :
  dump_partial m out R1 ->
  (forall a out', R1 a out' -> dump_partial (k a) out' R2) ->
  dump_partial (m ≫= k) out R2.
Proof.
  unfold dump_partial, mbind, Dump_bind. intros Hm Hk out' b.
  destruct (m out) as [out1 [a|f]] eqn:E; [|done].
  intros H. eapply Hk; [by apply Hm | exact H].
Qed.

Lemma dump_partial_weaken {A} (m : Dump A) out (R1 R2 : A -> DebugOutput -> Prop) :
  dump_partial m out R1 -> (forall a out', R1 a out' -> R2 a out') ->
  dump_partial m out R2.
Proof. unfold dump_partial. eauto. Qed.

Lemma dump_partial_ret {A} (a : A) out :
  dump_partial (mret a) out (fun a' out' => a' = a /\ out' = out).
Proof. intros out' a' [= <- <-]. done. Qed.

Lemma dump_partial_liftRes {A} (r : Res A) out :
  dump_partial (liftRes r) out (fun a out' => r = Ok a /\ out' = out).
Proof. intros out' a [= <- ->]. done. Qed.

Lemma dump_partial_assert c out :
  dump_partial (dump_assert c) out (fun _ out' => c = true /\ out' = out).
Proof. destruct c; intros out' a; [intros [= <-]; done | done]. Qed.

Lemma dump_partial_SkDebugf fmt args out :
  dump_partial (SkDebugf fmt args) out (fun _ out' => out' = out ++ [(fmt, args)]).
Proof. intros out' a [= <-]. done. Qed.

Lemma dump_partial_output_indent indent out :
  dump_partial (output_indent indent) out
               (fun _ out' => block_lines out' = block_lines out).
Proof.
  intros out' a. rewrite output_indent_eq. intros [= <-].
  rewrite block_lines_app.
  assert (E : block_lines (replicate (Z.to_nat indent) ("    "%string, [])) = []).
  { induction (Z.to_nat indent) as [|n IH]; [done|]. exact IH. }
  by rewrite E, app_nil_r.
Qed.

Lemma for_loop_partial {St} (I : nat -> St -> DebugOutput -> Prop)
      (body : Z -> St -> Dump St) n : forall (k : nat) i s out,
  (forall j i s out, (k <= j < k + n)%nat -> I j s out ->
                     dump_partial (body i s) out (I (S j))) ->
  I k s out ->
  dump_partial (for_loop n i body s) out (I (k + n)%nat).
Proof.
  induction n as [|n IH]; intros k i s out Hb Hs; cbn [for_loop].
  - intros out' a [= <- <-]. by rewrite Nat.add_0_r.
  - eapply dump_partial_bind; [apply (Hb k); [lia|done]|].
    intros s1 out1 H1. replace (k + S n)%nat with (S k + n)%nat by lia.
    apply IH; [|done]. intros j i' s0 out0 Hj. apply Hb. lia.
Qed.

Lemma for_each_partial {A St} (I : St -> DebugOutput -> Prop)
      (body : A -> St -> Dump St) l : forall s out,
  (forall e s out, I s out -> dump_partial (body e s) out I) ->
  I s out ->
  dump_partial (for_each l body s) out I.
Proof.
  induction l as [|e l IH]; intros s out Hb Hs; cbn [for_each].
  - intros out' a [= <- <-]. done.
  - eapply dump_partial_bind; [by apply Hb|]. intros s1 out1 H1. by apply IH.
Qed.

Lemma dump_block_walk : forall fuel off indent out,
  dump_partial (dump_block fuel dict key off indent) out
    (fun bs out' =>
       byte_at (Key.fData key) (off + 1) = Some bs
       /\ exists tr lines,
            subtree_walk dict (Key.fData key) off tr
            /\ block_lines out' = block_lines out ++ lines
            /\ Forall2 (header_line dict (Key.fData key)) tr lines).
Proof.
  induction fuel as [|fuel IH]; intros off indent out; [by intros ? ?|].
  cbn [dump_block].
  eapply dump_partial_bind; [apply dump_partial_liftRes|]. intros id out1 [Hid ->].
  eapply dump_partial_bind; [apply dump_partial_liftRes|]. intros bs out1 [Hbs ->].
  eapply dump_partial_bind; [apply dump_partial_assert|]. intros [] out1 [_ ->].
  unfold Key_byte in Hid, Hbs.
  destruct (byte_at (Key.fData key) off) as [id'|] eqn:Eid; [|done].
  destruct (byte_at (Key.fData key) (off + 1)) as [bs'|] eqn:Ebs; [|done].
  injection Hid as ->. injection Hbs as ->.
  destruct (getEntry dict id) as [e|] eqn:Ee.
  2:{ eapply dump_partial_bind with (R1 := fun _ _ => True); [by intros ? ?|].
      intros [] out1 _.
      eapply dump_partial_bind with (R1 := fun _ _ => True); [by intros ? ?|].
      intros [] out2 _.
      eapply dump_partial_bind; [apply dump_partial_liftRes|]. intros ? ? [[=] _]. }
  eapply dump_partial_bind; [apply dump_partial_ret|]. intros [] out1 [_ ->].
  eapply dump_partial_bind; [apply dump_partial_output_indent|]. intros [] out1 H1.
  eapply dump_partial_bind; [apply dump_partial_liftRes|]. intros e' out2 [[= <-] ->].
  eapply dump_partial_bind; [apply dump_partial_SkDebugf|]. intros [] out2 ->.
  eapply dump_partial_bind.
  { apply (for_loop_partial
             (fun j (cur : Z) out' =>
                exists tr lines,
                  siblings_walk dict (Key.fData key) (off + kBlockHeaderSizeInBytes)
                                j cur tr
                  /\ block_lines out'
                     = block_lines out ++ (fStaticFunctionName e, bs) :: lines
                  /\ Forall2 (header_line dict (Key.fData key)) tr lines)
             _ _ 0%nat).
    - intros j i cur out3 _ (tr & lines & Hw & Hl & Hf).
      eapply dump_partial_bind; [apply dump_partial_output_indent|]. intros [] out4 H4.
      eapply dump_partial_bind; [apply dump_partial_SkDebugf|]. intros [] out5 ->.
      eapply dump_partial_bind; [apply IH|].
      intros childSize out6 (Hst & tr1 & lines1 & Hw1 & Hl1 & Hf1).
      eapply dump_partial_weaken; [apply dump_partial_ret|].
      intros cur' out7 [-> ->]. exists (tr ++ tr1), (lines ++ lines1).
      split; [by eapply siblings_walk_next|]. split; [|by apply Forall2_app].
      rewrite Hl1, block_lines_app, H4, Hl. cbn [block_lines flat_map].
      rewrite app_nil_r, <- app_assoc. done.
    - exists [], []. split; [constructor|]. split; [|constructor].
      rewrite block_lines_app, H1. done. }
  cbn [Nat.add]. intros cur out3 (tr & lines & Hw & Hl & Hf).
  eapply dump_partial_bind.
  { apply (for_each_partial (fun _ out' => block_lines out' = block_lines out3)); [|done].
    intros fld c0 out4 H4.
    eapply dump_partial_bind; [apply dump_partial_output_indent|]. intros [] out5 H5.
    eapply dump_partial_bind; [apply dump_partial_SkDebugf|]. intros [] out6 ->.
    eapply dump_partial_bind; [apply dump_partial_assert|]. intros [] out6 [_ ->].
    eapply dump_partial_bind.
    { apply (for_loop_partial
               (fun _ (_ : Z) out' => block_lines out' = block_lines out3) _ _ 0%nat).
      - intros j i c1 out7 _ H7.
        eapply dump_partial_bind; [apply dump_partial_output_indent|]. intros [] out8 H8.
        eapply dump_partial_bind; [apply dump_partial_liftRes|]. intros v out9 [_ ->].
        eapply dump_partial_bind; [apply dump_partial_SkDebugf|]. intros [] out9 ->.
        eapply dump_partial_weaken; [apply dump_partial_ret|].
        intros c2 out10 [_ ->]. rewrite block_lines_app, H8, H7.
        cbn [block_lines flat_map]. by rewrite !app_nil_r.
      - rewrite block_lines_app, H5, H4. cbn [block_lines flat_map].
        by rewrite !app_nil_r. }
    intros c1 out7 H7.
    eapply dump_partial_bind; [apply dump_partial_SkDebugf|]. intros [] out8 ->.
    eapply dump_partial_weaken; [apply dump_partial_ret|].
    intros c2 out9 [_ ->]. rewrite block_lines_app, H7.
    cbn [block_lines flat_map]. by rewrite !app_nil_r. }
  intros c3 out4 H4.
  eapply dump_partial_weaken; [apply dump_partial_ret|].
  intros bs' out5 [-> ->]. split; [done|].
  exists (off :: tr), ((fStaticFunctionName e, bs) :: lines).
  split; [by eapply subtree_walk_block|]. split; [by rewrite H4|].
  constructor; [|done]. exists e. split; [by exists id|done].
Qed.

Lemma dump_loop_walk depth : forall fuel off out n0 tr0 lines0 out0,
  top_walk dict (Key.fData key) n0 off tr0 ->
  block_lines out = block_lines out0 ++ lines0 ->
  Forall2 (header_line dict (Key.fData key)) tr0 lines0 ->
  dump_partial (dump_loop fuel depth dict key off) out
    (fun _ out' =>
       exists n stop tr lines,
         top_walk dict (Key.fData key) n stop tr
         /\ Key_sizeInBytes key <= stop
         /\ block_lines out' = block_lines out0 ++ lines
         /\ Forall2 (header_line dict (Key.fData key)) tr lines).
Proof.
  induction fuel as [|fuel IH]; intros off out n0 tr0 lines0 out0 Htop Hl Hf;
    cbn [dump_loop];
    destruct (Z.ltb_spec off (Key_sizeInBytes key)) as [Hlt|Hge]; try (by intros ? ?).
  - intros out' a [= <-]. by exists n0, off, tr0, lines0.
  - eapply dump_partial_bind; [apply dump_block_walk|].
    intros bs out1 (Hbs & tr1 & lines1 & Hw1 & Hl1 & Hf1).
    apply (IH _ _ (S n0) (tr0 ++ tr1) (lines0 ++ lines1)).
    + by eapply top_walk_next.
    + rewrite Hl1, Hl, <- app_assoc. done.
    + by apply Forall2_app.
  - intros out' a [= <-]. by exists n0, off, tr0, lines0.
Qed.

End Steps.

(** *** The walk is determined by the bytes *)

Scheme subtree_walk_mut := Minimality for subtree_walk Sort Prop
  with siblings_walk_mut := Minimality for siblings_walk Sort Prop.
Combined Scheme walk_mutind from subtree_walk_mut, siblings_walk_mut.

Lemma walk_deterministic dict data :
  (forall off tr, subtree_walk dict data off tr ->
     forall tr', subtree_walk dict data off tr' -> tr = tr')
  /\ (forall start n off tr, siblings_walk dict data start n off tr ->
        forall off' tr', siblings_walk dict data start n off' tr' ->
                         off = off' /\ tr = tr').
Proof.
  apply walk_mutind.
  - intros off id e stop tr Hid He _ IH tr' H'.
    inversion H' as [off' id' e' stop' tr0 Hid' He' Hs']; subst.
    rewrite Hid in Hid'. injection Hid' as <-.
    rewrite He in He'. injection He' as <-.
    apply IH in Hs' as [_ ->]. done.
  - intros start off' tr' H'. inversion H'; subst. done.
  - intros start n off size tr tr1 _ IHs _ IHb Hsz off' tr' H'.
    inversion H' as [|start' n' off2 size2 tr2 tr12 Hs2 Hb2 Hsz2]; subst.
    apply IHs in Hs2 as [<- <-]. apply IHb in Hb2 as <-.
    rewrite Hsz in Hsz2. injection Hsz2 as <-. done.
Qed.

Lemma top_walk_deterministic dict data n : forall off tr off' tr',
  top_walk dict data n off tr -> top_walk dict data n off' tr' ->
  off = off' /\ tr = tr'.
Proof.
  induction n as [|n IH]; intros off tr off' tr' H H'.
  - inversion H; inversion H'; subst. done.
  - inversion H as [|n1 o1 s1 t1 u1 Ht1 _ Hb1 Hs1]; subst.
    inversion H' as [|n2 o2 s2 t2 u2 Ht2 _ Hb2 Hs2]; subst.
    destruct (IH _ _ _ _ Ht1 Ht2) as [<- <-].
    rewrite Hs1 in Hs2. injection Hs2 as <-.
    by rewrite (proj1 (walk_deterministic dict data) _ _ Hb1 _ Hb2).
Qed.

(** A walk of more blocks passed every earlier stage inside the buffer. *)
Lemma top_walk_earlier dict data n' off' tr' :
  top_walk dict data n' off' tr' ->
  forall n, (n < n')%nat ->
  exists off tr, top_walk dict data n off tr /\ off < Z.of_nat (length data).
Proof.
  induction 1 as [|n' off size tr tr1 Ht IH Hlt Hb Hs]; intros n Hn; [lia|].
  destruct (decide (n = n')) as [->|Hne]; [by exists off, tr|].
  apply IH. lia.
Qed.

Lemma walk_by_stored_size_unique dict data tr tr' :
  walk_by_stored_size dict data tr -> walk_by_stored_size dict data tr' -> tr = tr'.
Proof.
  intros (n & stop & Ht & Hstop) (n' & stop' & Ht' & Hstop').
  destruct (lt_eq_lt_dec n n') as [[Hlt| -> ]|Hlt].
  - destruct (top_walk_earlier _ _ _ _ _ Ht' n Hlt) as (off & tr0 & H0 & Hin).
    destruct (top_walk_deterministic _ _ _ _ _ _ _ Ht H0) as [-> _]. lia.
  - by destruct (top_walk_deterministic _ _ _ _ _ _ _ Ht Ht').
  - destruct (top_walk_earlier _ _ _ _ _ Ht n' Hlt) as (off & tr0 & H0 & Hin).
    destruct (top_walk_deterministic _ _ _ _ _ _ _ Ht' H0) as [-> _]. lia.
Qed.

Section Stuck.
Variable SK_DEBUG : bool.
Variable kDepthStencilOnlyDraw : Z.
Variable dict : SkShaderCodeDictionary.

(** A first block that stores the size 0 and declares no child: the
    top-level loop of [toShaderInfo] stays at offset 0. *)
Lemma toShaderInfo_loop_stuck flag id e rest depth :
  getEntry dict id = Some e -> fNumChildren e <= 0 ->
  forall fuel r,
    (fuel <= depth)%nat ->
    toShaderInfo_loop SK_DEBUG kDepthStencilOnlyDraw fuel depth dict
                      (Key.mk (id :: 0 :: rest) flag) 0 r
    = Fault OutOfFuel.
Proof.
  intros He Hn. induction fuel as [|fuel IH]; intros r Hd.
  - cbn [toShaderInfo_loop]. unfold Key_sizeInBytes. cbn [Key.fData length].
    destruct (Z.ltb_spec 0 (Z.of_nat (S (S (length rest))))) as [_|?]; [done|lia].
  - cbn [toShaderInfo_loop]. unfold Key_sizeInBytes. cbn [Key.fData length].
    destruct (Z.ltb_spec 0 (Z.of_nat (S (S (length rest))))) as [_|?]; [|lia].
    destruct depth as [|depth]; [lia|].
    cbn [AddBlockToShaderInfo]. unfold readCodeSnippetID, Key_byte. cbn [Key.fData].
    change (byte_at (id :: 0 :: rest) 0) with (Some id).
    change (byte_at (id :: 0 :: rest) (0 + kBlockSizeOffsetInBytes)) with (Some 0).
    cbv iota. monad_ok. cbn [fst snd]. rewrite He.
    replace (Z.to_nat (fNumChildren e)) with 0%nat by lia.
    cbn [for_loop]. unfold mret, Res_ret. monad_ok. cbn [fst snd].
    rewrite Z.add_0_l. apply IH. lia.
Qed.

(** The same block stops the dump at its first assertion. *)
Lemma dump_first_block_size_0 flag id rest fuel out :
  dump (S fuel) dict (Key.mk (id :: 0 :: rest) flag) out
  = (out ++ [("--------------------------------------\n"%string, []);
             ("SkPaintParamsKey (%dB):\n"%string,
              [ArgInt (Key_sizeInBytes (Key.mk (id :: 0 :: rest) flag))])],
     Fault AssertFailed).
Proof.
  unfold dump. unfold mbind at 1 2, Dump_bind at 1 2, SkDebugf at 1 2.
  rewrite <- app_assoc. cbn [app dump_loop]. unfold Key_sizeInBytes. cbn [Key.fData length].
  destruct (Z.ltb_spec 0 (Z.of_nat (S (S (length rest))))) as [_|?]; [|lia].
  cbn [dump_block]. unfold Key_byte. cbn [Key.fData].
  change (byte_at (id :: 0 :: rest) 0) with (Some id).
  change (byte_at (id :: 0 :: rest) (0 + 1)) with (Some 0).
  reflexivity.
Qed.

End Stuck.

(** * The properties of the specification *)

Lemma example_error_snippet_ok dbg : error_snippet_ok dbg 0 example_dict.
Proof.
  split; [simpl; lia|]. split; [lia|]. intros _.
  exists (Build_SkShaderSnippet "error" 0 []). done.
Qed.

Lemma example_leaf_conforms : conforms example_dict example_leaf.
Proof.
  eapply conforms_block with (e := Build_SkShaderSnippet "solid" 0 [Build_DataPayloadField "color" kByte 2]);
    try done; try (simpl; lia); try (unfold kMaxBlockSize; simpl; lia).
Qed.

Lemma example_tree_conforms : conforms example_dict example_tree.
Proof.
  eapply conforms_block with (e := Build_SkShaderSnippet "blend" 1 [Build_DataPayloadField "mode" kByte 1]);
    try done; try (simpl; lia); try (unfold kMaxBlockSize; simpl; lia).
  constructor; [apply example_leaf_conforms | constructor].
Qed.

(** C1 (round trip).  For every forest of blocks matching the dictionary's
    declared schema, running its begin/add/end calls on a fresh builder and
    locking yields the key whose bytes are the forest's layout; decoding
    that key with [toShaderInfo] records the blocks' entries in pre-order
    (a block, then each child subtree in order); and the size byte stored
    for every block is 2 plus the stored sizes of its immediate children
    plus the byte counts of its payload fields. *)
Theorem round_trip (SK_DEBUG : bool) (kError kDepthStencilOnlyDraw : Z)
        (dict : SkShaderCodeDictionary) (forest : list Block)
        (fuel fuel' : nat) (r0 : SkShaderInfo) :
  Forall (conforms dict) forest ->
  (length (encode_forest forest) <= fuel')%nat ->
  exists key b',
    run_ops SK_DEBUG kError fuel (build_forest_ops forest)
            (SkPaintParamsKeyBuilder_new dict)
      ≫= lockAsKey SK_DEBUG kError fuel = Ok (key, b')
    /\ Key.fData key = encode_forest forest
    /\ toShaderInfo SK_DEBUG kDepthStencilOnlyDraw fuel' dict key r0
       = Ok (visit_result dict kDepthStencilOnlyDraw (preorder_ids forest) r0)
    /\ Forall (fun blk =>
                 encode blk !! 1%nat
                 = Some (2 + sumZ (map (fun c => nth 1 (encode c) 0) (block_children blk))
                           + sumZ (field_sizes (block_payload blk))))
              (preorder_forest forest).
Proof.
  intros Hc Hfuel.
  exists (Key.mk (encode_forest forest) true), (MkBuilder dict (encode_forest forest) [] true 1%nat).
  unfold SkPaintParamsKeyBuilder_new.
  rewrite build_forest_ok by done. monad_ok. cbn [app].
  rewrite lockAsKey_closed. split; [done|]. split; [done|]. split.
  - by apply decode_forest.
  - apply Forall_forall. intros [id ch pl] _. cbn [encode block_children block_payload].
    cbn [app lookup list_lookup Block_size].
    assert (E : map Block_size ch = map (fun c => nth 1 (encode c) 0) ch)
      by (apply map_ext; intros [? ? ?]; done).
    rewrite E. done.
Qed.

Lemma round_trip_witness :
  exists key b',
    run_ops true 0 1 (build_forest_ops [example_tree])
            (SkPaintParamsKeyBuilder_new example_dict)
      ≫= lockAsKey true 0 1 = Ok (key, b')
    /\ Key.fData key = encode_forest [example_tree]
    /\ toShaderInfo true 2 7 example_dict key (MkShaderInfo [] false)
       = Ok (visit_result example_dict 2 (preorder_ids [example_tree]) (MkShaderInfo [] false))
    /\ Forall (fun blk =>
                 encode blk !! 1%nat
                 = Some (2 + sumZ (map (fun c => nth 1 (encode c) 0) (block_children blk))
                           + sumZ (field_sizes (block_payload blk))))
              (preorder_forest [example_tree]).
Proof.
  apply (round_trip true 0 2 example_dict [example_tree] 1 7 (MkShaderInfo [] false)).
  - constructor; [apply example_tree_conforms | constructor].
  - simpl. lia.
Defined.

(** C2 (poison idempotence).  Once a run of building calls has left the
    validity flag false, any further run of [beginBlock], [addBytes] and
    [endBlock] calls leaves the builder, hence its buffer, unchanged, and
    the key then produced by [lockAsKey] is the two-byte error key
    [[kError; 2]]. *)
Theorem poison_idempotence (SK_DEBUG : bool) (kError : Z)
        (dict : SkShaderCodeDictionary) (fuel : nat)
        (ops1 ops2 : list BuildOp) (b : SkPaintParamsKeyBuilder) :
  error_snippet_ok SK_DEBUG kError dict ->
  run_ops SK_DEBUG kError fuel ops1 (SkPaintParamsKeyBuilder_new dict) = Ok b ->
  fIsValid b = false ->
  run_ops SK_DEBUG kError fuel ops2 b = Ok b
  /\ exists b',
       run_ops SK_DEBUG kError fuel ops2 b ≫= lockAsKey SK_DEBUG kError fuel
       = Ok (Key.mk [kError; 2] true, b')
       /\ isErrorKey kError (Key.mk [kError; 2] true) = true.
Proof.
  intros He Hrun Hv.
  apply run_ops_inv in Hrun as [Hinv Hd]; [|done|apply builder_inv_new].
  rewrite invalid_noop_ops by done. split; [done|].
  eexists. monad_ok. rewrite lockAsKey_invalid by done. split; [done|].
  unfold isErrorKey, Key_sizeInBytes, kBlockHeaderSizeInBytes. simpl.
  by rewrite !Z.eqb_refl.
Qed.

Lemma poison_idempotence_witness :
  run_ops true 0 1 [OpBegin 5; OpAdd 2 [1; 2]; OpEnd]
          (MkBuilder example_dict [0; 2] [] false 0%nat)
  = Ok (MkBuilder example_dict [0; 2] [] false 0%nat)
  /\ exists b',
       run_ops true 0 1 [OpBegin 5; OpAdd 2 [1; 2]; OpEnd]
               (MkBuilder example_dict [0; 2] [] false 0%nat)
         ≫= lockAsKey true 0 1
       = Ok (Key.mk [0; 2] true, b')
       /\ isErrorKey 0 (Key.mk [0; 2] true) = true.
Proof.
  apply (poison_idempotence true 0 example_dict 1 [OpEnd]).
  - apply example_error_snippet_ok.
  - reflexivity.
  - reflexivity.
Defined.

(** The two open builders of the boundary case are reached by building
    calls, in debug builds as in release builds. *)
Example example_open_255_reached (SK_DEBUG : bool) :
  run_ops SK_DEBUG 0 1 [OpBegin 3; OpAdd 253 (replicate 253 7)]
          (SkPaintParamsKeyBuilder_new example_dict)
  = Ok (example_open SK_DEBUG 3 253).
Proof. destruct SK_DEBUG; vm_compute; reflexivity. Qed.

Example example_open_256_reached (SK_DEBUG : bool) :
  run_ops SK_DEBUG 0 1 [OpBegin 4; OpAdd 254 (replicate 254 7)]
          (SkPaintParamsKeyBuilder_new example_dict)
  = Ok (example_open SK_DEBUG 4 254).
Proof. destruct SK_DEBUG; vm_compute; reflexivity. Qed.

(** C3 (size boundary).  On an open frame [endBlock] computes the block
    size as the buffer length minus the frame's header offset.  Up to 255
    bytes it patches that size at [headerOffset + 1] and pops the frame,
    changing nothing else; from 256 bytes on it latches the invalid flag
    and leaves exactly the error block in the buffer and an empty stack. *)
Theorem endBlock_size_boundary (SK_DEBUG : bool) (kError : Z) (fuel : nat)
        (dict : SkShaderCodeDictionary) (d : list Z)
        (back : Frame.t) (rest : list Frame.t) :
  error_snippet_ok SK_DEBUG kError dict ->
  0 <= Frame.fHeaderOffset back ->
  Frame.fHeaderOffset back + 1 < Z.of_nat (length d) ->
  (SK_DEBUG = true ->
   endBlock_checks (MkBuilder dict d (back :: rest) true 0%nat) = true) ->
  (Z.of_nat (length d) - Frame.fHeaderOffset back <= 255 ->
   endBlock SK_DEBUG kError fuel (MkBuilder dict d (back :: rest) true 0%nat)
   = Ok (MkBuilder dict
           (<[Z.to_nat (Frame.fHeaderOffset back + 1)
              := Z.of_nat (length d) - Frame.fHeaderOffset back]> d)
           rest true 0%nat))
  /\ (255 < Z.of_nat (length d) - Frame.fHeaderOffset back ->
      endBlock SK_DEBUG kError (S fuel) (MkBuilder dict d (back :: rest) true 0%nat)
      = Ok (MkBuilder dict [kError; 2] [] false 0%nat)).
Proof.
  intros He H0 H1 Hd. split; intros Hsz; unfold endBlock.
  - by apply endBlock_body_ok.
  - rewrite endBlock_body_too_large by done.
    by rewrite makeInvalid_poisons.
Qed.

Lemma endBlock_size_boundary_witness :
  endBlock true 0 1 (example_open true 3 253)
  = Ok (MkBuilder example_dict (3 :: 255 :: replicate 253 7) [] true 0%nat)
  /\ endBlock true 0 1 (example_open true 4 254)
     = Ok (MkBuilder example_dict [0; 2] [] false 0%nat).
Proof.
  split.
  - apply (endBlock_size_boundary true 0 1 example_dict (3 :: 0 :: replicate 253 7)).
    + apply example_error_snippet_ok.
    + simpl. lia.
    + simpl. lia.
    + intros _. reflexivity.
    + simpl. lia.
  - apply (endBlock_size_boundary true 0 0 example_dict (4 :: 0 :: replicate 254 7)).
    + apply example_error_snippet_ok.
    + simpl. lia.
    + simpl. lia.
    + intros _. reflexivity.
    + simpl. lia.
Defined.

(** C4 (writes colour).  When [toShaderInfo] completes, the sink is marked
    as writing colour exactly when it already was or some block header the
    walk read carries a snippet ID other than [kDepthStencilOnlyDraw]. *)
Theorem writes_color_iff_non_marker (SK_DEBUG : bool) (kDepthStencilOnlyDraw : Z)
        (dict : SkShaderCodeDictionary) (key : SkPaintParamsKey)
        (fuel : nat) (r0 r : SkShaderInfo) :
  toShaderInfo SK_DEBUG kDepthStencilOnlyDraw fuel dict key r0 = Ok r ->
  (fWritesColor r = true <->
   fWritesColor r0 = true \/
   exists off id,
     reads dict key off /\ byte_at (Key.fData key) off = Some id
     /\ id <> kDepthStencilOnlyDraw).
Proof. apply toShaderInfo_flag. Qed.

Lemma writes_color_iff_non_marker_witness :
  fWritesColor
    (MkShaderInfo [Build_SkShaderSnippet "depth_stencil_only" 0 [];
                   Build_SkShaderSnippet "depth_stencil_only" 0 []] false) = true <->
  fWritesColor (MkShaderInfo [] false) = true \/
  exists off id,
    reads example_dict (SkPaintParamsKey_raw [2; 2; 2; 2]) off
    /\ byte_at [2; 2; 2; 2] off = Some id /\ id <> 2.
Proof.
  apply (writes_color_iff_non_marker true 2 example_dict
           (SkPaintParamsKey_raw [2; 2; 2; 2]) 3
           (MkShaderInfo [] false)
           (MkShaderInfo [Build_SkShaderSnippet "depth_stencil_only" 0 [];
                          Build_SkShaderSnippet "depth_stencil_only" 0 []] false)).
  reflexivity.
Defined.

(** C5 (unknown block in the dump).  On a key whose only block has an ID
    without dictionary entry, the dump prints the "unknown block" line and
    then dereferences the missing entry: the visit does not complete. *)
Example dump_unknown_block_faults :
  dump 5 example_dict (SkPaintParamsKey_raw [9; 2]) []
  = ([("--------------------------------------\n"%string, []);
      ("SkPaintParamsKey (%dB):\n"%string, [ArgInt 2]);
      ("unknown block! (%dB)\n"%string, [ArgInt 2])],
     Fault NullDeref).
Proof. reflexivity. Qed.

(** C6 (equality).  [operator==] holds exactly when the two byte
    sequences have the same length and the same byte at every position,
    whatever the origin of the keys; keys with the same bytes are equal,
    and changing one byte of a key makes it unequal to the original. *)
Theorem operator_eq_bytewise (this that : SkPaintParamsKey) :
  (operator_eq this that = true <->
   length (Key.fData this) = length (Key.fData that)
   /\ forall i : nat, Key.fData this !! i = Key.fData that !! i)
  /\ (Key.fData this = Key.fData that -> operator_eq this that = true)
  /\ (forall (i : nat) (x v : Z),
        Key.fData this !! i = Some x -> v <> x ->
        Key.fData that = <[i := v]> (Key.fData this) ->
        operator_eq this that = false).
Proof.
  split; [|split].
  - rewrite operator_eq_true_iff. split.
    + intros ->. done.
    + intros [_ H]. by apply list_eq.
  - by rewrite operator_eq_true_iff.
  - intros i x v Hx Hv Hthat.
    destruct (operator_eq this that) eqn:E; [|done]. exfalso.
    apply operator_eq_true_iff in E. rewrite Hthat in E.
    apply (f_equal (fun l => l !! i)) in E.
    rewrite list_lookup_insert_eq in E by (by eapply lookup_lt_Some).
    congruence.
Qed.

Lemma operator_eq_bytewise_witness :
  operator_eq (Key.mk [5; 4; 1; 2] true) (SkPaintParamsKey_raw [5; 4; 1; 2]) = true
  /\ operator_eq (Key.mk [5; 4; 1; 2] true) (SkPaintParamsKey_raw [5; 4; 1; 3]) = false.
Proof.
  split.
  - apply (operator_eq_bytewise (Key.mk [5; 4; 1; 2] true) (SkPaintParamsKey_raw [5; 4; 1; 2])).
    reflexivity.
  - apply (proj2 (proj2 (operator_eq_bytewise (Key.mk [5; 4; 1; 2] true)
                                               (SkPaintParamsKey_raw [5; 4; 1; 3])))
                 3%nat 2 3).
    + reflexivity.
    + lia.
    + reflexivity.
Defined.

(** C7 (concrete example).  With a dictionary declaring ID 5 with no
    child and a two-byte field, and ID 1 with one child and a one-byte
    field: building block 5 with payload [1; 2] yields [5; 4; 1; 2];
    building block 1 around it with trailing payload [9] yields
    [1; 7; 5; 4; 1; 2; 9]; decoding the latter records entry 1, then
    entry 5. *)
Theorem concrete_example (SK_DEBUG : bool) (kError kDepthStencilOnlyDraw : Z)
        (dict : SkShaderCodeDictionary) (fuel : nat) (e1 e5 : SkShaderSnippet) :
  5 <= maxCodeSnippetID dict ->
  getEntry dict 5 = Some e5 -> fNumChildren e5 = 0 ->
  map fCount (fDataPayloadExpectations e5) = [2] ->
  getEntry dict 1 = Some e1 -> fNumChildren e1 = 1 ->
  map fCount (fDataPayloadExpectations e1) = [1] ->
  (exists b',
     run_ops SK_DEBUG kError fuel [OpBegin 5; OpAdd 2 [1; 2]; OpEnd]
             (SkPaintParamsKeyBuilder_new dict)
       ≫= lockAsKey SK_DEBUG kError fuel
     = Ok (Key.mk [5; 4; 1; 2] true, b'))
  /\ (exists b',
        run_ops SK_DEBUG kError fuel
                [OpBegin 1; OpBegin 5; OpAdd 2 [1; 2]; OpEnd; OpAdd 1 [9]; OpEnd]
                (SkPaintParamsKeyBuilder_new dict)
          ≫= lockAsKey SK_DEBUG kError fuel
        = Ok (Key.mk [1; 7; 5; 4; 1; 2; 9] true, b'))
  /\ (exists r,
        toShaderInfo SK_DEBUG kDepthStencilOnlyDraw 7 dict
                     (Key.mk [1; 7; 5; 4; 1; 2; 9] true) (MkShaderInfo [] false) = Ok r
        /\ fEntries r = [e1; e5]).
Proof.
  intros Hmax H5 Hn5 Hp5 H1 Hn1 Hp1.
  assert (Hleaf : conforms dict example_leaf).
  { eapply conforms_block with (e := e5);
      try done; try lia; try (unfold kMaxBlockSize; simpl; lia). }
  assert (Htree : conforms dict example_tree).
  { eapply conforms_block with (e := e1);
      try done; try lia; try (unfold kMaxBlockSize; simpl; lia).
    all: by constructor. }
  split; [|split].
  - eexists. unfold SkPaintParamsKeyBuilder_new.
    rewrite (build_forest_ok SK_DEBUG kError fuel dict [example_leaf]) by (by constructor).
    monad_ok. by rewrite lockAsKey_closed.
  - eexists. unfold SkPaintParamsKeyBuilder_new.
    rewrite (build_forest_ok SK_DEBUG kError fuel dict [example_tree]) by (by constructor).
    monad_ok. by rewrite lockAsKey_closed.
  - eexists. split.
    + apply (decode_forest SK_DEBUG kDepthStencilOnlyDraw dict [example_tree]);
        [by constructor | simpl; lia].
    + unfold visit_result, entries_of. simpl. by rewrite H1, H5.
Qed.

Lemma concrete_example_witness :
  (exists b',
     run_ops true 0 1 [OpBegin 5; OpAdd 2 [1; 2]; OpEnd]
             (SkPaintParamsKeyBuilder_new example_dict)
       ≫= lockAsKey true 0 1
     = Ok (Key.mk [5; 4; 1; 2] true, b'))
  /\ (exists b',
        run_ops true 0 1
                [OpBegin 1; OpBegin 5; OpAdd 2 [1; 2]; OpEnd; OpAdd 1 [9]; OpEnd]
                (SkPaintParamsKeyBuilder_new example_dict)
          ≫= lockAsKey true 0 1
        = Ok (Key.mk [1; 7; 5; 4; 1; 2; 9] true, b'))
  /\ (exists r,
        toShaderInfo true 2 7 example_dict
                     (Key.mk [1; 7; 5; 4; 1; 2; 9] true) (MkShaderInfo [] false) = Ok r
        /\ fEntries r
           = [Build_SkShaderSnippet "blend" 1 [Build_DataPayloadField "mode" kByte 1];
              Build_SkShaderSnippet "solid" 0 [Build_DataPayloadField "color" kByte 2]]).
Proof.
  apply (concrete_example true 0 2 example_dict 1); reflexivity.
Defined.

(** C8 (unbalanced detection).  [endBlock] on an empty frame stack
    latches the invalid flag; [lockAsKey] on a builder with an open block
    does not close it but produces the error key, and leaves the builder
    valid with an empty frame stack. *)
Theorem unbalanced_detection (SK_DEBUG : bool) (kError : Z)
        (dict : SkShaderCodeDictionary) (fuel : nat) :
  error_snippet_ok SK_DEBUG kError dict ->
  (forall d : list Z,
     endBlock SK_DEBUG kError (S fuel) (MkBuilder dict d [] true 0%nat)
     = Ok (MkBuilder dict [kError; 2] [] false 0%nat))
  /\ (forall (ops : list BuildOp) (b : SkPaintParamsKeyBuilder),
        run_ops SK_DEBUG kError (S fuel) ops (SkPaintParamsKeyBuilder_new dict) = Ok b ->
        fStack b <> [] ->
        exists b',
          lockAsKey SK_DEBUG kError (S fuel) b = Ok (Key.mk [kError; 2] true, b')
          /\ fIsValid b' = true /\ fStack b' = []).
Proof.
  intros He. split.
  - intros d. unfold endBlock, endBlock_body, isValid. cbn [fIsValid negb fStack].
    by rewrite makeInvalid_poisons.
  - intros ops b Hrun Hs.
    apply run_ops_inv in Hrun as [[Hl Hi] Hd]; [|done|apply builder_inv_new].
    simpl in Hd.
    destruct (fIsValid b) eqn:Hv.
    + eexists. rewrite lockAsKey_open; [|by rewrite Hd|done..]. done.
    + destruct (Hi eq_refl) as [_ Hnil]. done.
Qed.

Lemma unbalanced_detection_witness :
  (forall d : list Z,
     endBlock true 0 1 (MkBuilder example_dict d [] true 0%nat)
     = Ok (MkBuilder example_dict [0; 2] [] false 0%nat))
  /\ (forall (ops : list BuildOp) (b : SkPaintParamsKeyBuilder),
        run_ops true 0 1 ops (SkPaintParamsKeyBuilder_new example_dict) = Ok b ->
        fStack b <> [] ->
        exists b',
          lockAsKey true 0 1 b = Ok (Key.mk [0; 2] true, b')
          /\ fIsValid b' = true /\ fStack b' = []).
Proof.
  apply (unbalanced_detection true 0 example_dict 0).
  apply example_error_snippet_ok.
Defined.




(** C10 (entries are required).  A block visit whose header ID has no
    dictionary entry dereferences the missing entry, whatever else the key
    holds; and if every snippet ID the walk reads from the key has an
    entry, [toShaderInfo] never dereferences a missing entry. *)
Theorem toShaderInfo_requires_entries (SK_DEBUG : bool) (kDepthStencilOnlyDraw : Z)
        (dict : SkShaderCodeDictionary) (key : SkPaintParamsKey) :
  (forall fuel off r id bs,
     readCodeSnippetID key off = Ok (id, bs) ->
     getEntry dict id = None ->
     AddBlockToShaderInfo SK_DEBUG kDepthStencilOnlyDraw (S fuel) dict key off r
     = Fault NullDeref)
  /\ (ids_have_entries dict key ->
      forall fuel r,
        toShaderInfo SK_DEBUG kDepthStencilOnlyDraw fuel dict key r <> Fault NullDeref).
Proof.
  split.
  - intros fuel off r id bs. apply AddBlock_absent_entry.
  - intros Hall fuel r. unfold toShaderInfo.
    apply toShaderInfo_loop_no_null_deref; [done|]. intros H. by apply top_first.
Qed.

Lemma example_leaf_key_reads off :
  reads example_dict (SkPaintParamsKey_raw [5; 4; 1; 2]) off -> off = 0.
Proof.
  induction 1 as [off Htop | off id e i co _ IH Hid He Hi Hco].
  - induction Htop as [|off size _ IH Hsz Hlt]; [done|].
    subst off. injection Hsz as <-. unfold Key_sizeInBytes in Hlt. simpl in Hlt. lia.
  - subst off. injection Hid as <-. injection He as <-. simpl in Hi. lia.
Qed.

Lemma toShaderInfo_requires_entries_witness :
  AddBlockToShaderInfo true 2 1 example_dict (SkPaintParamsKey_raw [9; 2]) 0
                       (MkShaderInfo [] false)
  = Fault NullDeref
  /\ forall fuel r,
       toShaderInfo true 2 fuel example_dict (SkPaintParamsKey_raw [5; 4; 1; 2]) r
       <> Fault NullDeref.
Proof.
  split.
  - apply (proj1 (toShaderInfo_requires_entries true 2 example_dict
                                                (SkPaintParamsKey_raw [9; 2]))
                 0%nat 0 (MkShaderInfo [] false) 9 2).
    + reflexivity.
    + reflexivity.
  - apply (toShaderInfo_requires_entries true 2 example_dict
                                         (SkPaintParamsKey_raw [5; 4; 1; 2])).
    intros off id Hr Hb. apply example_leaf_key_reads in Hr. subst off.
    injection Hb as <-. discriminate.
Defined.

(** * Further properties of the code *)

(** ** The builder's invariant *)

Lemma byte_at_app_l d x i :
  i < Z.of_nat (length d) -> byte_at (d ++ x) i = byte_at d i.
Proof.
  intros Hi. unfold byte_at, index_at. destruct (Z.ltb_spec i 0); [done|].
  apply lookup_app_l. lia.
Qed.

Lemma byte_at_insert_ne d k v i :
  i <> Z.of_nat k -> byte_at (<[k := v]> d) i = byte_at d i.
Proof.
  intros Hi. unfold byte_at, index_at. destruct (Z.ltb_spec i 0); [done|].
  apply list_lookup_insert_ne. lia.
Qed.

Lemma byte_at_insert_eq d k v :
  (k < length d)%nat -> byte_at (<[k := v]> d) (Z.of_nat k) = Some v.
Proof.
  intros Hk. unfold byte_at. rewrite index_at_lookup.
  by apply list_lookup_insert_eq.
Qed.

Lemma frames_below_ext d d' bound st :
  frames_below d bound st ->
  (forall i, 0 <= i < bound -> byte_at d' i = byte_at d i) ->
  frames_below d' bound st.
Proof.
  revert bound. induction st as [|fr rest IH]; intros bound H Hext; [done|].
  destruct H as (H0 & H1 & H2 & H3 & H4). cbn [frames_below].
  repeat split; try done.
  - rewrite Hext by lia. done.
  - rewrite Hext by lia. done.
  - apply IH; [done|]. intros i Hi. apply Hext. lia.
Qed.

Lemma frames_below_weaken d bound bound' st :
  frames_below d bound st -> bound <= bound' -> frames_below d bound' st.
Proof.
  destruct st as [|fr rest]; [done|]. intros (H0 & H1 & H2 & H3 & H4) Hle.
  cbn [frames_below]. repeat split; try done. lia.
Qed.

Lemma frames_below_bottom d bound st fr :
  frames_below d bound st -> last st = Some fr ->
  0 <= Frame.fHeaderOffset fr /\ Frame.fHeaderOffset fr + 2 <= bound.
Proof.
  revert bound. induction st as [|fr0 rest IH]; intros bound H Hl; [done|].
  destruct H as (H0 & H1 & H2 & H3 & H4).
  destruct rest as [|fr1 rest].
  - injection Hl as <-. done.
  - change (last (fr0 :: fr1 :: rest)) with (last (fr1 :: rest)) in Hl.
    destruct (IH _ H4 Hl). lia.
Qed.

Lemma tiles_to_ext d d' stop off :
  tiles_to d stop off ->
  (forall i, 0 <= i < stop -> byte_at d' i = byte_at d i) ->
  tiles_to d' stop off.
Proof.
  intros Ht Hext. induction Ht as [|off size Hsz Hge Hfit _ IH]; [constructor|].
  eapply tiles_to_block; [|exact Hge|exact Hfit|exact IH].
  pose proof (byte_at_range _ _ _ Hsz). rewrite Hext by lia. done.
Qed.

Lemma tiles_to_snoc d stop off size :
  tiles_to d stop off ->
  byte_at d (stop + 1) = Some size -> 2 <= size ->
  tiles_to d (stop + size) off.
Proof.
  intros Ht Hsz Hge. induction Ht as [|off size' Hsz' Hge' Hfit _ IH].
  - eapply tiles_to_block; [exact Hsz|exact Hge|lia|constructor].
  - eapply tiles_to_block; [exact Hsz'|exact Hge'|lia|exact IH].
Qed.

Lemma tiles_to_tiles d off :
  tiles_to d (Z.of_nat (length d)) off -> tiles d off.
Proof.
  induction 1 as [|off size Hsz Hge Hfit _ IH].
  - by apply tiles_end.
  - by eapply tiles_block.
Qed.

Section Invariant.
Variable SK_DEBUG : bool.
Variable kError : Z.

(** What a successful [addBytes] on an open block did. *)
Lemma addBytes_body_shape mk n data b b' fr rest :
  addBytes_body SK_DEBUG mk n data b = Ok b' ->
  fIsValid b = true -> fStack b = fr :: rest ->
  fData b' = fData b ++ take (Z.to_nat n) data
  /\ 0 <= n <= Z.of_nat (length data)
  /\ same_mode b b'
  /\ exists fr', fStack b' = fr' :: rest
                 /\ Frame.fHeaderOffset fr' = Frame.fHeaderOffset fr
                 /\ Frame.fCodeSnippetID fr' = Frame.fCodeSnippetID fr.
Proof.
  intros H Hv Hs. unfold addBytes_body, isValid in H. rewrite Hv, Hs in H.
  cbn [negb] in H.
  apply bind_Ok_inv in H as (b1 & H1 & H).
  apply bind_Ok_inv in H as (_ & _ & H).
  destruct (_ && _) eqn:Hn in H; [|done]. injection H as <-.
  apply andb_prop in Hn as [Hn1 Hn2]. apply Z.leb_le in Hn1, Hn2.
  assert (Hb1 : fData b1 = fData b /\ same_mode b b1 /\
                exists fr', fStack b1 = fr' :: rest
                 /\ Frame.fHeaderOffset fr' = Frame.fHeaderOffset fr
                 /\ Frame.fCodeSnippetID fr' = Frame.fCodeSnippetID fr).
  { destruct SK_DEBUG.
    - apply bind_Ok_inv in H1 as (_ & _ & H1). injection H1 as <-.
      unfold update_back. rewrite Hs. unfold same_mode. simpl. eauto 10.
    - injection H1 as <-. unfold same_mode. eauto 10. }
  destruct Hb1 as (Hd & Hm & fr' & Hs' & Ho & Hi).
  unfold set_fData. cbn [fData fStack]. rewrite Hd.
  repeat split; try lia; try apply Hm. eauto.
Qed.

(** What a successful [beginBlock] with an ID in range did. *)
Lemma beginBlock_body_shape mk id b b' :
  beginBlock_body SK_DEBUG mk id b = Ok b' ->
  fIsValid b = true -> 0 <= id <= maxCodeSnippetID (fDict b) ->
  fData b' = fData b ++ [id mod 256; 0]
  /\ same_mode b b'
  /\ exists fr, fStack b' = fr :: fStack b
                /\ Frame.fHeaderOffset fr = Z.of_nat (length (fData b))
                /\ Frame.fCodeSnippetID fr = id.
Proof.
  intros H Hv Hr. unfold beginBlock_body, isValid in H. rewrite Hv in H.
  cbn [negb] in H.
  destruct (Z.ltb_spec id 0) as [?|_]; [lia|].
  rewrite Z.gtb_ltb in H.
  destruct (Z.ltb_spec (maxCodeSnippetID (fDict b)) id) as [?|_]; [lia|].
  cbn [orb] in H.
  apply bind_Ok_inv in H as (_ & _ & H).
  apply bind_Ok_inv in H as (_ & _ & H).
  apply bind_Ok_inv in H as (id8 & H8 & H).
  apply bind_Ok_inv in H8 as (_ & _ & H8). injection H8 as <-.
  apply bind_Ok_inv in H as (b1 & H1 & H).
  apply bind_Ok_inv in H as (b2 & H2 & H).
  unfold addByte_body in H1, H2.
  eapply addBytes_body_shape in H1 as (Hd1 & _ & Hm1 & fr1 & Hs1 & Ho1 & Hi1);
    [|done|reflexivity].
  eapply addBytes_body_shape in H2 as (Hd2 & _ & Hm2 & fr2 & Hs2 & Ho2 & Hi2);
    [|destruct Hm1 as (-> & _); done|exact Hs1].
  cbn [fData fStack set_fStack Frame.fHeaderOffset Frame.fCodeSnippetID] in *.
  assert (Hm : same_mode b b2).
  { eapply same_mode_trans; [|exact Hm2]. eapply same_mode_trans; [|exact Hm1].
    unfold same_mode. done. }
  assert (Hd : fData b2 = fData b ++ [id mod 256; 0]).
  { rewrite Hd2, Hd1. rewrite <- app_assoc. done. }
  destruct SK_DEBUG.
  - apply bind_Ok_inv in H as (exps & _ & H). injection H as <-.
    unfold update_back. rewrite Hs2. cbn [fData fStack set_fStack].
    split; [done|]. split.
    + eapply same_mode_trans; [exact Hm|]. unfold same_mode. done.
    + eexists. split; [reflexivity|]. cbn. split; [by rewrite Ho2, Ho1 | by rewrite Hi2, Hi1].
  - injection H as <-. split; [done|]. split; [done|].
    exists fr2. split; [done|]. split; [by rewrite Ho2, Ho1 | by rewrite Hi2, Hi1].
Qed.

(** What a successful [endBlock] on an open block did. *)
Lemma endBlock_body_shape mk b b' fr rest :
  endBlock_body SK_DEBUG mk b = Ok b' ->
  fIsValid b = true -> fStack b = fr :: rest ->
  (kMaxBlockSize < sizeInBytes b - Frame.fHeaderOffset fr /\ mk b = Ok b')
  \/ (sizeInBytes b - Frame.fHeaderOffset fr <= kMaxBlockSize
      /\ 0 <= Frame.fHeaderOffset fr + 1 < sizeInBytes b
      /\ fData b' = <[Z.to_nat (Frame.fHeaderOffset fr + 1)
                      := (sizeInBytes b - Frame.fHeaderOffset fr) mod 256]> (fData b)
      /\ fStack b' = rest
      /\ same_mode b b').
Proof.
  intros H Hv Hs. unfold endBlock_body, isValid in H. rewrite Hv, Hs in H.
  cbn [negb] in H.
  apply bind_Ok_inv in H as (_ & _ & H).
  apply bind_Ok_inv in H as (_ & _ & H).
  apply bind_Ok_inv in H as (_ & _ & H).
  apply bind_Ok_inv in H as (_ & _ & H).
  rewrite Z.gtb_ltb in H.
  destruct (Z.ltb_spec kMaxBlockSize (sizeInBytes b - Frame.fHeaderOffset fr)); [by left|].
  right. apply bind_Ok_inv in H as (d & Hw & H).
  apply bind_Ok_inv in H as (_ & _ & H). injection H as <-.
  unfold write_byte, kBlockSizeOffsetInBytes in Hw.
  destruct (_ && _) eqn:Hn in Hw; [|done]. injection Hw as <-.
  apply andb_prop in Hn as [Hn1 Hn2]. apply Z.leb_le in Hn1. apply Z.ltb_lt in Hn2.
  unfold sizeInBytes, same_mode, kBlockSizeOffsetInBytes. cbn. repeat split; try done; lia.
Qed.

Lemma builder_ok_poisoned b : fLockCount b = 0%nat -> builder_ok kError (poisoned kError b).
Proof. intros Hl. unfold builder_ok, poisoned. cbn. done. Qed.

Lemma bottom_offset_cons d fr st fr' :
  last st = Some fr' -> bottom_offset d (fr :: st) = Frame.fHeaderOffset fr'.
Proof.
  intros Hl. unfold bottom_offset. destruct st as [|x st]; [done|].
  change (last (fr :: x :: st)) with (last (x :: st)). by rewrite Hl.
Qed.

Lemma last_is_Some {A} (x : A) l : exists y, last (x :: l) = Some y.
Proof.
  revert x. induction l as [|z l IH]; intros x; [by exists x|].
  destruct (IH z) as [y Hy]. exists y. done.
Qed.

Lemma run_op_ok fuel op b b' :
  error_snippet_ok SK_DEBUG kError (fDict b) ->
  builder_ok kError b ->
  run_op SK_DEBUG kError fuel op b = Ok b' ->
  builder_ok kError b' /\ fDict b' = fDict b.
Proof.
  intros He [Hl Hok] H.
  destruct (fIsValid b) eqn:Hv.
  2:{ rewrite invalid_noop in H by done. injection H as <-.
      split; [|done]. split; [done|]. by rewrite Hv. }
  destruct Hok as [Hfr Hti].
  assert (Hpoison : forall b1, makeInvalid SK_DEBUG kError fuel b = Ok b1 ->
                               builder_ok kError b1 /\ fDict b1 = fDict b).
  { intros b1 Hm. apply makeInvalid_inv in Hm; [|done..]. subst b1.
    split; [by apply builder_ok_poisoned | done]. }
  destruct op as [id | n data |]; cbn [run_op] in H.
  - (* beginBlock *)
    unfold beginBlock in H.
    destruct (decide (0 <= id <= maxCodeSnippetID (fDict b))) as [Hr|Hr].
    + apply beginBlock_body_shape in H as (Hd & (Hv' & Hl' & Hdict) & fr & Hs & Ho & Hi);
        [|done|done].
      split; [|done]. split; [congruence|]. rewrite Hv', Hv, Hd, Hs.
      assert (Hext : forall i, 0 <= i < Z.of_nat (length (fData b)) ->
                byte_at (fData b ++ [id mod 256; 0]) i = byte_at (fData b) i).
      { intros i Hi'. apply byte_at_app_l. lia. }
      split.
      * cbn [frames_below]. rewrite Ho, Hi, length_app. cbn [length].
        split; [lia|]. split; [lia|]. split.
        { unfold byte_at. rewrite index_at_lookup, lookup_app_r by lia.
          by rewrite Nat.sub_diag. }
        split.
        { replace (Z.of_nat (length (fData b)) + 1)
            with (Z.of_nat (length (fData b) + 1)) by lia.
          unfold byte_at. rewrite index_at_lookup, lookup_app_r by lia.
          replace (length (fData b) + 1 - length (fData b))%nat with 1%nat by lia. done. }
        eapply frames_below_ext; [exact Hfr | exact Hext].
      * destruct (fStack b) as [|x st] eqn:Hst.
        { unfold bottom_offset in *. cbn [last] in *. rewrite Ho.
          eapply tiles_to_ext; [exact Hti | exact Hext]. }
        { destruct (last_is_Some x st) as [y Hy].
          rewrite (bottom_offset_cons _ _ _ _ Hy).
          unfold bottom_offset in Hti. rewrite Hy in Hti.
          destruct (frames_below_bottom _ _ _ _ Hfr Hy).
          eapply tiles_to_ext; [exact Hti|]. intros i Hi'. apply Hext. lia. }
    + unfold beginBlock_body, isValid in H. rewrite Hv in H. cbn [negb] in H.
      rewrite Z.gtb_ltb in H.
      destruct (Z.ltb_spec id 0); [by apply Hpoison|].
      destruct (Z.ltb_spec (maxCodeSnippetID (fDict b)) id); [by apply Hpoison|]. lia.
  - (* addBytes *)
    unfold addBytes in H.
    destruct (fStack b) as [|fr rest] eqn:Hs.
    + unfold addBytes_body, isValid in H. rewrite Hv, Hs in H. by apply Hpoison.
    + eapply addBytes_body_shape in H
        as (Hd & Hn & (Hv' & Hl' & Hdict) & fr' & Hs' & Ho & Hi); [|done|exact Hs].
      split; [|done]. split; [congruence|]. rewrite Hv', Hv, Hd, Hs'.
      assert (Hext : forall i, 0 <= i < Z.of_nat (length (fData b)) ->
                byte_at (fData b ++ take (Z.to_nat n) data) i = byte_at (fData b) i).
      { intros i Hi'. apply byte_at_app_l. lia. }
      destruct Hfr as (H0 & H1 & H2 & H3 & H4). split.
      * cbn [frames_below]. rewrite Ho, Hi, length_app.
        split; [lia|]. split; [lia|].
        rewrite !Hext by lia. split; [done|]. split; [done|].
        eapply frames_below_ext; [exact H4|]. intros i Hi'. apply Hext. lia.
      * assert (Hb : bottom_offset (fData b ++ take (Z.to_nat n) data) (fr' :: rest)
                     = bottom_offset (fData b) (fr :: rest)
                     /\ bottom_offset (fData b) (fr :: rest) + 2 <= Z.of_nat (length (fData b))).
        { destruct rest as [|x st].
          - unfold bottom_offset. cbn [last]. split; [done|lia].
          - destruct (last_is_Some x st) as [y Hy].
            rewrite !(bottom_offset_cons _ _ _ _ Hy).
            destruct (frames_below_bottom _ _ _ _ H4 Hy). split; [done|lia]. }
        destruct Hb as [-> Hb].
        eapply tiles_to_ext; [exact Hti|]. intros i Hi'. apply Hext. lia.
  - (* endBlock *)
    unfold endBlock in H.
    destruct (fStack b) as [|fr rest] eqn:Hs.
    + unfold endBlock_body, isValid in H. rewrite Hv, Hs in H. by apply Hpoison.
    + eapply endBlock_body_shape in H as [[_ H] | (Hsz & Hh & Hd & Hs' & (Hv' & Hl' & Hdict))];
        [by apply Hpoison| |done|exact Hs].
      split; [|done]. split; [congruence|]. rewrite Hv', Hv, Hd, Hs'.
      destruct Hfr as (H0 & H1 & H2 & H3 & H4).
      unfold sizeInBytes, kMaxBlockSize in *.
      set (h := Frame.fHeaderOffset fr) in *.
      set (len := Z.of_nat (length (fData b))) in *.
      rewrite Z.mod_small by lia.
      assert (Hext : forall i, 0 <= i < h + 1 ->
                byte_at (<[Z.to_nat (h + 1) := len - h]> (fData b)) i = byte_at (fData b) i).
      { intros i Hi'. apply byte_at_insert_ne. lia. }
      rewrite length_insert. fold len. split.
      * eapply frames_below_weaken; [|apply Z.lt_le_incl, Hh].
        eapply frames_below_weaken with (bound := h); [|lia].
        eapply frames_below_ext; [exact H4|]. intros i Hi'. apply Hext. lia.
      * destruct rest as [|x st].
        { unfold bottom_offset in *. cbn [last] in *. rewrite length_insert. fold len. fold h in Hti.
          replace len with (h + (len - h)) at 2 by lia.
          apply tiles_to_snoc; [| |lia].
          - eapply tiles_to_ext; [exact Hti|]. intros i Hi'. apply Hext. lia.
          - replace (h + 1) with (Z.of_nat (Z.to_nat (h + 1))) at 2 by lia.
            apply byte_at_insert_eq. lia. }
        { destruct (last_is_Some x st) as [y Hy].
          unfold bottom_offset in *.
          change (last (fr :: x :: st)) with (last (x :: st)) in Hti.
          rewrite Hy in *.
          destruct (frames_below_bottom _ _ _ _ H4 Hy).
          eapply tiles_to_ext; [exact Hti|]. intros i Hi'. apply Hext. lia. }
Qed.

Lemma run_ops_ok fuel ops b b' :
  error_snippet_ok SK_DEBUG kError (fDict b) ->
  builder_ok kError b ->
  run_ops SK_DEBUG kError fuel ops b = Ok b' ->
  builder_ok kError b' /\ fDict b' = fDict b.
Proof.
  revert b. induction ops as [|op ops IH]; cbn [run_ops]; intros b He Hok H.
  - injection H as <-. done.
  - apply bind_Ok_inv in H as (b1 & H1 & H).
    apply run_op_ok in H1 as [Hok1 Hd1]; [|done..].
    apply IH in H as [? ?]; [|by rewrite Hd1|done]. split; [done|congruence].
Qed.

Lemma builder_ok_new dict : builder_ok kError (SkPaintParamsKeyBuilder_new dict).
Proof.
  unfold builder_ok, SkPaintParamsKeyBuilder_new, bottom_offset. cbn.
  split; [done|]. split; [done|]. constructor.
Qed.

End Invariant.

Lemma tiles_error_key kError : tiles [kError; 2] 0.
Proof.
  apply (tiles_block _ 0 2); [done|lia|simpl; lia|]. by apply tiles_end.
Qed.

Lemma lockAsKey_Ok_inv SK_DEBUG kError fuel b key b' :
  error_snippet_ok SK_DEBUG kError (fDict b) ->
  builder_ok kError b ->
  lockAsKey SK_DEBUG kError fuel b = Ok (key, b') ->
  (Key.fData key = [kError; 2]
   \/ (fIsValid b = true /\ fStack b = [] /\ Key.fData key = fData b))
  /\ fData b' = Key.fData key /\ fIsValid b' = true /\ fStack b' = []
  /\ fLockCount b' = 1%nat /\ fDict b' = fDict b.
Proof.
  intros He [Hl Hok] H. unfold lockAsKey in H.
  apply bind_Ok_inv in H as (b1 & H1 & H).
  apply bind_Ok_inv in H as (_ & _ & H). injection H as <- <-.
  cbn [Key.fData fData fStack fIsValid fLockCount fDict lock set_fLockCount set_fStack set_fIsValid].
  destruct (fStack b) as [|fr rest] eqn:Hs.
  - injection H1 as <-. rewrite Hl. repeat split; try done.
    destruct (fIsValid b); [by right|]. left. by destruct Hok.
  - destruct (fIsValid b) eqn:Hv; [|by destruct Hok].
    apply makeInvalid_inv in H1; [|done..]. subst b1. cbn. rewrite Hl.
    repeat split; try done. by left.
Qed.

Lemma locked_key_tiles kError b key :
  builder_ok kError b ->
  (Key.fData key = [kError; 2]
   \/ (fIsValid b = true /\ fStack b = [] /\ Key.fData key = fData b)) ->
  tiles (Key.fData key) 0.
Proof.
  intros [_ Hok] [-> | (Hv & Hs & ->)]; [apply tiles_error_key|].
  rewrite Hv, Hs in Hok. destruct Hok as [_ Ht]. by apply tiles_to_tiles.
Qed.

(** X1 (open frames stay in place).  Whatever sequence of [beginBlock],
    [addBytes] and [endBlock] calls a fresh builder receives, in a debug
    or a release build, if the calls complete then the builder is
    unlocked and, while it is valid, every frame of its stack points at a
    two-byte header inside the buffer that holds the frame's ID (as a
    byte) and a size byte still 0, the frames being nested innermost
    first; once it is invalid the stack is empty. *)
Theorem open_frames_in_place (SK_DEBUG : bool) (kError : Z)
        (dict : SkShaderCodeDictionary) (fuel : nat) (ops : list BuildOp)
        (b : SkPaintParamsKeyBuilder) :
  error_snippet_ok SK_DEBUG kError dict ->
  run_ops SK_DEBUG kError fuel ops (SkPaintParamsKeyBuilder_new dict) = Ok b ->
  fLockCount b = 0%nat
  /\ (fIsValid b = true ->
      frames_below (fData b) (Z.of_nat (length (fData b))) (fStack b))
  /\ (fIsValid b = false -> fStack b = []).
Proof.
  intros He H. apply run_ops_ok in H as [[Hl Hok] _]; [|done|apply builder_ok_new].
  split; [done|]. split.
  - intros Hv. rewrite Hv in Hok. by destruct Hok.
  - intros Hv. rewrite Hv in Hok. by destruct Hok.
Qed.

Lemma open_frames_in_place_witness :
  fLockCount example_two_open = 0%nat
  /\ (fIsValid example_two_open = true ->
      frames_below (fData example_two_open)
                   (Z.of_nat (length (fData example_two_open)))
                   (fStack example_two_open))
  /\ (fIsValid example_two_open = false -> fStack example_two_open = []).
Proof.
  apply (open_frames_in_place true 0 example_dict 1 [OpBegin 1; OpBegin 5]
                              example_two_open).
  - apply example_error_snippet_ok.
  - reflexivity.
Defined.

(** X2 (built keys are partitioned by their size bytes).  Any sequence of
    building calls on a fresh builder followed by [lockAsKey] yields, if
    it completes, a key whose top-level stored sizes are each at least 2
    and step exactly from offset 0 to the end of the buffer; the builder
    left behind holds the key's bytes, is valid and has an empty
    stack.  The calls need not be balanced or well formed. *)
Theorem built_keys_are_tiled (SK_DEBUG : bool) (kError : Z)
        (dict : SkShaderCodeDictionary) (fuel : nat) (ops : list BuildOp)
        (key : SkPaintParamsKey) (b' : SkPaintParamsKeyBuilder) :
  error_snippet_ok SK_DEBUG kError dict ->
  run_ops SK_DEBUG kError fuel ops (SkPaintParamsKeyBuilder_new dict)
    ≫= lockAsKey SK_DEBUG kError fuel = Ok (key, b') ->
  tiles (Key.fData key) 0
  /\ fData b' = Key.fData key /\ fIsValid b' = true /\ fStack b' = [].
Proof.
  intros He H. apply bind_Ok_inv in H as (b & Hrun & H).
  apply run_ops_ok in Hrun as [Hok Hd]; [|done|apply builder_ok_new].
  apply lockAsKey_Ok_inv in H as (Hk & Hd' & Hv' & Hs' & _); [|by rewrite Hd|done].
  split; [|done]. by apply (locked_key_tiles kError b).
Qed.

Lemma built_keys_are_tiled_witness :
  tiles (Key.fData example_flat_key) 0
  /\ fData example_flat_builder = Key.fData example_flat_key
  /\ fIsValid example_flat_builder = true /\ fStack example_flat_builder = [].
Proof.
  apply (built_keys_are_tiled true 0 example_dict 1 example_flat_ops
                              example_flat_key example_flat_builder).
  - apply example_error_snippet_ok.
  - reflexivity.
Defined.

(** *** Release builds never fault *)

Lemma run_op_total kError fuel op b :
  error_snippet_ok false kError (fDict b) ->
  builder_ok kError b -> op_args_ok op ->
  exists b', run_op false kError (S fuel) op b = Ok b'.
Proof.
  intros He [Hl Hok] Hop.
  destruct (fIsValid b) eqn:Hv.
  2:{ exists b. by apply invalid_noop. }
  destruct Hok as [Hfr _].
  assert (Hp : makeInvalid false kError (S fuel) b = Ok (poisoned kError b))
    by (by apply makeInvalid_poisons).
  destruct b as [dict d st v lk]. cbn in Hl, Hv, Hfr, He. subst v lk.
  destruct op as [id | n data |]; cbn [run_op].
  - destruct (decide (0 <= id <= maxCodeSnippetID dict)) as [Hr|Hr].
    + eexists. unfold beginBlock. by apply (beginBlock_body_ok false _ _ _ _ _ []).
    + eexists. unfold beginBlock, beginBlock_body, isValid. cbn [fIsValid negb fDict].
      rewrite Z.gtb_ltb.
      destruct (Z.ltb_spec id 0); [exact Hp|].
      destruct (Z.ltb_spec (maxCodeSnippetID dict) id); [exact Hp|]. lia.
  - destruct st as [|fr rest].
    + eexists. unfold addBytes, addBytes_body, isValid. cbn [fIsValid negb fStack]. exact Hp.
    + eexists. unfold addBytes. by apply addBytes_body_ok.
  - destruct st as [|fr rest].
    + eexists. unfold endBlock, endBlock_body, isValid. cbn [fIsValid negb fStack]. exact Hp.
    + destruct Hfr as (H0 & H1 & _).
      destruct (decide (Z.of_nat (length d) - Frame.fHeaderOffset fr <= kMaxBlockSize)).
      * eexists. unfold endBlock. apply endBlock_body_ok; try done. lia.
      * eexists. unfold endBlock. rewrite endBlock_body_too_large; [exact Hp|lia|done].
Qed.

Lemma run_ops_total kError fuel ops : forall b,
  error_snippet_ok false kError (fDict b) ->
  builder_ok kError b -> Forall op_args_ok ops ->
  exists b', run_ops false kError (S fuel) ops b = Ok b'.
Proof.
  induction ops as [|op ops IH]; intros b He Hok Hops; cbn [run_ops]; [by exists b|].
  apply Forall_cons in Hops as [Hop Hops].
  destruct (run_op_total kError fuel op b He Hok Hop) as [b1 H1]. rewrite H1. monad_ok.
  apply run_op_ok in H1 as [Hok1 Hd1]; [|done..].
  apply IH; [by rewrite Hd1|done|done].
Qed.

(** X3 (release builds never fault).  With the assertions compiled out,
    any sequence of building calls whose [addBytes] calls are handed at
    least [numBytes] bytes, followed by [lockAsKey], produces a key:
    misuse is answered by the error key, never by a fault, and
    [makeInvalid] needs one level of recursion only. *)
Theorem release_build_never_faults (kError : Z) (dict : SkShaderCodeDictionary)
        (fuel : nat) (ops : list BuildOp) :
  0 <= kError <= maxCodeSnippetID dict -> kError < 256 ->
  Forall op_args_ok ops ->
  exists key b',
    run_ops false kError (S fuel) ops (SkPaintParamsKeyBuilder_new dict)
      ≫= lockAsKey false kError (S fuel) = Ok (key, b').
Proof.
  intros Hr H8 Hops.
  assert (He : error_snippet_ok false kError dict).
  { split; [done|]. split; [done|]. intros [=]. }
  destruct (run_ops_total kError fuel ops (SkPaintParamsKeyBuilder_new dict))
    as [b Hb]; [done|apply builder_ok_new|done|].
  rewrite Hb. monad_ok.
  apply run_ops_ok in Hb as [[Hl Hok] Hd]; [|done|apply builder_ok_new].
  unfold lockAsKey. destruct (fStack b) eqn:Hs.
  - monad_ok. unfold SkASSERT. cbn. eauto.
  - destruct (fIsValid b) eqn:Hv; [|by destruct Hok].
    rewrite makeInvalid_poisons; [|by rewrite Hd|done|done].
    monad_ok. unfold SkASSERT. cbn. eauto.
Qed.

Lemma release_build_never_faults_witness :
  exists key b',
    run_ops false 0 1 [OpAdd 1 [7]; OpEnd; OpBegin 9; OpBegin 5; OpBegin 5]
            (SkPaintParamsKeyBuilder_new example_dict)
      ≫= lockAsKey false 0 1 = Ok (key, b').
Proof.
  apply (release_build_never_faults 0 example_dict 0).
  - simpl. lia.
  - lia.
  - repeat constructor; simpl; lia.
Defined.

(** *** The bytes of the buffer *)

Section Bytes.
Variable SK_DEBUG : bool.
Variable kError : Z.

Lemma is_bytes_app d1 d2 : is_bytes d1 -> is_bytes d2 -> is_bytes (d1 ++ d2).
Proof. unfold is_bytes. intros. by apply Forall_app. Qed.

Lemma is_bytes_take n d : is_bytes d -> is_bytes (take n d).
Proof. unfold is_bytes. apply Forall_take. Qed.

Lemma is_bytes_insert k v d : is_bytes d -> 0 <= v < 256 -> is_bytes (<[k := v]> d).
Proof. unfold is_bytes. intros. by apply Forall_insert. Qed.

Lemma run_op_bytes fuel op b b' :
  error_snippet_ok SK_DEBUG kError (fDict b) ->
  builder_ok kError b -> is_bytes (fData b) -> op_bytes op ->
  run_op SK_DEBUG kError fuel op b = Ok b' ->
  is_bytes (fData b').
Proof.
  intros He [Hl Hok] Hb Hop H.
  destruct (fIsValid b) eqn:Hv.
  2:{ rewrite invalid_noop in H by done. by injection H as <-. }
  assert (Hpoison : forall b1, makeInvalid SK_DEBUG kError fuel b = Ok b1 ->
                               is_bytes (fData b1)).
  { intros b1 Hm. apply makeInvalid_inv in Hm; [|done..]. subst b1.
    destruct He as (? & ? & _). cbn. repeat constructor; lia. }
  destruct op as [id | n data |]; cbn [run_op] in H.
  - unfold beginBlock in H.
    destruct (decide (0 <= id <= maxCodeSnippetID (fDict b))) as [Hr|Hr].
    + apply beginBlock_body_shape in H as (-> & _); [|done|done].
      apply is_bytes_app; [done|].
      pose proof (Z.mod_pos_bound id 256 ltac:(lia)). repeat constructor; lia.
    + unfold beginBlock_body, isValid in H. rewrite Hv in H. cbn [negb] in H.
      rewrite Z.gtb_ltb in H.
      destruct (Z.ltb_spec id 0); [by apply Hpoison|].
      destruct (Z.ltb_spec (maxCodeSnippetID (fDict b)) id); [by apply Hpoison|]. lia.
  - unfold addBytes in H. destruct (fStack b) as [|fr rest] eqn:Hs.
    + unfold addBytes_body, isValid in H. rewrite Hv, Hs in H. by apply Hpoison.
    + eapply addBytes_body_shape in H as (-> & _); [|done|exact Hs].
      apply is_bytes_app; [done|]. by apply is_bytes_take.
  - unfold endBlock in H. destruct (fStack b) as [|fr rest] eqn:Hs.
    + unfold endBlock_body, isValid in H. rewrite Hv, Hs in H. by apply Hpoison.
    + eapply endBlock_body_shape in H as [[_ H] | (_ & _ & -> & _)];
        [by apply Hpoison| |done|exact Hs].
      apply is_bytes_insert; [done|]. apply Z.mod_pos_bound. lia.
Qed.

Lemma run_ops_bytes fuel ops : forall b b',
  error_snippet_ok SK_DEBUG kError (fDict b) ->
  builder_ok kError b -> is_bytes (fData b) -> Forall op_bytes ops ->
  run_ops SK_DEBUG kError fuel ops b = Ok b' ->
  is_bytes (fData b').
Proof.
  induction ops as [|op ops IH]; cbn [run_ops]; intros b b' He Hok Hb Hops H.
  - by injection H as <-.
  - apply Forall_cons in Hops as [Hop Hops].
    apply bind_Ok_inv in H as (b1 & H1 & H).
    pose proof (run_op_bytes _ _ _ _ He Hok Hb Hop H1) as Hb1.
    apply run_op_ok in H1 as [Hok1 Hd1]; [|done..].
    eapply IH; [by rewrite Hd1|done|done|done|exact H].
Qed.

End Bytes.

(** X4 (the walk terminates on every built key).  A key produced by the
    builder from calls that hand [addBytes] byte values consists of byte
    values, and [toShaderInfo] over it, with any dictionary, never runs
    out of fuel once the fuel exceeds the key's length: the endless loop
    on a stored size of 0 cannot arise from a key the builder made. *)
Theorem toShaderInfo_terminates_on_built_keys
        (SK_DEBUG : bool) (kError kDepthStencilOnlyDraw : Z)
        (dict : SkShaderCodeDictionary) (fuel : nat) (ops : list BuildOp)
        (key : SkPaintParamsKey) (b' : SkPaintParamsKeyBuilder) :
  error_snippet_ok SK_DEBUG kError dict ->
  Forall op_bytes ops ->
  run_ops SK_DEBUG kError fuel ops (SkPaintParamsKeyBuilder_new dict)
    ≫= lockAsKey SK_DEBUG kError fuel = Ok (key, b') ->
  is_bytes (Key.fData key)
  /\ forall (dict' : SkShaderCodeDictionary) (fuel' : nat) (r : SkShaderInfo),
       (length (Key.fData key) < fuel')%nat ->
       toShaderInfo SK_DEBUG kDepthStencilOnlyDraw fuel' dict' key r <> Fault OutOfFuel.
Proof.
  intros He Hops H.
  apply bind_Ok_inv in H as (b & Hrun & H).
  pose proof (run_ops_bytes SK_DEBUG kError fuel ops
                (SkPaintParamsKeyBuilder_new dict) b He
                (builder_ok_new kError dict) (Forall_nil_2 _) Hops Hrun) as Hb.
  apply run_ops_ok in Hrun as [Hok Hd]; [|done|apply builder_ok_new].
  apply lockAsKey_Ok_inv in H as (Hk & _); [|by rewrite Hd|done].
  assert (Hbytes : is_bytes (Key.fData key)).
  { destruct Hk as [-> | (_ & _ & ->)]; [|done].
    destruct He as (? & ? & _). repeat constructor; lia. }
  pose proof (locked_key_tiles kError b key Hok Hk) as Ht.
  split; [done|]. intros dict' fuel' r Hfuel. unfold toShaderInfo.
  apply toShaderInfo_loop_terminates; try done; unfold Key_sizeInBytes; lia.
Qed.

Lemma toShaderInfo_terminates_on_built_keys_witness :
  is_bytes (Key.fData example_flat_key)
  /\ forall (dict' : SkShaderCodeDictionary) (fuel' : nat) (r : SkShaderInfo),
       (length (Key.fData example_flat_key) < fuel')%nat ->
       toShaderInfo true 2 fuel' dict' example_flat_key r <> Fault OutOfFuel.
Proof.
  apply (toShaderInfo_terminates_on_built_keys true 0 2 example_dict 1
           example_flat_ops example_flat_key example_flat_builder).
  - apply example_error_snippet_ok.
  - repeat constructor; simpl; lia.
  - reflexivity.
Defined.

(** ** A key determines the forest it was built from *)

Lemma concat_fields_inj (pl1 : list (list Z)) : forall pl2 r1 r2,
  field_sizes pl1 = field_sizes pl2 ->
  concat pl1 ++ r1 = concat pl2 ++ r2 ->
  pl1 = pl2 /\ r1 = r2.
Proof.
  induction pl1 as [|p1 pl1 IH]; intros [|p2 pl2] r1 r2 Hsz H; try done.
  cbn in Hsz. injection Hsz as Hlen Hsz. cbn [concat] in H.
  rewrite <- !app_assoc in H.
  apply app_inj_1 in H as [-> H]; [|lia].
  destruct (IH _ _ _ Hsz H) as [-> ->]. done.
Qed.

Lemma children_parse_uniquely dict ch1 :
  Forall (parses_uniquely dict) ch1 ->
  forall ch2 r1 r2,
    Forall (conforms dict) ch1 -> Forall (conforms dict) ch2 ->
    length ch1 = length ch2 ->
    concat (map encode ch1) ++ r1 = concat (map encode ch2) ++ r2 ->
    ch1 = ch2 /\ r1 = r2.
Proof.
  induction 1 as [|c1 ch1 Hc1 _ IH]; intros [|c2 ch2] r1 r2 Hf1 Hf2 Hlen H; try done.
  apply Forall_cons in Hf1 as [Hc1' Hf1]. apply Forall_cons in Hf2 as [Hc2' Hf2].
  cbn [map concat] in H. rewrite <- !app_assoc in H.
  destruct (Hc1 _ _ _ Hc1' Hc2' H) as [-> H'].
  destruct (IH _ _ _ Hf1 Hf2 ltac:(simpl in Hlen; lia) H') as [-> ->]. done.
Qed.

Lemma block_parses_uniquely dict blk : parses_uniquely dict blk.
Proof.
  induction blk as [id ch pl IH] using Block_ind'.
  intros [id2 ch2 pl2] r1 r2 Hc1 Hc2 H.
  inversion Hc1 as [? ? ? e1 _ _ He1 Hn1 Hp1 _ Hch1]; subst.
  inversion Hc2 as [? ? ? e2 _ _ He2 Hn2 Hp2 _ Hch2]; subst.
  cbn [encode] in H. rewrite <- !app_assoc in H. cbn [app] in H.
  injection H as -> _ H.
  rewrite He1 in He2. injection He2 as <-.
  destruct (children_parse_uniquely dict ch IH ch2 _ _ Hch1 Hch2 ltac:(lia) H) as [-> H'].
  destruct (concat_fields_inj pl pl2 r1 r2 ltac:(congruence) H') as [-> ->]. done.
Qed.

Lemma encode_forest_inj dict f1 : forall f2,
  Forall (conforms dict) f1 -> Forall (conforms dict) f2 ->
  encode_forest f1 = encode_forest f2 -> f1 = f2.
Proof.
  unfold encode_forest.
  induction f1 as [|b1 f1 IH]; intros [|b2 f2] Hf1 Hf2 H; try done.
  - destruct b2. done.
  - destruct b1. done.
  - apply Forall_cons in Hf1 as [Hb1 Hf1]. apply Forall_cons in Hf2 as [Hb2 Hf2].
    cbn [map concat] in H.
    destruct (block_parses_uniquely dict b1 b2 _ _ Hb1 Hb2 H) as [-> H'].
    f_equal. by apply IH.
Qed.

(** X5 (equal keys, equal forests).  Two keys built from forests that
    conform to the dictionary are equal under [operator==] exactly when
    the forests are the same: the encoding loses nothing. *)
Theorem built_keys_identify_forests (SK_DEBUG : bool) (kError : Z)
        (dict : SkShaderCodeDictionary) (fuel : nat) (f1 f2 : list Block)
        (k1 k2 : SkPaintParamsKey) (b1 b2 : SkPaintParamsKeyBuilder) :
  Forall (conforms dict) f1 -> Forall (conforms dict) f2 ->
  run_ops SK_DEBUG kError fuel (build_forest_ops f1) (SkPaintParamsKeyBuilder_new dict)
    ≫= lockAsKey SK_DEBUG kError fuel = Ok (k1, b1) ->
  run_ops SK_DEBUG kError fuel (build_forest_ops f2) (SkPaintParamsKeyBuilder_new dict)
    ≫= lockAsKey SK_DEBUG kError fuel = Ok (k2, b2) ->
  (operator_eq k1 k2 = true <-> f1 = f2).
Proof.
  intros Hf1 Hf2 H1 H2. unfold SkPaintParamsKeyBuilder_new in *.
  rewrite (build_forest_ok SK_DEBUG kError fuel dict f1 Hf1) in H1.
  rewrite (build_forest_ok SK_DEBUG kError fuel dict f2 Hf2) in H2.
  rewrite bind_Ok in H1, H2. rewrite lockAsKey_closed in H1. rewrite lockAsKey_closed in H2.
  injection H1 as <- _. injection H2 as <- _.
  rewrite operator_eq_true_iff. cbn [Key.fData app]. split.
  - by apply (encode_forest_inj dict).
  - by intros ->.
Qed.

Lemma built_keys_identify_forests_witness :
  operator_eq (Key.mk [1; 7; 5; 4; 1; 2; 9] true) (Key.mk [5; 4; 1; 2] true) = true
  <-> [example_tree] = [example_leaf].
Proof.
  apply (built_keys_identify_forests true 0 example_dict 1 [example_tree] [example_leaf]
           _ _ (MkBuilder example_dict [1; 7; 5; 4; 1; 2; 9] [] true 1%nat)
           (MkBuilder example_dict [5; 4; 1; 2] [] true 1%nat)).
  - constructor; [apply example_tree_conforms | constructor].
  - constructor; [apply example_leaf_conforms | constructor].
  - reflexivity.
  - reflexivity.
Defined.

(** ** Dumping a conforming key *)

Lemma printed_bytes_app o1 o2 :
  printed_bytes (o1 ++ o2) = printed_bytes o1 ++ printed_bytes o2.
Proof. unfold printed_bytes. apply flat_map_app. Qed.

Lemma dump_ok_bind {A B} (m : Dump A) (k : A -> Dump B) out
      (R1 : A -> DebugOutput -> Prop) (R2 : B -> DebugOutput -> Prop) :
  dump_ok m out R1 ->
  (forall a out', R1 a out' -> dump_ok (k a) out' R2) ->
  dump_ok (m ≫= k) out R2.
Proof.
  unfold dump_ok, mbind, Dump_bind. intros Hm Hk.
  destruct (m out) as [out' [a|f]]; [by apply Hk | done].
Qed.

Lemma dump_ok_ret {A} (a : A) out (R : A -> DebugOutput -> Prop) :
  R a out -> dump_ok (mret a) out R.
Proof. done. Qed.

Lemma dump_ok_ret_eq {A} (a : A) out :
  dump_ok (mret a) out (fun a' out' => a' = a /\ out' = out).
Proof. done. Qed.

Lemma dump_ok_liftRes_Ok {A} (a : A) out :
  dump_ok (liftRes (Ok a)) out (fun a' out' => a' = a /\ out' = out).
Proof. done. Qed.

Lemma dump_ok_weaken {A} (m : Dump A) out (R1 R2 : A -> DebugOutput -> Prop) :
  dump_ok m out R1 -> (forall a out', R1 a out' -> R2 a out') -> dump_ok m out R2.
Proof. unfold dump_ok. destruct (m out) as [out' [a|f]]; auto. Qed.

Lemma dump_ok_SkDebugf fmt args out :
  dump_ok (SkDebugf fmt args) out (fun _ out' => out' = out ++ [(fmt, args)]).
Proof. done. Qed.

Lemma dump_ok_output_indent indent out :
  dump_ok (output_indent indent) out
          (fun _ out' => printed_bytes out' = printed_bytes out).
Proof.
  unfold dump_ok. rewrite output_indent_eq, printed_bytes_app.
  assert (E : printed_bytes (replicate (Z.to_nat indent) ("    "%string, [])) = []).
  { induction (Z.to_nat indent) as [|n IH]; [done|]. exact IH. }
  by rewrite E, app_nil_r.
Qed.

Lemma dump_ok_Key_byte key off x out :
  Key_byte key off = Ok x ->
  dump_ok (liftRes (Key_byte key off)) out (fun a out' => a = x /\ out' = out).
Proof. intros H. unfold dump_ok, liftRes. by rewrite H. Qed.

Lemma dump_ok_assert c out :
  c = true -> dump_ok (dump_assert c) out (fun _ out' => out' = out).
Proof. intros ->. done. Qed.

Lemma Key_byte_mid flag pre x post :
  Key_byte (Key.mk (pre ++ x :: post) flag) (Z.of_nat (length pre)) = Ok x.
Proof. apply Key_byte_at. Qed.

Lemma Key_byte_header_id flag pre id sz rest :
  Key_byte (Key.mk ((pre ++ [id; sz]) ++ rest) flag) (Z.of_nat (length pre)) = Ok id.
Proof. rewrite <- app_assoc. apply Key_byte_at. Qed.

Lemma Key_byte_header_size flag pre id sz rest :
  Key_byte (Key.mk ((pre ++ [id; sz]) ++ rest) flag) (Z.of_nat (length pre) + 1) = Ok sz.
Proof.
  replace (Z.of_nat (length pre) + 1) with (Z.of_nat (length (pre ++ [id])))
    by (rewrite length_app; simpl; lia).
  replace ((pre ++ [id; sz]) ++ rest) with ((pre ++ [id]) ++ sz :: rest)
    by (by rewrite <- !app_assoc).
  apply Key_byte_at.
Qed.

(** Printing the bytes of one field. *)
Lemma field_loop_ok flag indent p : forall P Q j out,
  dump_ok (for_loop (length p) j
             (fun _ (curOffset : Z) =>
                output_indent indent;;
                v ← liftRes (Key_byte (Key.mk (P ++ p ++ Q) flag) curOffset);
                SkDebugf "%d," [ArgInt v];;
                mret (curOffset + 1))
             (Z.of_nat (length P)))
          out
          (fun cur out' =>
             cur = Z.of_nat (length P) + Z.of_nat (length p)
             /\ printed_bytes out' = printed_bytes out ++ p).
Proof.
  induction p as [|x p IH]; intros P Q j out.
  - apply dump_ok_ret. rewrite app_nil_r. simpl. split; [lia|done].
  - cbn [length for_loop].
    eapply dump_ok_bind.
    { eapply dump_ok_bind; [apply dump_ok_output_indent|]. intros [] out1 H1.
      eapply dump_ok_bind; [apply dump_ok_Key_byte, Key_byte_mid|].
      intros v out2 [-> ->].
      eapply dump_ok_bind; [apply dump_ok_SkDebugf|]. intros [] out3 ->.
      apply dump_ok_ret.
      instantiate (1 := fun cur out' =>
                          cur = Z.of_nat (length P) + 1
                          /\ printed_bytes out' = printed_bytes out ++ [x]).
      cbv beta. split; [done|]. rewrite printed_bytes_app, H1. done. }
    intros cur out1 [-> H1].
    replace (Z.of_nat (length P) + 1) with (Z.of_nat (length (P ++ [x])))
      by (rewrite length_app; simpl; lia).
    specialize (IH (P ++ [x]) Q (j + 1) out1).
    rewrite <- app_assoc in IH. cbn [app] in IH.
    eapply dump_ok_weaken; [exact IH|]. cbv beta.
    intros cur out2 [-> H2]. rewrite length_app. cbn [length]. split; [lia|].
    rewrite H2, H1, <- app_assoc. done.
Qed.

(** Printing the declared fields of a block. *)
Lemma payload_loop_ok flag indent exps : forall pl P Q out,
  map fCount exps = field_sizes pl ->
  dump_ok (for_each exps
             (fun (e : DataPayloadField) (curOffset : Z) =>
                output_indent indent;;
                SkDebugf "%s[%d]: " [ArgStr (fName e); ArgInt (fCount e)];;
                dump_assert (DataPayloadType_eqb (fType e) kByte);;
                curOffset ← for_loop (Z.to_nat (fCount e)) 0
                              (fun _ (curOffset : Z) =>
                                 output_indent indent;;
                                 v ← liftRes (Key_byte (Key.mk (P ++ concat pl ++ Q) flag)
                                                       curOffset);
                                 SkDebugf "%d," [ArgInt v];;
                                 mret (curOffset + 1))
                              curOffset;
                SkDebugf "\n" [];;
                mret curOffset)
             (Z.of_nat (length P)))
          out
          (fun cur out' =>
             cur = Z.of_nat (length P) + Z.of_nat (length (concat pl))
             /\ printed_bytes out' = printed_bytes out ++ concat pl).
Proof.
  induction exps as [|e exps IH]; intros [|p pl] P Q out Hsz; try done.
  - apply dump_ok_ret. simpl. rewrite app_nil_r. split; [lia|done].
  - cbn in Hsz. injection Hsz as Hc Hsz. cbn [for_each concat].
    rewrite <- (app_assoc p (concat pl) Q).
    eapply dump_ok_bind.
    { eapply dump_ok_bind; [apply dump_ok_output_indent|]. intros [] out1 H1.
      eapply dump_ok_bind; [apply dump_ok_SkDebugf|]. intros [] out2 ->.
      eapply dump_ok_bind; [apply dump_ok_assert; by destruct (fType e)|].
      intros [] out3 ->.
      rewrite Hc, Nat2Z.id.
      eapply dump_ok_bind; [apply field_loop_ok|]. intros cur out4 [-> H4].
      eapply dump_ok_bind; [apply dump_ok_SkDebugf|]. intros [] out5 ->.
      apply dump_ok_ret.
      instantiate (1 := fun cur out' =>
                          cur = Z.of_nat (length P) + Z.of_nat (length p)
                          /\ printed_bytes out' = printed_bytes out ++ p).
      cbv beta. split; [done|].
      rewrite printed_bytes_app, H4, printed_bytes_app, H1. cbn. by rewrite !app_nil_r. }
    intros cur out1 [-> H1].
    replace (Z.of_nat (length P) + Z.of_nat (length p)) with (Z.of_nat (length (P ++ p)))
      by (rewrite length_app; lia).
    specialize (IH pl (P ++ p) Q out1 Hsz). rewrite <- !app_assoc in IH.
    eapply dump_ok_weaken; [exact IH|]. cbv beta.
    intros cur out2 [-> H2]. rewrite !length_app. split; [lia|].
    rewrite H2, H1, <- app_assoc. done.
Qed.

(** Dumping the children of a block. *)
Lemma children_dump_ok dict fuel flag indent cs :
  Forall (dumps dict fuel) cs ->
  forall P Q i out,
  dump_ok (for_loop (length cs) i
             (fun i (curOffset : Z) =>
                output_indent indent;;
                SkDebugf "child %d:\n" [ArgInt i];;
                childSize ← dump_block fuel dict
                              (Key.mk (P ++ concat (map encode cs) ++ Q) flag)
                              curOffset (indent + 1);
                mret (curOffset + childSize))
             (Z.of_nat (length P)))
          out
          (fun cur out' =>
             cur = Z.of_nat (length P) + sumZ (map Block_size cs)
             /\ printed_bytes out' = printed_bytes out ++ concat (map payload_order cs)).
Proof.
  induction 1 as [|c cs Hc _ IH]; intros P Q i out.
  - apply dump_ok_ret. simpl. rewrite app_nil_r. split; [lia|done].
  - cbn [length for_loop map concat].
    rewrite <- (app_assoc (encode c)).
    eapply dump_ok_bind.
    { eapply dump_ok_bind; [apply dump_ok_output_indent|]. intros [] out1 H1.
      eapply dump_ok_bind; [apply dump_ok_SkDebugf|]. intros [] out2 ->.
      eapply dump_ok_bind; [apply Hc|]. intros bs out3 [-> H3].
      apply dump_ok_ret.
      instantiate (1 := fun cur out' =>
                          cur = Z.of_nat (length P) + Block_size c
                          /\ printed_bytes out' = printed_bytes out ++ payload_order c).
      cbv beta. split; [done|].
      rewrite H3, printed_bytes_app, H1. cbn. by rewrite app_nil_r. }
    intros cur out1 [-> H1].
    pose proof (encode_length c) as HL.
    replace (Z.of_nat (length P) + Block_size c) with (Z.of_nat (length (P ++ encode c)))
      by (rewrite length_app; lia).
    specialize (IH (P ++ encode c) Q (i + 1) out1). rewrite <- !app_assoc in IH.
    eapply dump_ok_weaken; [exact IH|]. cbv beta.
    intros cur out2 [-> H2]. rewrite length_app. unfold sumZ. cbn [map foldr].
    split; [lia|]. rewrite H2, H1, <- app_assoc. done.
Qed.

Lemma dump_block_ok dict blk :
  conforms dict blk ->
  forall fuel, (Block_depth blk <= fuel)%nat -> dumps dict fuel blk.
Proof.
  induction blk as [id ch pl IH] using Block_ind'.
  intros Hc fuel Hfuel flag pre post indent out.
  inversion Hc as [id' ch' pl' e Hr H8 He Hn Hp Hsz Hch]; subst.
  cbn [Block_depth] in Hfuel. destruct fuel as [|fuel]; [lia|].
  cbn [dump_block].
  pose proof (encode_length (MkBlock id ch pl)) as HL.
  pose proof (Block_size_ge_2 (MkBlock id ch pl)) as Hge.
  set (sz := Block_size (MkBlock id ch pl)) in *.
  assert (Hkey : pre ++ encode (MkBlock id ch pl) ++ post
                 = (pre ++ [id; sz]) ++ concat (map encode ch) ++ (concat pl ++ post)).
  { cbn [encode]. fold sz. rewrite <- !app_assoc. done. }
  rewrite Hkey.
  eapply dump_ok_bind; [apply dump_ok_Key_byte, Key_byte_header_id|].
  intros ? out1 [-> ->].
  eapply dump_ok_bind; [apply dump_ok_Key_byte, Key_byte_header_size|].
  intros ? out2 [-> ->].
  eapply dump_ok_bind.
  { apply dump_ok_assert. apply andb_true_intro. split; apply Z.leb_le; [lia|].
    unfold Key_sizeInBytes. cbn [Key.fData]. rewrite <- Hkey, !length_app. lia. }
  intros [] out3 ->. rewrite He.
  eapply dump_ok_bind; [apply dump_ok_ret_eq|]. intros ? ? [-> ->].
  eapply dump_ok_bind; [apply dump_ok_output_indent|]. intros [] out4 H4.
  eapply dump_ok_bind; [apply dump_ok_liftRes_Ok|]. intros ? ? [-> ->].
  eapply dump_ok_bind; [apply dump_ok_SkDebugf|]. intros [] out5 ->.
  rewrite Hn, Nat2Z.id. unfold kBlockHeaderSizeInBytes.
  replace (Z.of_nat (length pre) + 2) with (Z.of_nat (length (pre ++ [id; sz])))
    by (rewrite length_app; simpl; lia).
  eapply dump_ok_bind.
  { apply (children_dump_ok dict fuel).
    clear - IH Hch Hfuel.
    induction Hch as [|c cs Hc Hcs IHcs]; constructor.
    - apply Forall_cons in IH as [IHc _]. apply IHc; [done|]. simpl in Hfuel. lia.
    - apply IHcs; [by apply Forall_cons in IH as [_ ?]|]. simpl in Hfuel. lia. }
  intros cur out6 [-> H6].
  assert (HLc : Z.of_nat (length (concat (map encode ch))) = sumZ (map Block_size ch)).
  { rewrite length_concat_Z, map_map. f_equal. apply map_ext. intros; apply encode_length. }
  replace (Z.of_nat (length (pre ++ [id; sz])) + sumZ (map Block_size ch))
    with (Z.of_nat (length ((pre ++ [id; sz]) ++ concat (map encode ch))))
    by (rewrite (length_app (pre ++ [id; sz])); lia).
  rewrite (app_assoc (pre ++ [id; sz])).
  eapply dump_ok_bind; [by apply payload_loop_ok|].
  intros cur out7 [-> H7]. apply dump_ok_ret. split; [done|].
  cbn [payload_order]. rewrite H7, H6, printed_bytes_app, H4. cbn.
  by rewrite !app_nil_r, <- !app_assoc.
Qed.

Lemma dump_loop_ok dict depth flag f :
  Forall (conforms dict) f ->
  Forall (fun blk => (Block_depth blk <= depth)%nat) f ->
  forall fuel pre out, (length f <= fuel)%nat ->
  dump_ok (dump_loop fuel depth dict (Key.mk (pre ++ encode_forest f) flag)
                     (Z.of_nat (length pre)))
          out
          (fun _ out' =>
             printed_bytes out' = printed_bytes out ++ concat (map payload_order f)).
Proof.
  induction 1 as [|blk f Hb Hf IH]; intros Hd fuel pre out Hfuel.
  - unfold encode_forest. cbn [map concat]. rewrite app_nil_r.
    destruct fuel; cbn [dump_loop]; unfold Key_sizeInBytes; cbn [Key.fData];
      rewrite Z.ltb_irrefl; apply dump_ok_ret; by rewrite app_nil_r.
  - apply Forall_cons in Hd as [Hd1 Hd2].
    destruct fuel as [|fuel]; [simpl in Hfuel; lia|].
    cbn [dump_loop]. unfold Key_sizeInBytes. cbn [Key.fData].
    unfold encode_forest. cbn [map concat]. fold (encode_forest f).
    pose proof (encode_length blk) as HL. pose proof (Block_size_ge_2 blk) as Hge.
    assert (Hlt : (Z.of_nat (length pre)
                   <? Z.of_nat (length (pre ++ encode blk ++ encode_forest f))) = true).
    { apply Z.ltb_lt. rewrite !length_app. lia. }
    rewrite Hlt.
    eapply dump_ok_bind; [by apply (dump_block_ok dict blk Hb depth Hd1)|].
    intros bs out1 [-> H1].
    replace (Z.of_nat (length pre) + Block_size blk) with (Z.of_nat (length (pre ++ encode blk)))
      by (rewrite length_app; lia).
    specialize (IH Hd2 fuel (pre ++ encode blk) out1). rewrite <- app_assoc in IH.
    eapply dump_ok_weaken; [apply IH; simpl in Hfuel; lia|]. cbv beta.
    intros _ out2 H2. rewrite H2, H1, <- app_assoc. done.
Qed.

(** X15 (the dump prints the payload).  Dumping the key built from a
    forest that conforms to the dictionary, with a fuel of at least the
    key's length, completes without a fault, and the values it prints
    with the format ["%d,"] are the payload bytes of the forest, each
    block's children before the block's own fields. *)
Theorem dump_prints_the_payload (SK_DEBUG : bool) (kError : Z)
        (dict : SkShaderCodeDictionary) (forest : list Block)
        (fuel fuel' : nat) (key : SkPaintParamsKey) (b' : SkPaintParamsKeyBuilder) :
  Forall (conforms dict) forest ->
  run_ops SK_DEBUG kError fuel (build_forest_ops forest) (SkPaintParamsKeyBuilder_new dict)
    ≫= lockAsKey SK_DEBUG kError fuel = Ok (key, b') ->
  (length (Key.fData key) <= fuel')%nat ->
  exists out,
    dump fuel' dict key [] = (out, Ok tt)
    /\ printed_bytes out = concat (map payload_order forest).
Proof.
  intros Hc Hbuild Hfuel. unfold SkPaintParamsKeyBuilder_new in Hbuild.
  rewrite (build_forest_ok SK_DEBUG kError fuel dict forest Hc) in Hbuild.
  rewrite bind_Ok, lockAsKey_closed in Hbuild. injection Hbuild as <- _.
  cbn [app Key.fData] in *.
  unfold dump.
  pose proof (dump_loop_ok dict fuel' true forest Hc) as HL.
  specialize (HL ltac:(eapply Forall_impl; [apply forest_depth_le|]; simpl; intros; lia)).
  specialize (HL fuel' []
                 [("--------------------------------------\n"%string, []);
                  ("SkPaintParamsKey (%dB):\n"%string,
                   [ArgInt (Key_sizeInBytes (Key.mk (encode_forest forest) true))])]).
  specialize (HL ltac:(pose proof (forest_length_le forest); lia)).
  unfold dump_ok in HL. cbn [app length Z.of_nat] in HL.
  unfold mbind, Dump_bind, SkDebugf at 1 2. cbn [app].
  destruct (dump_loop _ _ _ _ _ _) as [out [[]|f]]; [|done].
  exists out. split; [done|]. rewrite HL. done.
Qed.

Lemma dump_prints_the_payload_witness :
  exists out,
    dump 7 example_dict (Key.mk [1; 7; 5; 4; 1; 2; 9] true) [] = (out, Ok tt)
    /\ printed_bytes out = concat (map payload_order [example_tree]).
Proof.
  apply (dump_prints_the_payload true 0 example_dict [example_tree] 1 7
           (Key.mk [1; 7; 5; 4; 1; 2; 9] true)
           (MkBuilder example_dict [1; 7; 5; 4; 1; 2; 9] [] true 1%nat)).
  - constructor; [apply example_tree_conforms | constructor].
  - reflexivity.
  - simpl. lia.
Defined.

(** ** The shader-info walk only appends *)

Section Appends.
Variable SK_DEBUG : bool.
Variable kDepthStencilOnlyDraw : Z.
Variable dict : SkShaderCodeDictionary.
Variable key : SkPaintParamsKey.

Lemma AddBlock_appends : forall fuel off ra bs rb,
  AddBlockToShaderInfo SK_DEBUG kDepthStencilOnlyDraw fuel dict key off ra = Ok (bs, rb) ->
  exists new,
    fEntries rb = fEntries ra ++ new
    /\ Forall (entry_under dict key off) new
    /\ (0 < length new)%nat.
Proof.
  induction fuel as [|fuel IH]; intros off ra bs rb H; [done|].
  apply AddBlock_Ok_inv in H as (fuel' & id0 & e & st & [= <-] & Hid0 & He & HL & ->).
  apply (for_loop_Ok_inv
           (fun j (st : Z * SkShaderInfo) =>
              child_offset key off j st.1
              /\ exists new, fEntries st.2 = fEntries ra ++ e :: new
                             /\ Forall (entry_under dict key off) new)) in HL.
  - destruct HL as (_ & new & Hnew & Hall). exists (e :: new).
    split; [by destruct (negb _)|]. split; [|simpl; lia].
    constructor; [|done]. exists off, id0. split; [apply under_self | done].
  - intros j i s s1 Hj [Hc (new & Hnew & Hall)] Hb.
    apply body_Ok_inv in Hb as (bs' & HA & Hs1). split.
    + rewrite Hs1. eapply child_next; [exact Hc|]. by eapply AddBlock_returns_stored.
    + apply IH in HA as (new' & Hnew' & Hall' & _). exists (new ++ new').
      split; [rewrite Hnew', Hnew, <- app_assoc; done|].
      apply Forall_app. split; [done|].
      eapply Forall_impl; [exact Hall'|]. intros e' (co & id & Hu & Hid & He').
      exists co, id. split; [|done].
      eapply under_child; [exact Hid0|exact He| |exact Hc|exact Hu]. lia.
  - split; [constructor|]. exists []. split; [|done]. unfold add. cbn. done.
Qed.

Lemma toShaderInfo_loop_appends depth : forall fuel off ra rb,
  toShaderInfo_loop SK_DEBUG kDepthStencilOnlyDraw fuel depth dict key off ra = Ok rb ->
  exists new,
    fEntries rb = fEntries ra ++ new /\ Forall (entry_from dict key off) new.
Proof.
  induction fuel as [|fuel IH]; intros off ra rb; cbn [toShaderInfo_loop];
    destruct (Z.ltb_spec off (Key_sizeInBytes key)) as [Hlt|Hge]; try done.
  - intros [= <-]. exists []. by rewrite app_nil_r.
  - intros H. apply bind_Ok_inv in H as ([bs r1] & HA & H). cbn [fst snd] in H.
    pose proof (AddBlock_returns_stored _ _ _ _ _ _ _ _ _ HA) as Hbs.
    apply AddBlock_appends in HA as (new1 & Hn1 & Ha1 & _).
    apply IH in H as (new2 & Hn2 & Ha2).
    exists (new1 ++ new2). split; [rewrite Hn2, Hn1, <- app_assoc; done|].
    apply Forall_app. split.
    + eapply Forall_impl; [exact Ha1|]. intros e He. exists off.
      split; [by apply top_from_here | done].
    + eapply Forall_impl; [exact Ha2|]. intros e (t & Ht & He). exists t.
      split; [|done]. by eapply top_from_step.
  - intros [= <-]. exists []. by rewrite app_nil_r.
Qed.

End Appends.

(** X13 (the walk only appends).  A completed [toShaderInfo] leaves the
    entries the sink already held in place and appends to them only
    dictionary entries of header IDs the walk read; it never clears the
    writes-colour flag. *)
Theorem toShaderInfo_only_appends (SK_DEBUG : bool) (kDepthStencilOnlyDraw : Z)
        (dict : SkShaderCodeDictionary) (key : SkPaintParamsKey)
        (fuel : nat) (r0 r : SkShaderInfo) :
  toShaderInfo SK_DEBUG kDepthStencilOnlyDraw fuel dict key r0 = Ok r ->
  (exists new,
     fEntries r = fEntries r0 ++ new /\ Forall (entry_read dict key) new)
  /\ (fWritesColor r0 = true -> fWritesColor r = true).
Proof.
  unfold toShaderInfo. intros H. split.
  - apply toShaderInfo_loop_appends in H as (new & Hn & Ha). exists new.
    split; [done|]. eapply Forall_impl; [exact Ha|].
    intros e (t & Ht & co & id & Hu & Hid & He). exists co, id. split; [|done].
    eapply under_reads; [exact Hu|]. apply reads_top.
    eapply top_from_offset; [exact Ht|]. apply top_first. by eapply top_from_lt.
  - by apply loop_flag in H as (Hmono & _).
Qed.

Lemma toShaderInfo_only_appends_witness :
  (exists new,
     fEntries (MkShaderInfo [Build_SkShaderSnippet "error" 0 [];
                             Build_SkShaderSnippet "solid" 0
                               [Build_DataPayloadField "color" kByte 2]] true)
     = fEntries (MkShaderInfo [Build_SkShaderSnippet "error" 0 []] false) ++ new
     /\ Forall (entry_read example_dict (SkPaintParamsKey_raw [5; 4; 1; 2])) new)
  /\ (fWritesColor (MkShaderInfo [Build_SkShaderSnippet "error" 0 []] false) = true ->
      fWritesColor (MkShaderInfo [Build_SkShaderSnippet "error" 0 [];
                                  Build_SkShaderSnippet "solid" 0
                                    [Build_DataPayloadField "color" kByte 2]] true) = true).
Proof.
  apply (toShaderInfo_only_appends true 2 example_dict
           (SkPaintParamsKey_raw [5; 4; 1; 2]) 3).
  reflexivity.
Defined.

(** ** The dump stops on a bad size byte *)

(** X16 (the dump always stops).  On any key whatever, [dump] with a fuel
    above the key's length never runs out of fuel: it completes or stops
    at a fault, since each block visit asserts a stored size of at
    least 2. *)
Theorem dump_always_terminates (dict : SkShaderCodeDictionary)
        (key : SkPaintParamsKey) (fuel : nat) (out : DebugOutput) :
  (length (Key.fData key) < fuel)%nat ->
  (dump fuel dict key out).2 <> Fault OutOfFuel.
Proof. intros H. apply dump_terminates. unfold Key_sizeInBytes. lia. Qed.

Lemma dump_always_terminates_witness :
  (dump 3 example_dict (SkPaintParamsKey_raw [5; 0]) []).2 <> Fault OutOfFuel.
Proof.
  apply (dump_always_terminates example_dict (SkPaintParamsKey_raw [5; 0]) 3 []).
  simpl. lia.
Defined.

(** X17 (the dump rejects a bad size byte).  When the size byte of the
    header at [headerOffset] is below 2, or the block it announces would
    end past the key, [dump_block] fails its assertion before printing
    anything. *)
Theorem dump_block_rejects_bad_size (dict : SkShaderCodeDictionary)
        (key : SkPaintParamsKey) (fuel : nat) (off indent id bs : Z)
        (out : DebugOutput) :
  Key_byte key off = Ok id ->
  Key_byte key (off + 1) = Ok bs ->
  bs < 2 \/ Key_sizeInBytes key < off + bs ->
  dump_block (S fuel) dict key off indent out = (out, Fault AssertFailed).
Proof.
  intros H0 H1 Hbad. cbn [dump_block].
  unfold mbind at 1. unfold Dump_bind at 1. unfold liftRes at 1. rewrite H0.
  unfold mbind at 1. unfold Dump_bind at 1. unfold liftRes at 1. rewrite H1.
  unfold mbind at 1. unfold Dump_bind at 1. unfold dump_assert, liftRes at 1.
  assert (Hc : (2 <=? bs) && (off + bs <=? Key_sizeInBytes key) = false).
  { apply andb_false_iff. destruct Hbad; [left|right]; apply Z.leb_gt; lia. }
  by rewrite Hc.
Qed.

Lemma dump_block_rejects_bad_size_witness :
  dump_block 1 example_dict (SkPaintParamsKey_raw [5; 0]) 0 0 [] = ([], Fault AssertFailed)
  /\ dump_block 1 example_dict (SkPaintParamsKey_raw [5; 9; 1]) 0 0 []
     = ([], Fault AssertFailed).
Proof.
  split.
  - apply (dump_block_rejects_bad_size example_dict (SkPaintParamsKey_raw [5; 0]) 0 0 0 5 0);
      [reflexivity | reflexivity | left; lia].
  - apply (dump_block_rejects_bad_size example_dict (SkPaintParamsKey_raw [5; 9; 1]) 0 0 0 5 9);
      [reflexivity | reflexivity | right; unfold Key_sizeInBytes; simpl; lia].
Defined.

(** ** Error keys *)

Lemma isErrorKey_iff kError key :
  isErrorKey kError key = true <-> Key.fData key = [kError; 2].
Proof.
  unfold isErrorKey, Key_sizeInBytes, kBlockHeaderSizeInBytes.
  destruct key as [d o]. cbn [Key.fData]. split.
  - intros H. apply andb_prop in H as [Hlen Hb]. apply Z.eqb_eq in Hlen.
    destruct d as [|x [|y [|z d]]]; cbn in Hlen; try lia.
    cbn in Hb. apply andb_prop in Hb as [H0 H1].
    apply Z.eqb_eq in H0. apply Z.eqb_eq in H1. by subst.
  - intros ->. change (byte_at [kError; 2] 0) with (Some kError).
    change (byte_at [kError; 2] 1) with (Some 2).
    change (Z.of_nat (length [kError; 2])) with 2. by rewrite !Z.eqb_refl.
Qed.

Lemma encode_nonempty blk : (2 <= length (encode blk))%nat.
Proof. pose proof (encode_length blk). pose proof (Block_size_ge_2 blk). lia. Qed.

Lemma encode_forest_error_iff kError forest :
  encode_forest forest = [kError; 2]
  <-> exists pl, forest = [MkBlock kError [] pl] /\ concat pl = [].
Proof.
  unfold encode_forest. split.
  - destruct forest as [|[id ch pl] rest]; [done|]. cbn [map concat encode].
    rewrite <- !app_assoc. cbn [app]. intros [= -> Hsz Hrest].
    apply app_eq_nil in Hrest as [Hch Hrest]. apply app_eq_nil in Hrest as [Hpl Hrest].
    assert (ch = []) as ->.
    { destruct ch as [|c ch]; [done|]. cbn in Hch.
      pose proof (encode_nonempty c). apply (f_equal (@length _)) in Hch.
      rewrite length_app in Hch. simpl in Hch. lia. }
    assert (rest = []) as ->.
    { destruct rest as [|c rest]; [done|]. cbn in Hrest.
      pose proof (encode_nonempty c). apply (f_equal (@length _)) in Hrest.
      rewrite length_app in Hrest. simpl in Hrest. lia. }
    by exists pl.
  - intros (pl & -> & Hpl). cbn [map concat encode Block_size]. rewrite Hpl.
    assert (sumZ (field_sizes pl) = 0) as ->.
    { unfold field_sizes. rewrite <- length_concat_Z. by rewrite Hpl. }
    done.
Qed.

(** X6 (which forests give the error key).  The key built from a forest
    that conforms to the dictionary satisfies [isErrorKey] exactly when
    the forest is the single block [kError] with no child and no payload
    byte: no other well-formed forest is mistaken for an error. *)
Theorem built_key_is_error_key_iff (SK_DEBUG : bool) (kError : Z)
        (dict : SkShaderCodeDictionary) (fuel : nat) (forest : list Block)
        (key : SkPaintParamsKey) (b' : SkPaintParamsKeyBuilder) :
  Forall (conforms dict) forest ->
  run_ops SK_DEBUG kError fuel (build_forest_ops forest) (SkPaintParamsKeyBuilder_new dict)
    ≫= lockAsKey SK_DEBUG kError fuel = Ok (key, b') ->
  (isErrorKey kError key = true
   <-> exists pl, forest = [MkBlock kError [] pl] /\ concat pl = []).
Proof.
  intros Hc Hbuild. unfold SkPaintParamsKeyBuilder_new in Hbuild.
  rewrite (build_forest_ok SK_DEBUG kError fuel dict forest Hc) in Hbuild.
  rewrite bind_Ok, lockAsKey_closed in Hbuild. injection Hbuild as <- _.
  rewrite isErrorKey_iff. cbn [Key.fData app]. apply encode_forest_error_iff.
Qed.

Lemma built_key_is_error_key_iff_witness :
  isErrorKey 0 (Key.mk [5; 4; 1; 2] true) = true
  <-> exists pl, [example_leaf] = [MkBlock 0 [] pl] /\ concat pl = [].
Proof.
  apply (built_key_is_error_key_iff true 0 example_dict 1 [example_leaf]
           (Key.mk [5; 4; 1; 2] true)
           (MkBuilder example_dict [5; 4; 1; 2] [] true 1%nat)).
  - constructor; [apply example_leaf_conforms | constructor].
  - reflexivity.
Defined.

(** ** Rejected calls *)

(** X7 (unknown snippet ID).  [beginBlock] with a negative ID or one
    above the dictionary's maximum, on a valid and unlocked builder,
    discards whatever was built and open and leaves the invalid builder
    holding the error block [[kError; 2]]. *)
Theorem beginBlock_rejects_unknown_id (SK_DEBUG : bool) (kError : Z) (fuel : nat)
        (codeSnippetID : Z) (b : SkPaintParamsKeyBuilder) :
  error_snippet_ok SK_DEBUG kError (fDict b) ->
  fIsValid b = true -> fLockCount b = 0%nat ->
  codeSnippetID < 0 \/ maxCodeSnippetID (fDict b) < codeSnippetID ->
  beginBlock SK_DEBUG kError (S fuel) codeSnippetID b
  = Ok (MkBuilder (fDict b) [kError; 2] [] false 0%nat).
Proof.
  intros He Hv Hl Hid. unfold beginBlock, beginBlock_body, isValid. rewrite Hv.
  cbn [negb]. rewrite Z.gtb_ltb.
  assert (Hc : (codeSnippetID <? 0) || (maxCodeSnippetID (fDict b) <? codeSnippetID) = true).
  { apply orb_true_iff. destruct Hid; [left|right]; apply Z.ltb_lt; lia. }
  rewrite Hc, makeInvalid_poisons by done. unfold poisoned. by rewrite Hl.
Qed.

Lemma beginBlock_rejects_unknown_id_witness :
  beginBlock true 0 1 6 (example_open true 3 253)
  = Ok (MkBuilder example_dict [0; 2] [] false 0%nat)
  /\ beginBlock true 0 1 (-1) (SkPaintParamsKeyBuilder_new example_dict)
     = Ok (MkBuilder example_dict [0; 2] [] false 0%nat).
Proof.
  split.
  - apply (beginBlock_rejects_unknown_id true 0 0 6 (example_open true 3 253));
      [apply example_error_snippet_ok | reflexivity | reflexivity | right; simpl; lia].
  - apply (beginBlock_rejects_unknown_id true 0 0 (-1) (SkPaintParamsKeyBuilder_new example_dict));
      [apply example_error_snippet_ok | reflexivity | reflexivity | left; lia].
Defined.

(** X8 (payload outside a block).  [addBytes] on a valid, unlocked
    builder with no block open adds nothing: it discards the buffer and
    leaves the invalid builder holding the error block. *)
Theorem addBytes_needs_open_block (SK_DEBUG : bool) (kError : Z) (fuel : nat)
        (numBytes : Z) (data : list Z) (b : SkPaintParamsKeyBuilder) :
  error_snippet_ok SK_DEBUG kError (fDict b) ->
  fIsValid b = true -> fLockCount b = 0%nat -> fStack b = [] ->
  addBytes SK_DEBUG kError (S fuel) numBytes data b
  = Ok (MkBuilder (fDict b) [kError; 2] [] false 0%nat).
Proof.
  intros He Hv Hl Hs. unfold addBytes, addBytes_body, isValid. rewrite Hv, Hs.
  cbn [negb]. rewrite makeInvalid_poisons by done. unfold poisoned. by rewrite Hl.
Qed.

Lemma addBytes_needs_open_block_witness :
  addBytes true 0 1 2 [1; 2] (MkBuilder example_dict [5; 4; 1; 2] [] true 0%nat)
  = Ok (MkBuilder example_dict [0; 2] [] false 0%nat).
Proof.
  apply (addBytes_needs_open_block true 0 0 2 [1; 2]
           (MkBuilder example_dict [5; 4; 1; 2] [] true 0%nat));
    [apply example_error_snippet_ok | reflexivity | reflexivity | reflexivity].
Defined.

(** ** Wide snippet IDs *)

(** X9 (IDs above 255).  A snippet ID inside the dictionary's range but
    above 255 does not fit the header byte: a debug build stops at an
    assertion, and a release build stores the ID modulo 256 and closes
    the block as if nothing had happened. *)
Theorem wide_ids_are_truncated (kError : Z) (fuel : nat)
        (dict : SkShaderCodeDictionary) (id : Z) :
  256 <= id <= maxCodeSnippetID dict ->
  run_ops true kError fuel [OpBegin id; OpEnd] (SkPaintParamsKeyBuilder_new dict)
  = Fault AssertFailed
  /\ run_ops false kError fuel [OpBegin id; OpEnd] (SkPaintParamsKeyBuilder_new dict)
     = Ok (MkBuilder dict [id mod 256; 2] [] true 0%nat).
Proof.
  intros Hid. split.
  - cbn [run_ops run_op]. unfold beginBlock, beginBlock_body, isValid.
    cbn [SkPaintParamsKeyBuilder_new fIsValid negb fDict fStack].
    rewrite Z.gtb_ltb.
    destruct (Z.ltb_spec id 0); [lia|].
    destruct (Z.ltb_spec (maxCodeSnippetID dict) id); [lia|]. cbn [orb].
    unfold SkTo_uint8, SkASSERT, isLocked. cbn [fLockCount Nat.eqb negb andb].
    rewrite !bind_Ok.
    destruct (Z.leb_spec 0 id); [|lia]. destruct (Z.ltb_spec id 256); [lia|]. done.
  - cbn [run_ops run_op]. unfold beginBlock, SkPaintParamsKeyBuilder_new.
    rewrite (beginBlock_body_ok false _ _ _ _ _ []); [|lia|done].
    rewrite bind_Ok. unfold endBlock. rewrite endBlock_body_ok.
    + rewrite bind_Ok. cbn. done.
    + cbn. lia.
    + cbn. lia.
    + unfold kMaxBlockSize. cbn. lia.
    + done.
Qed.

Lemma wide_ids_are_truncated_witness :
  run_ops true 0 1 [OpBegin 261; OpEnd]
          (SkPaintParamsKeyBuilder_new (Build_SkShaderCodeDictionary 300 example_entries))
  = Fault AssertFailed
  /\ run_ops false 0 1 [OpBegin 261; OpEnd]
             (SkPaintParamsKeyBuilder_new (Build_SkShaderCodeDictionary 300 example_entries))
     = Ok (MkBuilder (Build_SkShaderCodeDictionary 300 example_entries)
                     [261 mod 256; 2] [] true 0%nat).
Proof.
  apply (wide_ids_are_truncated 0 1 (Build_SkShaderCodeDictionary 300 example_entries) 261).
  simpl. lia.
Defined.

(** ** Indentation *)

(** X18 (indentation).  [output_indent] prints the four-space unit
    [indent] times and nothing else; for a negative [indent] it prints
    nothing. *)
Theorem output_indent_prints_indent_units (indent : Z) (out : DebugOutput) :
  output_indent indent out
  = (out ++ replicate (Z.to_nat indent) ("    "%string, []), Ok tt).
Proof. apply output_indent_eq. Qed.

(** ** Debug builds check the payload shape *)

Lemma addBytes_debug_mismatch mk dict d id h E c rest n data :
  (forall e, index_at E c = Some e -> fCount e <> n) ->
  addBytes_body true mk n data (MkBuilder dict d (Frame.mk id h E c :: rest) true 0%nat)
  = Fault AssertFailed.
Proof.
  intros Hne. unfold addBytes_body, isValid.
  cbn [fIsValid negb fStack Frame.fDataPayloadExpectations Frame.fCurDataPayloadEntry].
  unfold SkASSERT. cbn [andb].
  destruct (index_at E c) as [e|] eqn:He.
  - specialize (Hne e eq_refl). apply Z.eqb_neq in Hne. rewrite Hne.
    by rewrite !andb_false_r.
  - by rewrite andb_false_r.
Qed.

Lemma drop_lookup_cons {A} (E : list A) c e E' :
  drop c E = e :: E' -> E !! c = Some e /\ drop (S c) E = E'.
Proof.
  intros H. split.
  - rewrite <- (Nat.add_0_r c), <- lookup_drop, H. done.
  - replace (S c) with (c + 1)%nat by lia. rewrite <- drop_drop, H. done.
Qed.

Lemma payload_mismatch kError fuel dict id h E rest pl : forall d c,
  0 <= c ->
  field_sizes pl <> map fCount (drop (Z.to_nat c) E) ->
  run_ops true kError fuel
          (map (fun p => OpAdd (Z.of_nat (length p)) p) pl ++ [OpEnd])
          (MkBuilder dict d (Frame.mk id h E c :: rest) true 0%nat)
  = Fault AssertFailed.
Proof.
  induction pl as [|p pl IH]; intros d c Hc Hne.
  - cbn [map app run_ops run_op]. unfold endBlock, endBlock_body, isValid.
    cbn [fIsValid negb fStack Frame.fDataPayloadExpectations Frame.fCurDataPayloadEntry].
    unfold SkASSERT. cbn [andb].
    destruct (Z.eqb_spec c (Z.of_nat (length E))) as [->|]; [|done].
    rewrite Nat2Z.id, drop_all in Hne. done.
  - cbn [map app run_ops run_op]. unfold addBytes.
    destruct (drop (Z.to_nat c) E) as [|e E'] eqn:HE.
    + rewrite addBytes_debug_mismatch; [done|].
      intros e He. unfold index_at in He. destruct (Z.ltb_spec c 0); [done|].
      apply (f_equal (@length _)) in HE. rewrite length_drop in HE.
      apply lookup_lt_Some in He. simpl in HE. lia.
    + apply drop_lookup_cons in HE as [He HE'].
      destruct (decide (fCount e = Z.of_nat (length p))) as [Heq|Hneq].
      * rewrite (addBytes_body_ok true); [|lia|].
        2:{ intros _. exists e. split; [|done].
            cbn [Frame.fDataPayloadExpectations Frame.fCurDataPayloadEntry].
            unfold index_at. destruct (Z.ltb_spec c 0); [lia|done]. }
        rewrite bind_Ok. cbn [Frame.fCodeSnippetID Frame.fHeaderOffset
                                Frame.fDataPayloadExpectations Frame.fCurDataPayloadEntry].
        apply IH; [lia|].
        replace (Z.to_nat (c + 1)) with (S (Z.to_nat c)) by lia. rewrite HE'.
        intros Heq'. apply Hne. cbn [field_sizes map]. rewrite Heq. f_equal. exact Heq'.
      * rewrite addBytes_debug_mismatch; [done|].
        intros e0 He0. unfold index_at in He0. destruct (Z.ltb_spec c 0); [done|].
        rewrite He in He0. injection He0 as <-. done.
Qed.

(** X10 (debug builds check the payload shape).  In a debug build,
    building a block without children whose payload fields do not have
    exactly the sizes the dictionary declares for its ID stops at an
    assertion, whether a field is too many, missing or of the wrong
    size. *)
Theorem debug_build_checks_payload_shape (kError : Z) (fuel : nat)
        (dict : SkShaderCodeDictionary) (id : Z) (e : SkShaderSnippet)
        (d : list Z) (st : list Frame.t) (pl : list (list Z)) :
  0 <= id <= maxCodeSnippetID dict -> id < 256 ->
  getEntry dict id = Some e ->
  top_clear true st ->
  field_sizes pl <> map fCount (fDataPayloadExpectations e) ->
  run_ops true kError fuel (build_ops (MkBlock id [] pl))
          (MkBuilder dict d st true 0%nat)
  = Fault AssertFailed.
Proof.
  intros Hr H8 He Htop Hne. cbn [build_ops map concat app run_ops run_op].
  unfold beginBlock.
  rewrite (beginBlock_body_ok true _ _ _ _ _ (fDataPayloadExpectations e)); [|done|].
  2:{ intros _. split; [lia|]. split; [eauto|]. by apply Htop. }
  rewrite bind_Ok. unfold frame_of. apply payload_mismatch; [lia|done].
Qed.

Lemma debug_build_checks_payload_shape_witness :
  run_ops true 0 1 (build_ops (MkBlock 5 [] [[1]; [2]]))
          (MkBuilder example_dict [] [] true 0%nat)
  = Fault AssertFailed.
Proof.
  apply (debug_build_checks_payload_shape 0 1 example_dict 5
           (Build_SkShaderSnippet "solid" 0 [Build_DataPayloadField "color" kByte 2])).
  - simpl. lia.
  - lia.
  - reflexivity.
  - intros _. exact I.
  - discriminate.
Defined.

(** ** The mock render pass *)

Section MockFacts.
Variable GrTexture : Type.
Variable markMipmapsDirty : GrTexture -> GrTexture.

Lemma mock_call_effect c p :
  fColorLoadOp _ (mock_call _ markMipmapsDirty c p) = fColorLoadOp _ p
  /\ fNumDraws _ (mock_call _ markMipmapsDirty c p)
     = fNumDraws _ p + (if is_draw c then 1 else 0)
  /\ fRenderTarget_asTexture _ (mock_call _ markMipmapsDirty c p)
     = (if dirties (fColorLoadOp _ p) c then markMipmapsDirty else id)
         <$> fRenderTarget_asTexture _ p.
Proof.
  destruct p as [[tex|] op n]; destruct op; destruct c;
    (split; [reflexivity|split; [cbn; lia|reflexivity]]).
Qed.

Lemma mock_calls_effect cs : forall p,
  fColorLoadOp _ (mock_calls _ markMipmapsDirty cs p) = fColorLoadOp _ p
  /\ fNumDraws _ (mock_calls _ markMipmapsDirty cs p)
     = fNumDraws _ p + Z.of_nat (length (filter (fun c => is_draw c = true) cs))
  /\ fRenderTarget_asTexture _ (mock_calls _ markMipmapsDirty cs p)
     = Nat.iter (length (filter (fun c => dirties (fColorLoadOp _ p) c = true) cs))
                markMipmapsDirty
         <$> fRenderTarget_asTexture _ p.
Proof.
  induction cs as [|c cs IH]; intros p.
  - cbn. split; [done|]. split; [lia|]. by destruct (fRenderTarget_asTexture _ p).
  - cbn [mock_calls foldl]. fold (mock_calls _ markMipmapsDirty cs (mock_call _ markMipmapsDirty c p)).
    destruct (IH (mock_call _ markMipmapsDirty c p)) as (H1 & H2 & H3).
    destruct (mock_call_effect c p) as (E1 & E2 & E3).
    rewrite H1, H2, H3, E1, E2, E3. split; [done|]. split.
    + rewrite filter_cons. destruct (is_draw c) eqn:Hd.
      * rewrite decide_True by done. cbn [length]. lia.
      * rewrite decide_False by done. lia.
    + rewrite filter_cons. destruct (dirties (fColorLoadOp _ p) c) eqn:Hd.
      * rewrite decide_True by done. cbn [length].
        destruct (fRenderTarget_asTexture _ p) as [tex|]; [|done].
        cbn [fmap option_fmap option_map]. f_equal. symmetry. apply Nat.iter_succ_r.
      * rewrite decide_False by done.
        destruct (fRenderTarget_asTexture _ p) as [tex|]; done.
Qed.

End MockFacts.

(** X19 (draw count).  After any sequence of calls on a new mock render
    pass, [numDraws] is the number of draw calls among them ([onDraw],
    [onDrawIndexed], [onDrawInstanced], [onDrawIndexedInstanced],
    [onDrawIndirect], [onDrawIndexedIndirect]); no other call changes
    it. *)
Theorem numDraws_counts_draw_calls (GrTexture : Type)
        (markMipmapsDirty : GrTexture -> GrTexture)
        (rt : option GrTexture) (colorLoadOp : GrLoadOp) (cs : list MockCall) :
  numDraws _ (mock_calls _ markMipmapsDirty cs
                         (GrMockOpsRenderPass_new _ rt colorLoadOp))
  = Z.of_nat (length (filter (fun c => is_draw c = true) cs)).
Proof.
  unfold numDraws.
  destruct (mock_calls_effect _ markMipmapsDirty cs (GrMockOpsRenderPass_new _ rt colorLoadOp))
    as (_ & -> & _). cbn. lia.
Qed.

(** X20 (dirty marking).  After any sequence of calls on a new mock
    render pass, a render target that is a texture has had
    [markMipmapsDirty] applied once for every draw call, every [onClear]
    and, when the colour load op is [kClear], every [onBegin], and for
    nothing else; a render target that is not a texture is left alone. *)
Theorem render_target_dirtied_once_per_draw_or_clear (GrTexture : Type)
        (markMipmapsDirty : GrTexture -> GrTexture)
        (rt : option GrTexture) (colorLoadOp : GrLoadOp) (cs : list MockCall) :
  fRenderTarget_asTexture _
    (mock_calls _ markMipmapsDirty cs (GrMockOpsRenderPass_new _ rt colorLoadOp))
  = Nat.iter (length (filter (fun c => dirties colorLoadOp c = true) cs))
             markMipmapsDirty <$> rt.
Proof.
  destruct (mock_calls_effect _ markMipmapsDirty cs (GrMockOpsRenderPass_new _ rt colorLoadOp))
    as (_ & _ & ->). done.
Qed.

(** ** More debug checks *)

(** X11 (children before payload).  In a debug build, [beginBlock] with
    an ID of the dictionary's range stops at an assertion when the
    innermost open block already has a payload field written. *)
Theorem debug_child_after_payload_asserts (kError : Z) (fuel : nat)
        (codeSnippetID : Z) (b : SkPaintParamsKeyBuilder)
        (back : Frame.t) (rest : list Frame.t) :
  fIsValid b = true ->
  0 <= codeSnippetID <= maxCodeSnippetID (fDict b) ->
  fStack b = back :: rest ->
  Frame.fCurDataPayloadEntry back <> 0 ->
  beginBlock true kError fuel codeSnippetID b = Fault AssertFailed.
Proof.
  intros Hv Hid Hs Hcur. unfold beginBlock, beginBlock_body, isValid.
  rewrite Hv, Hs. cbn [negb].
  destruct (Z.ltb_spec codeSnippetID 0) as [?|_]; [lia|].
  rewrite Z.gtb_ltb.
  destruct (Z.ltb_spec (maxCodeSnippetID (fDict b)) codeSnippetID) as [?|_]; [lia|].
  cbn [orb]. unfold SkASSERT at 1.
  destruct (Z.eqb_spec (Frame.fCurDataPayloadEntry back) 0) as [?|_]; [done|].
  reflexivity.
Qed.

Lemma debug_child_after_payload_asserts_witness :
  beginBlock true 0 1 5 (example_open true 1 1) = Fault AssertFailed.
Proof.
  apply (debug_child_after_payload_asserts 0 1 5 (example_open true 1 1)
           (frame_of true 1 0 [Build_DataPayloadField "data" kByte 1] 1) []).
  - reflexivity.
  - simpl. lia.
  - reflexivity.
  - simpl. lia.
Defined.

(** X14 (a child must start inside its parent).  In a debug build,
    [AddBlockToShaderInfo] on a header whose entry declares a child but
    whose stored size is at most 2 stops at an assertion before reading
    the child. *)
Theorem AddBlock_debug_child_must_start_inside
        (kDepthStencilOnlyDraw : Z) (fuel : nat)
        (dict : SkShaderCodeDictionary) (key : SkPaintParamsKey)
        (headerOffset id blockSize : Z) (entry : SkShaderSnippet)
        (result : SkShaderInfo) :
  byte_at (Key.fData key) headerOffset = Some id ->
  byte_at (Key.fData key) (headerOffset + 1) = Some blockSize ->
  getEntry dict id = Some entry ->
  0 < fNumChildren entry ->
  blockSize <= 2 ->
  AddBlockToShaderInfo true kDepthStencilOnlyDraw (S fuel) dict key headerOffset result
  = Fault AssertFailed.
Proof.
  intros Hid Hbs He Hn Hsmall.
  cbn [AddBlockToShaderInfo]. unfold readCodeSnippetID, Key_byte, kBlockSizeOffsetInBytes.
  rewrite Hid. monad_ok. rewrite Hbs. monad_ok. cbn [fst snd]. rewrite He.
  destruct (Z.to_nat (fNumChildren entry)) as [|n] eqn:Hc; [lia|].
  cbn [for_loop]. cbn [fst snd]. unfold SkASSERT at 1, kBlockHeaderSizeInBytes.
  destruct (Z.ltb_spec (headerOffset + 2) (headerOffset + blockSize)) as [?|_]; [lia|].
  reflexivity.
Qed.

Lemma AddBlock_debug_child_must_start_inside_witness :
  AddBlockToShaderInfo true 2 1 example_dict (SkPaintParamsKey_raw [1; 2]) 0
                       (MkShaderInfo [] false)
  = Fault AssertFailed.
Proof.
  apply (AddBlock_debug_child_must_start_inside 2 0 example_dict
           (SkPaintParamsKey_raw [1; 2]) 0 1 2
           (Build_SkShaderSnippet "blend" 1 [Build_DataPayloadField "mode" kByte 1])).
  - reflexivity.
  - reflexivity.
  - reflexivity.
  - simpl. lia.
  - lia.
Defined.

(** X12 (no reset while a key is alive).  The builder [lockAsKey] leaves
    behind is locked, so the debug-only [checkReset] fails on it until
    the key is destroyed. *)
Theorem checkReset_fails_while_key_alive (SK_DEBUG : bool) (kError : Z) (fuel : nat)
        (b b' : SkPaintParamsKeyBuilder) (key : SkPaintParamsKey) :
  lockAsKey SK_DEBUG kError fuel b = Ok (key, b') ->
  isLocked b' = true /\ checkReset true b' = Fault AssertFailed.
Proof.
  intros H. unfold lockAsKey in H.
  apply bind_Ok_inv in H as (b1 & _ & H).
  apply bind_Ok_inv in H as (_ & _ & H). injection H as _ <-.
  split; [reflexivity|]. reflexivity.
Qed.

Lemma checkReset_fails_while_key_alive_witness :
  isLocked (MkBuilder example_dict [5; 4; 1; 2] [] true 1%nat) = true
  /\ checkReset true (MkBuilder example_dict [5; 4; 1; 2] [] true 1%nat)
     = Fault AssertFailed.
Proof.
  apply (checkReset_fails_while_key_alive true 0 1
           (MkBuilder example_dict [5; 4; 1; 2] [] true 0%nat)
           (MkBuilder example_dict [5; 4; 1; 2] [] true 1%nat)
           (Key.mk [5; 4; 1; 2] true)).
  reflexivity.
Defined.
